(** * atoship Python SDK: error taxonomy, validation, retry and masking

    A shallow embedding of the parts of [atoship/exceptions.py],
    [atoship/utils.py], [atoship/client.py] and [atoship/models.py] that
    decide the behaviour of the request / retry / error-mapping pipeline
    and of the client-side validators.

    Conventions of the embedding:
    - Python values ([Any]) are the inductive [pyval]; dictionaries with
      string keys are association lists in insertion order, read with
      first-match lookup; a [datetime] object is its timestamp;
    - text is ASCII text: [str] is [string], and the character classes of
      [re] and of [str.strip], [str.upper], [str.lower] are the ASCII ones;
    - a call that may raise returns an [outcome]: a value or the exception;
    - the HTTP transport is a function giving the outcome of a request
      from the requests sent so far; the client threads a [world]
      recording the requests sent and the delays slept. *)

From Stdlib Require Import ZArith List Bool Lia String Ascii DecimalString.
From Stdlib Require Import Floats.PrimFloat.
Import ListNotations.

Set Warnings "-register-all".

#[local] Open Scope string_scope.
#[local] Open Scope Z_scope.

(* ================================================================== *)
(** ** Python values *)

Module Py.

Inductive pyval : Type :=
| VNone
| VBool (b : bool)
| VInt (z : Z)
| VFloat (f : float)
| VStr (s : string)
| VDatetime (t : Z)
| VList (l : list pyval)
| VDict (d : list (string * pyval)).

(** [Dict[str, Any]] *)
Definition dict : Type := list (string * pyval).

(** [bool(v)]: Python truthiness. *)
Definition truthy (v : pyval) : bool :=
  match v with
  | VNone => false
  | VBool b => b
  | VInt z => negb (z =? 0)
  | VFloat f => negb (PrimFloat.eqb f PrimFloat.zero)
  | VStr s => negb (String.eqb s "")
  | VDatetime _ => true
  | VList l => match l with [] => false | _ => true end
  | VDict d => match d with [] => false | _ => true end
  end.

(** [d.get(key)] as an option: [None] when the key is absent. *)
Fixpoint lookup (key : string) (d : dict) : option pyval :=
  match d with
  | [] => None
  | (k, v) :: rest => if String.eqb k key then Some v else lookup key rest
  end.

(** [key in d] *)
Definition contains (key : string) (d : dict) : bool :=
  match lookup key d with Some _ => true | None => false end.

(** [d.get(key, default)] *)
Definition get (d : dict) (key : string) (default : pyval) : pyval :=
  match lookup key d with Some v => v | None => default end.

(** [a or b] on values. *)
Definition por (a b : pyval) : pyval := if truthy a then a else b.

Definition is_str (v : pyval) : bool :=
  match v with VStr _ => true | _ => false end.

Definition is_dict (v : pyval) : bool :=
  match v with VDict _ => true | _ => false end.

(** [isinstance(v, int)]: [bool] is a subclass of [int]. *)
Definition isinstance_int (v : pyval) : bool :=
  match v with VInt _ | VBool _ => true | _ => false end.

(** [isinstance(v, (int, float))] *)
Definition isinstance_int_float (v : pyval) : bool :=
  match v with VInt _ | VBool _ | VFloat _ => true | _ => false end.

End Py.
Import Py.

(* ================================================================== *)
(** ** Exceptions ([atoship/exceptions.py]) *)

Module Exceptions.

(** The exception classes of the SDK, the built-in ones its code can raise
    by accident, and the [ValidationError] of [pydantic]. *)
Inductive exc_class : Type :=
| Exception
| atoshipError
| ValidationError
| AuthenticationError
| AuthorizationError
| NotFoundError
| RateLimitError
| ServerError
| NetworkError
| TimeoutError
| ConfigurationError
| AttributeError
| TypeError
| KeyError
| PydanticValidationError.

Definition exc_class_eqb (a b : exc_class) : bool :=
  match a, b with
  | Exception, Exception | atoshipError, atoshipError
  | ValidationError, ValidationError
  | AuthenticationError, AuthenticationError
  | AuthorizationError, AuthorizationError
  | NotFoundError, NotFoundError | RateLimitError, RateLimitError
  | ServerError, ServerError | NetworkError, NetworkError
  | TimeoutError, TimeoutError | ConfigurationError, ConfigurationError
  | AttributeError, AttributeError | TypeError, TypeError
  | KeyError, KeyError
  | PydanticValidationError, PydanticValidationError => true
  | _, _ => false
  end.

(** The base class written in each [class] statement; [Exception] is the
    root of the model. *)
Definition base (c : exc_class) : option exc_class :=
  match c with
  | Exception => None
  | atoshipError => Some Exception
  | ValidationError | AuthenticationError | AuthorizationError
  | NotFoundError | RateLimitError | ServerError | NetworkError
  | TimeoutError | ConfigurationError => Some atoshipError
  | AttributeError | TypeError | KeyError => Some Exception
  | PydanticValidationError => Some Exception
  end.

(** [issubclass(c, target)]: the hierarchy has depth two. *)
Definition issubclass (c target : exc_class) : bool :=
  exc_class_eqb c target ||
  match base c with
  | None => false
  | Some b =>
      exc_class_eqb b target ||
      match base b with
      | None => false
      | Some bb => exc_class_eqb bb target
      end
  end.

(** An exception object.  [message], [code] and [details] are the
    attributes set by [atoshipError.__init__]; [retry_after] is the
    attribute only [RateLimitError.__init__] sets. *)
Record exc : Type := mkExc {
  cls : exc_class;
  message : pyval;
  code : pyval;
  details : pyval;
  retry_after : option pyval
}.

Definition isinstance (e : exc) (target : exc_class) : bool :=
  issubclass (cls e) target.

(** A call either returns or raises. *)
Inductive outcome (A : Type) : Type :=
| Return (a : A)
| Raise (e : exc).
Arguments Return {A} a.
Arguments Raise {A} e.

Definition bind {A B} (m : outcome A) (k : A -> outcome B) : outcome B :=
  match m with
  | Return a => k a
  | Raise e => Raise e
  end.

(** A built-in exception, which has none of the SDK attributes. *)
Definition builtin (c : exc_class) : exc := mkExc c VNone VNone VNone None.

(** [atoshipError.__init__], inherited unchanged by every subclass but
    [RateLimitError]: [self.details = details or {}]. *)
Definition new_error (c : exc_class) (message code details : pyval) : exc :=
  mkExc c message code (por details (VDict [])) None.

(** [RateLimitError.__init__]:
    [self.retry_after = details.get('retryAfter') if details else None].
    [details.get] exists only on a dict. *)
Definition new_RateLimitError (message code details : pyval) : outcome exc :=
  if truthy details then
    match details with
    | VDict d =>
        Return (mkExc RateLimitError message code (por details (VDict []))
                      (Some (get d "retryAfter" VNone)))
    | _ => Raise (builtin AttributeError)
    end
  else
    Return (mkExc RateLimitError message code (por details (VDict []))
                  (Some VNone)).

(** [create_error_from_response(status_code, response_data)] *)
Definition create_error_from_response (status_code : Z) (response_data : dict)
  : outcome exc :=
  let message := get response_data "error" (VStr "Unknown error") in
  let code := get response_data "code" VNone in
  let details := get response_data "details" (VDict []) in
  if status_code =? 400 then Return (new_error ValidationError message code details)
  else if status_code =? 401 then Return (new_error AuthenticationError message code details)
  else if status_code =? 403 then Return (new_error AuthorizationError message code details)
  else if status_code =? 404 then Return (new_error NotFoundError message code details)
  else if status_code =? 429 then new_RateLimitError message code details
  else if (500 <=? status_code) && (status_code <? 600)
       then Return (new_error ServerError message code details)
  else Return (new_error atoshipError message code details).

(** [is_retriable_error(error)] *)
Definition is_retriable_error (error : exc) : bool :=
  if isinstance error NetworkError || isinstance error TimeoutError then true
  else if isinstance error ServerError then true
  else if isinstance error RateLimitError then false
  else false.

End Exceptions.
Import Exceptions.

(* ================================================================== *)
(** ** Text: the [str] methods and the [re] patterns the validators use *)

Module Text.

#[local] Open Scope nat_scope.

Definition code_of (c : ascii) : nat := nat_of_ascii c.

(** Whitespace of [str.strip()] and of the class [\s]:
    TAB, LF, VT, FF, CR, FS, GS, RS, US and SPACE. *)
Definition is_space (c : ascii) : bool :=
  let n := code_of c in
  ((9 <=? n) && (n <=? 13)) || ((28 <=? n) && (n <=? 32)).

(** The class [\d]. *)
Definition is_digit (c : ascii) : bool :=
  let n := code_of c in (48 <=? n) && (n <=? 57).

Definition is_upper (c : ascii) : bool :=
  let n := code_of c in (65 <=? n) && (n <=? 90).

Definition is_lower (c : ascii) : bool :=
  let n := code_of c in (97 <=? n) && (n <=? 122).

Definition upper_char (c : ascii) : ascii :=
  if is_lower c then ascii_of_nat (code_of c - 32) else c.

Definition lower_char (c : ascii) : ascii :=
  if is_upper c then ascii_of_nat (code_of c + 32) else c.

Fixpoint map_string (f : ascii -> ascii) (s : string) : string :=
  match s with
  | EmptyString => EmptyString
  | String c rest => String (f c) (map_string f rest)
  end.

(** [s.upper()] and [s.lower()] *)
Definition upper (s : string) : string := map_string upper_char s.
Definition lower (s : string) : string := map_string lower_char s.

(** [s.lstrip()] *)
Fixpoint lstrip (s : string) : string :=
  match s with
  | EmptyString => EmptyString
  | String c rest => if is_space c then lstrip rest else s
  end.

(** [s.rstrip()]: a character is kept when it is not a space or when
    something is kept after it. *)
Fixpoint rstrip (s : string) : string :=
  match s with
  | EmptyString => EmptyString
  | String c rest =>
      match rstrip rest with
      | EmptyString => if is_space c then EmptyString else String c EmptyString
      | kept => String c kept
      end
  end.

(** [s.strip()] *)
Definition strip (s : string) : string := rstrip (lstrip s).

(** [c * n] for a one-character string. *)
Fixpoint repeat_char (c : ascii) (n : nat) : string :=
  match n with
  | O => EmptyString
  | S n' => String c (repeat_char c n')
  end.

(** [s[:n]] and [s[-n:]] for [n > 0]. *)
Definition slice_to (n : nat) (s : string) : string := substring 0 n s.
Definition slice_last (n : nat) (s : string) : string :=
  substring (String.length s - n) n s.

(** [re.sub(r'\D', '', s)]: the digits of [s], in order. *)
Fixpoint digits_of (s : string) : string :=
  match s with
  | EmptyString => EmptyString
  | String c rest =>
      if is_digit c then String c (digits_of rest) else digits_of rest
  end.

(** *** Regular expressions *)

(** The fragment of [re] syntax the patterns use: character classes,
    concatenation, alternation and repetition. *)
Inductive regex : Type :=
| Void
| Eps
| Class (p : ascii -> bool)
| Cat (r1 r2 : regex)
| Alt (r1 r2 : regex)
| Star (r : regex).

Fixpoint nullable (r : regex) : bool :=
  match r with
  | Void => false
  | Eps => true
  | Class _ => false
  | Cat r1 r2 => nullable r1 && nullable r2
  | Alt r1 r2 => nullable r1 || nullable r2
  | Star _ => true
  end.

Definition cat (r1 r2 : regex) : regex :=
  match r1, r2 with
  | Void, _ => Void
  | _, Void => Void
  | Eps, _ => r2
  | _, Eps => r1
  | _, _ => Cat r1 r2
  end.

Definition alt (r1 r2 : regex) : regex :=
  match r1, r2 with
  | Void, _ => r2
  | _, Void => r1
  | _, _ => Alt r1 r2
  end.

(** Brzozowski derivative of [r] by the character [c]. *)
Fixpoint deriv (c : ascii) (r : regex) : regex :=
  match r with
  | Void => Void
  | Eps => Void
  | Class p => if p c then Eps else Void
  | Cat r1 r2 =>
      if nullable r1 then alt (cat (deriv c r1) r2) (deriv c r2)
      else cat (deriv c r1) r2
  | Alt r1 r2 => alt (deriv c r1) (deriv c r2)
  | Star r1 => cat (deriv c r1) (Star r1)
  end.

(** The whole of [s] is in the language of [r]. *)
Fixpoint full_match (r : regex) (s : string) : bool :=
  match s with
  | EmptyString => nullable r
  | String c rest => full_match (deriv c r) rest
  end.

(** [s] without its last character when that is a line feed. *)
Fixpoint chomp (s : string) : option string :=
  match s with
  | EmptyString => None
  | String c EmptyString => if Ascii.eqb c "010"%char then Some EmptyString else None
  | String c rest =>
      match chomp rest with
      | Some rest' => Some (String c rest')
      | None => None
      end
  end.

(** [bool(re.match('^' + r + '$', s))]: [$] matches at the end of the
    string and also just before a line feed that ends the string. *)
Definition re_match (r : regex) (s : string) : bool :=
  full_match r s ||
  match chomp s with
  | Some s' => full_match r s'
  | None => false
  end.

Definition plus (r : regex) : regex := Cat r (Star r).
Definition opt (r : regex) : regex := Alt r Eps.

Fixpoint times (n : nat) (r : regex) : regex :=
  match n with
  | O => Eps
  | S n' => Cat r (times n' r)
  end.

(** [r{m,m+extra}] *)
Fixpoint upto (extra : nat) (r : regex) : regex :=
  match extra with
  | O => Eps
  | S e => opt (Cat r (upto e r))
  end.
Definition range (m extra : nat) (r : regex) : regex :=
  Cat (times m r) (upto extra r).

Definition lit (c : ascii) : regex := Class (Ascii.eqb c).

End Text.
Import Text.

Declare Scope outcome_scope.
Delimit Scope outcome_scope with outcome.
Notation "x <- m ;; k" := (bind m (fun x => k))
  (at level 61, m at next level, right associativity) : outcome_scope.
#[local] Open Scope outcome_scope.

(* ================================================================== *)
(** ** Validators ([atoship/utils.py]) *)

Module Validation.

(** [tracking_number.strip().upper()] *)
Definition format_tracking_number (tracking_number : string) : string :=
  upper (strip tracking_number).

(** [[^\s@]] *)
Definition email_char (c : ascii) : bool :=
  negb (is_space c) && negb (Ascii.eqb c "@"%char).

(** [^[^\s@]+@[^\s@]+\.[^\s@]+$] *)
Definition email_pattern : regex :=
  Cat (plus (Class email_char))
  (Cat (lit "@"%char)
  (Cat (plus (Class email_char))
  (Cat (lit "."%char)
       (plus (Class email_char))))).

(** [validate_email(email)]; [re.match] rejects an argument that is not a
    string with [TypeError]. *)
Definition validate_email (email : pyval) : outcome bool :=
  match email with
  | VStr s => Return (re_match email_pattern s)
  | _ => Raise (builtin TypeError)
  end.

(** [validate_phone(phone)]; [re.sub] rejects an argument that is not a
    string with [TypeError]. *)
Definition validate_phone (phone : pyval) : outcome bool :=
  match phone with
  | VStr s =>
      let digits := digits_of s in
      Return ((10 <=? String.length digits)%nat && (String.length digits <=? 15)%nat)
  | _ => Raise (builtin TypeError)
  end.

Definition digit : regex := Class is_digit.
Definition AZ : regex := Class is_upper.

(** [^\d{5}(-\d{4})?$] *)
Definition us_pattern : regex :=
  Cat (times 5 digit) (opt (Cat (lit "-"%char) (times 4 digit))).

(** [^[A-Z]\d[A-Z]\s?\d[A-Z]\d$] *)
Definition ca_pattern : regex :=
  Cat AZ (Cat digit (Cat AZ (Cat (opt (Class is_space)) (Cat digit (Cat AZ digit))))).

(** [^[A-Z]{1,2}\d[A-Z\d]?\s?\d[A-Z]{2}$] *)
Definition gb_pattern : regex :=
  Cat (range 1 1 AZ)
  (Cat digit
  (Cat (opt (Class (fun c => is_upper c || is_digit c)))
  (Cat (opt (Class is_space))
  (Cat digit (times 2 AZ))))).

(** [^[A-Z0-9\s-]{3,10}$] *)
Definition other_pattern : regex :=
  range 3 7 (Class (fun c => is_upper c || is_digit c || is_space c
                             || Ascii.eqb c "-"%char)).

(** [validate_postal_code(postal_code, country)]: [.strip()] and
    [.upper()] exist only on strings. *)
Definition validate_postal_code (postal_code country : pyval) : outcome bool :=
  match postal_code with
  | VStr pc =>
      let postal_code := upper (strip pc) in
      match country with
      | VStr c =>
          if String.eqb (upper c) "US" then Return (re_match us_pattern postal_code)
          else if String.eqb (upper c) "CA" then Return (re_match ca_pattern postal_code)
          else if String.eqb (upper c) "GB" then Return (re_match gb_pattern postal_code)
          else Return (re_match other_pattern postal_code)
      | _ => Raise (builtin AttributeError)
      end
  | _ => Raise (builtin AttributeError)
  end.

(** *** The operators [in] and [[]] with a string on the left *)

Fixpoint starts_with (p s : string) : bool :=
  match p, s with
  | EmptyString, _ => true
  | String a p', String b s' => Ascii.eqb a b && starts_with p' s'
  | String _ _, EmptyString => false
  end.

Fixpoint has_substring (p s : string) : bool :=
  starts_with p s ||
  match s with
  | EmptyString => false
  | String _ s' => has_substring p s'
  end.

Definition str_equal (key : string) (v : pyval) : bool :=
  match v with VStr s => String.eqb s key | _ => false end.

(** [key in container] *)
Definition py_in (key : string) (container : pyval) : outcome bool :=
  match container with
  | VDict dd => Return (contains key dd)
  | VStr s => Return (has_substring key s)
  | VList l => Return (existsb (str_equal key) l)
  | _ => Raise (builtin TypeError)
  end.

(** [container[key]] *)
Definition py_getitem (container : pyval) (key : string) : outcome pyval :=
  match container with
  | VDict dd =>
      match lookup key dd with
      | Some v => Return v
      | None => Raise (builtin KeyError)
      end
  | _ => Raise (builtin TypeError)
  end.

Definition is_none (v : pyval) : bool :=
  match v with VNone => true | _ => false end.

(** [v <= 0] for a [v] that passed the [isinstance] test. *)
Definition le_zero (v : pyval) : bool :=
  match v with
  | VInt z => (z <=? 0)%Z
  | VBool b => negb b
  | VFloat f => PrimFloat.leb f PrimFloat.zero
  | _ => false
  end.

(** [str(n)] for a natural number. *)
Definition str_of_nat (n : nat) : string :=
  NilZero.string_of_uint (Nat.to_uint n).

Definition valid_units : list string := ["lb"; "kg"; "oz"; "g"].

Definition item_required_fields : list string :=
  ["name"; "sku"; "quantity"; "unitPrice"; "weight"; "weightUnit"].

(** The first loop of [validate_order_item]:
    [if field not in item or item[field] is None: errors.append(...)]. *)
Fixpoint item_required_errors (prefix : string) (item : pyval)
    (fields : list string) : outcome (list string) :=
  match fields with
  | [] => Return []
  | field :: rest =>
      present <- py_in field item ;;
      missing <- (if negb present then Return true
                  else v <- py_getitem item field ;; Return (is_none v)) ;;
      errors <- item_required_errors prefix item rest ;;
      Return (List.app (if missing : bool
                        then [prefix ++ ": '" ++ field ++ "' is required"]
                        else []) errors)
  end.

(** One of the guarded checks of [validate_order_item]:
    [if key in item: if <bad>(item[key]): errors.append(msg)]. *)
Definition item_check (item : pyval) (key : string) (bad : pyval -> bool)
    (msg : string) : outcome (list string) :=
  present <- py_in key item ;;
  if present : bool then
    v <- py_getitem item key ;;
    Return (if bad v then [msg] else [])
  else Return [].

(** [validate_order_item(item, index)] *)
Definition validate_order_item (item : pyval) (index : nat)
  : outcome (list string) :=
  let prefix := "Item " ++ str_of_nat (index + 1) in
  e0 <- item_required_errors prefix item item_required_fields ;;
  e1 <- item_check item "quantity"
          (fun v => negb (isinstance_int v) || le_zero v)
          (prefix ++ ": quantity must be a positive integer") ;;
  e2 <- item_check item "unitPrice"
          (fun v => negb (isinstance_int_float v) || le_zero v)
          (prefix ++ ": unitPrice must be a positive number") ;;
  e3 <- item_check item "weight"
          (fun v => negb (isinstance_int_float v) || le_zero v)
          (prefix ++ ": weight must be a positive number") ;;
  e4 <- item_check item "weightUnit"
          (fun v => negb (existsb (fun u => str_equal u v) valid_units))
          (prefix ++ ": weightUnit must be one of ['lb', 'kg', 'oz', 'g']") ;;
  Return (List.concat [e0; e1; e2; e3; e4]).

Definition required_fields : list string :=
  ["orderNumber"; "recipientName"; "recipientStreet1"; "recipientCity";
   "recipientState"; "recipientPostalCode"; "recipientCountry"; "items"].

(** The first loop of [validate_order_data]:
    [if field not in order_data or not order_data[field]]. *)
Definition required_errors (order_data : dict) : list string :=
  flat_map
    (fun field =>
       match lookup field order_data with
       | Some v => if truthy v then [] else ["'" ++ field ++ "' is required"]
       | None => ["'" ++ field ++ "' is required"]
       end)
    required_fields.

(** [for i, item in enumerate(items): errors.extend(validate_order_item(item, i))],
    started at index [i]. *)
Fixpoint items_errors (items : list pyval) (i : nat) : outcome (list string) :=
  match items with
  | [] => Return []
  | item :: rest =>
      item_errors <- validate_order_item item i ;;
      errors <- items_errors rest (S i) ;;
      Return (List.app item_errors errors)
  end.

(** [validate_order_data(order_data)] *)
Definition validate_order_data (order_data : dict) : outcome (list string) :=
  let e_required := required_errors order_data in
  e_email <-
    match lookup "recipientEmail" order_data with
    | Some email =>
        if truthy email then
          ok <- validate_email email ;;
          Return (if ok : bool then [] else ["Invalid recipient email format"])
        else Return []
    | None => Return []
    end ;;
  e_phone <-
    match lookup "recipientPhone" order_data with
    | Some phone =>
        if truthy phone then
          ok <- validate_phone phone ;;
          Return (if ok : bool then [] else ["Invalid recipient phone format"])
        else Return []
    | None => Return []
    end ;;
  e_postal <-
    match lookup "recipientPostalCode" order_data,
          lookup "recipientCountry" order_data with
    | Some postal_code, Some country =>
        ok <- validate_postal_code postal_code country ;;
        Return (if ok : bool then [] else ["Invalid postal code format"])
    | _, _ => Return []
    end ;;
  e_items <-
    match lookup "items" order_data with
    | Some (VList []) => Return ["At least one item is required"]
    | Some (VList items) => items_errors items 0
    | Some _ => Return ["At least one item is required"]
    | None => Return []
    end ;;
  Return (List.concat [e_required; e_email; e_phone; e_postal; e_items]).

End Validation.
Import Validation.

(* ================================================================== *)
(** ** Masking for the debug log ([mask_sensitive_data]) *)

Module Masking.

Definition default_sensitive_fields : list string :=
  ["password"; "apiKey"; "api_key"; "secret"; "token"; "key"].

(** [key.lower() in [field.lower() for field in sensitive_fields]] *)
Definition is_sensitive (sensitive_fields : list string) (key : string) : bool :=
  existsb (String.eqb (lower key)) (map lower sensitive_fields).

(** [value[:2] + '*' * (len(value) - 4) + value[-2:]] *)
Definition mask_string (value : string) : string :=
  slice_to 2 value ++ repeat_char "*"%char (String.length value - 4)
    ++ slice_last 2 value.

(** The body of the loop of [mask_sensitive_data] for one entry;
    [recurse] is the recursive call on a nested dictionary. *)
Definition mask_entry (sensitive_fields : list string)
    (recurse : pyval -> pyval) (key : string) (value : pyval) : pyval :=
  if is_sensitive sensitive_fields key then
    match value with
    | VStr s =>
        if (4 <? String.length s)%nat then VStr (mask_string s) else VStr "***"
    | _ => VStr "***"
    end
  else
    match value with
    | VDict _ => recurse value
    | _ => value
    end.

(** [mask_sensitive_data(value, sensitive_fields)] seen from the value
    holding the dictionary, which is what the recursion descends on. *)
Fixpoint mask_value (sensitive_fields : list string) (value : pyval) : pyval :=
  match value with
  | VDict data =>
      VDict (map (fun entry : string * pyval =>
                    let (key, v) := entry in
                    (key, mask_entry sensitive_fields
                            (mask_value sensitive_fields) key v))
                 data)
  | _ => value
  end.

(** [mask_sensitive_data(data, sensitive_fields=None)] *)
Definition mask_sensitive_data (data : dict)
    (sensitive_fields : option (list string)) : dict :=
  let sensitive_fields :=
    match sensitive_fields with
    | None => default_sensitive_fields
    | Some fields => fields
    end in
  map (fun entry : string * pyval =>
         let (key, v) := entry in
         (key, mask_entry sensitive_fields (mask_value sensitive_fields) key v))
      data.

End Masking.
Import Masking.

(* ================================================================== *)
(** ** The HTTP transport and the client ([atoship/client.py]) *)

(** What [httpx.Client.request] can do, as far as the client handles it:
    answer, or raise one of the [httpx] exceptions the client catches.
    An exception the client does not catch (such as [httpx.InvalidURL]
    for a URL with a control character) passes through to the caller and
    is outside the model. *)
Module Httpx.

Inductive result : Type :=
| Response (status_code : Z) (json : option pyval)
| TimeoutException
| NetworkError (msg : string)
| HTTPError (msg : string).

(** [response.is_success] *)
Definition is_success (status_code : Z) : bool :=
  (200 <=? status_code) && (status_code <=? 299).

End Httpx.

Module Client.

(** A request as [_make_request] receives it; the URL and the JSON text
    built from it are not needed by what follows. *)
Record request : Type := mkRequest {
  req_method : string;
  req_endpoint : string;
  req_data : option pyval;
  req_params : option dict
}.

(** The effects of the client: the requests handed to the transport (latest
    first) and the delays (in seconds) passed to [time.sleep] (latest
    first). *)
Record world : Type := mkWorld {
  sent : list request;
  slept : list Z
}.

Definition initial_world : world := mkWorld [] [].

(** [time.sleep(delay)] for a delay it accepts.  [time.sleep] raises
    [ValueError] on a negative delay and [OverflowError] on one too large
    for the platform; the properties of the retry wrapper that involve a
    sleep assume the delay is accepted. *)
Definition sleep (delay : Z) (w : world) : world :=
  mkWorld (sent w) (delay :: slept w).

(** [range(n)] *)
Definition range (n : Z) : list Z := map Z.of_nat (seq 0 (Z.to_nat n)).

Section Retry.

Context {A : Type}.
Variable func : world -> outcome A * world.
Variable max_retries : Z.
Variable base_delay : Z.

(** [raise last_exception]; raising [None] is a [TypeError]. *)
Definition raise_last (last_exception : option exc) : outcome A :=
  match last_exception with
  | Some e => Raise e
  | None => Raise (builtin TypeError)
  end.

(** The [for attempt in range(max_retries + 1)] loop of [wrapper]. *)
Fixpoint retry_loop (attempts : list Z) (last_exception : option exc)
    (w : world) : outcome A * world :=
  match attempts with
  | [] => (raise_last last_exception, w)
  | attempt :: rest =>
      match func w with
      | (Return v, w1) => (Return v, w1)
      | (Raise e, w1) =>
          if attempt =? max_retries then (raise_last (Some e), w1)
          else if negb (is_retriable_error e) then (raise_last (Some e), w1)
          else retry_loop rest (Some e) (sleep (base_delay * 2 ^ attempt) w1)
      end
  end.

(** [retry_with_backoff(func, max_retries, base_delay)(...)] *)
Definition retry_with_backoff (w : world) : outcome A * world :=
  retry_loop (range (max_retries + 1)) None w.

End Retry.

(** The configuration [atoshipSDK.__init__] stores. *)
Record atoshipSDK : Type := mkSDK {
  _api_key : string;
  _base_url : string;
  _timeout : Z;
  _max_retries : Z;
  _debug : bool
}.

(** [s.rstrip('/')] *)
Fixpoint rstrip_slash (s : string) : string :=
  match s with
  | EmptyString => EmptyString
  | String c rest =>
      match rstrip_slash rest with
      | EmptyString =>
          if Ascii.eqb c "/"%char then EmptyString else String c EmptyString
      | kept => String c kept
      end
  end.

(** [atoshipSDK(api_key, base_url, timeout, max_retries, debug)] *)
Definition new_atoshipSDK (api_key : pyval) (base_url : string) (timeout : Z)
    (max_retries : Z) (debug : bool) : outcome atoshipSDK :=
  match api_key with
  | VStr k =>
      if truthy api_key
      then Return (mkSDK k (rstrip_slash base_url) timeout max_retries debug)
      else Raise (new_error ConfigurationError
                    (VStr "API key is required and must be a string") VNone VNone)
  | _ => Raise (new_error ConfigurationError
                  (VStr "API key is required and must be a string") VNone VNone)
  end.

(** The defaults of the constructor. *)
Definition default_base_url : string := "https://api.atoship.com".
Definition default_timeout : Z := 30.
Definition default_max_retries : Z := 3.

Section Requests.

(** The remote service and the network: the outcome of a request given
    the requests sent so far, that request first. *)
Variable server : list request -> Httpx.result.

(** [_handle_response(response)] *)
Definition _handle_response (status_code : Z) (json : option pyval)
  : outcome pyval :=
  let response_data :=
    match json with
    | Some v => v
    | None => VDict [("error", VStr "Invalid JSON response")]
    end in
  if Httpx.is_success status_code then Return response_data
  else
    match response_data with
    | VDict body =>
        error <- create_error_from_response status_code body ;;
        Raise error
    | _ => Raise (builtin AttributeError)
    end.

(** The inner [make_request] of [_make_request]: one attempt. *)
Definition make_request (r : request) (w : world) : outcome pyval * world :=
  let w1 := mkWorld (r :: sent w) (slept w) in
  match server (sent w1) with
  | Httpx.Response status_code json => (_handle_response status_code json, w1)
  | Httpx.TimeoutException =>
      (Raise (new_error TimeoutError (VStr "Request timed out") VNone VNone), w1)
  | Httpx.NetworkError msg =>
      (Raise (new_error NetworkError (VStr ("Network error: " ++ msg)) VNone VNone), w1)
  | Httpx.HTTPError msg =>
      (Raise (new_error NetworkError (VStr ("HTTP error: " ++ msg)) VNone VNone), w1)
  end.

(** [self._make_request(method, endpoint, data, params)]: the attempt is
    decorated with a bare [@retry_with_backoff], that is with the
    defaults [max_retries=3] and [base_delay=1.0]; [self._max_retries] is
    not read.  The model is of the decorated attempt: what runs before
    it is left out, namely [join_url] (where [urljoin] raises
    [ValueError] on a base URL it cannot parse), the query string, the
    encoding of the body and, with [debug] on, the print of
    [mask_sensitive_data(data)] (an [AttributeError] for a body that is
    not a dictionary). *)
Definition _make_request (self : atoshipSDK) (method endpoint : string)
    (data : option pyval) (params : option dict) (w : world)
  : outcome pyval * world :=
  retry_with_backoff (make_request (mkRequest method endpoint data params))
    3 1 w.

(** The response envelope is a [pydantic] model; its constructor is the
    library's. *)
Context {APIResponseT : Type}.
Variable APIResponse : pyval -> outcome APIResponseT.

Definition wrap (r : outcome pyval * world) : outcome APIResponseT * world :=
  (response_data <- fst r ;; APIResponse response_data, snd r).

(** [self.get_profile()] *)
Definition get_profile (self : atoshipSDK) (w : world)
  : outcome APIResponseT * world :=
  wrap (_make_request self "GET" "/api/profile" None None w).

(** The validation loop of [create_orders_batch], started at index [i]. *)
Fixpoint validate_orders (orders : list dict) (i : nat) : outcome unit :=
  match orders with
  | [] => Return tt
  | order_data :: rest =>
      validation_errors <- validate_order_data order_data ;;
      match validation_errors with
      | [] => validate_orders rest (S i)
      | _ =>
          Raise (new_error ValidationError
                   (VStr ("Order " ++ str_of_nat (i + 1) ++ " validation failed: "
                          ++ String.concat "; " validation_errors))
                   VNone VNone)
      end
  end.

(** [self.create_orders_batch(orders)] *)
Definition create_orders_batch (self : atoshipSDK) (orders : list dict)
    (w : world) : outcome APIResponseT * world :=
  if (List.length orders =? 0)%nat then
    (Raise (new_error ValidationError
              (VStr "At least one order is required for batch creation")
              VNone VNone), w)
  else if (100 <? List.length orders)%nat then
    (Raise (new_error ValidationError
              (VStr "Maximum 100 orders allowed per batch") VNone VNone), w)
  else
    match validate_orders orders 0 with
    | Raise e => (Raise e, w)
    | Return _ =>
        wrap (_make_request self "POST" "/api/orders/batch"
                (Some (VDict [("orders", VList (map VDict orders))])) None w)
    end.

(** [self.track_multiple(tracking_numbers)] *)
Definition track_multiple (self : atoshipSDK) (tracking_numbers : list string)
    (w : world) : outcome APIResponseT * world :=
  if (50 <? List.length tracking_numbers)%nat then
    (Raise (new_error ValidationError
              (VStr "Maximum 50 tracking numbers allowed per request")
              VNone VNone), w)
  else
    wrap (_make_request self "POST" "/api/tracking/batch"
            (Some (VDict [("trackingNumbers",
                           VList (map (fun tn => VStr (format_tracking_number tn))
                                      tracking_numbers))])) None w).

End Requests.

End Client.
Import Client.

(* ================================================================== *)
(** ** Models ([atoship/models.py]) *)

(** The models are [pydantic] classes: the source declares, per field, the
    attribute name, the wire name ([alias]), the annotation and the
    default.  Construction and [.dict(by_alias=...)] are the library's:
    construction reads each field from the input by its alias, or by its
    name when [populate_by_name] is set, validates the value against the
    annotation and stores it under the attribute name, taking the default
    for a field the input does not give; [.dict] lists every field in
    declaration order.  How a value is validated against an annotation
    (which conversions are made) is left to a [validate] function. *)
Module Models.

Inductive annotation : Type :=
| TStr
| TBool
| TDatetime
| TAddressType
| TOptional (t : annotation).

(** A declared field; [field_default] is [None] for a required field. *)
Record field : Type := mkField {
  field_name : string;
  field_alias : string;
  field_annotation : annotation;
  field_default : option pyval
}.

(** [class Address(BaseModel)] *)
Definition Address_fields : list field :=
  [ mkField "id" "id" (TOptional TStr) (Some VNone);
    mkField "type" "type" TAddressType None;
    mkField "name" "name" TStr None;
    mkField "company" "company" (TOptional TStr) (Some VNone);
    mkField "street1" "street1" TStr None;
    mkField "street2" "street2" (TOptional TStr) (Some VNone);
    mkField "city" "city" TStr None;
    mkField "state" "state" TStr None;
    mkField "postal_code" "postalCode" TStr None;
    mkField "country" "country" TStr None;
    mkField "phone" "phone" (TOptional TStr) (Some VNone);
    mkField "email" "email" (TOptional TStr) (Some VNone);
    mkField "is_default" "isDefault" (TOptional TBool) (Some (VBool false));
    mkField "is_validated" "isValidated" (TOptional TBool) (Some (VBool false));
    mkField "created_at" "createdAt" (TOptional TDatetime) (Some VNone);
    mkField "updated_at" "updatedAt" (TOptional TDatetime) (Some VNone) ].

(** [Address.Config.populate_by_name] *)
Definition Address_populate_by_name : bool := true.

(** The value is of the annotated type; with [use_enum_values] an
    [AddressType] is stored as its string. *)
Fixpoint has_type (a : annotation) (v : pyval) : bool :=
  match a, v with
  | TStr, VStr _ => true
  | TBool, VBool _ => true
  | TDatetime, VDatetime _ => true
  | TAddressType, VStr s => String.eqb s "SHIPPING" || String.eqb s "BILLING"
  | TOptional _, VNone => true
  | TOptional t, _ => has_type t v
  | _, _ => false
  end.

(** The validation that converts nothing: a value passes as it is when it
    is of the annotated type, and fails otherwise. *)
Definition typed_validator (a : annotation) (v : pyval) : option pyval :=
  if has_type a v then Some v else None.

Section Pydantic.

(** Validation of an input value against an annotation: the value that
    is stored, or a failure. *)
Variable validate : annotation -> pyval -> option pyval.

(** The input value of a field. *)
Definition field_input (populate_by_name : bool) (f : field) (data : dict)
  : option pyval :=
  match lookup (field_alias f) data with
  | Some v => Some v
  | None => if populate_by_name then lookup (field_name f) data else None
  end.

(** The value stored for a field. *)
Definition field_value (populate_by_name : bool) (f : field) (data : dict)
  : outcome pyval :=
  match field_input populate_by_name f data with
  | Some v =>
      match validate (field_annotation f) v with
      | Some stored => Return stored
      | None => Raise (builtin PydanticValidationError)
      end
  | None =>
      match field_default f with
      | Some default => Return default
      | None => Raise (builtin PydanticValidationError)
      end
  end.

(** The constructor call [Model] on the entries of [data] as keyword
    arguments: the attributes of the instance, by name. *)
Fixpoint model_init (populate_by_name : bool) (fields : list field)
    (data : dict) : outcome dict :=
  match fields with
  | [] => Return []
  | f :: rest =>
      value <- field_value populate_by_name f data ;;
      others <- model_init populate_by_name rest data ;;
      Return ((field_name f, value) :: others)
  end.

(** [self.dict(by_alias=by_alias)] *)
Definition model_dict (by_alias : bool) (fields : list field) (self : dict)
  : dict :=
  map (fun f =>
         (if by_alias then field_alias f else field_name f,
          get self (field_name f) VNone))
      fields.

(** The constructor [Address] on the entries of [data]. *)
Definition Address (data : dict) : outcome dict :=
  model_init Address_populate_by_name Address_fields data.

(** [address.dict(by_alias=by_alias)] *)
Definition Address_dict (by_alias : bool) (self : dict) : dict :=
  model_dict by_alias Address_fields self.

(** An [Address] built from [data], then [.dict(by_alias=True)]. *)
Definition Address_roundtrip (data : dict) : outcome dict :=
  self <- Address data ;; Return (Address_dict true self).

End Pydantic.

End Models.
Import Models.

(* ================================================================== *)
(** ** More of [atoship/utils.py]: addresses and query parameters *)

Module Utils.

(** [d[key] = value]: an existing entry keeps its place, a new one goes
    to the end. *)
Fixpoint set_item (key : string) (value : pyval) (d : dict) : dict :=
  match d with
  | [] => [(key, value)]
  | (k, v) :: rest =>
      if String.eqb k key then (k, value) :: rest
      else (k, v) :: set_item key value rest
  end.

(** A call of a [str] method on a value: [AttributeError] when the value
    is not a string. *)
Definition str_method (f : string -> string) (v : pyval) : outcome pyval :=
  match v with
  | VStr s => Return (VStr (f s))
  | _ => Raise (builtin AttributeError)
  end.

(** [value.strip().upper()] *)
Definition strip_upper (s : string) : string := upper (strip s).

Definition string_fields : list string :=
  ["name"; "company"; "street1"; "street2"; "city"; "phone"; "email"].

(** The loop over [string_fields] of [normalize_address]:
    [if field in normalized and normalized[field]:
       normalized[field] = normalized[field].strip()]. *)
Fixpoint trim_fields (fields : list string) (normalized : dict)
  : outcome dict :=
  match fields with
  | [] => Return normalized
  | field :: rest =>
      match lookup field normalized with
      | Some v =>
          if truthy v then
            trimmed <- str_method strip v ;;
            trim_fields rest (set_item field trimmed normalized)
          else trim_fields rest normalized
      | None => trim_fields rest normalized
      end
  end.

(** [normalize_address(address)] *)
Definition normalize_address (address : dict) : outcome dict :=
  let normalized := address in
  normalized <-
    (if contains "postalCode" normalized && contains "country" normalized
     then
       v <- str_method strip_upper (get normalized "postalCode" VNone) ;;
       Return (set_item "postalCode" v normalized)
     else Return normalized) ;;
  normalized <-
    (if contains "country" normalized
     then
       v <- str_method strip_upper (get normalized "country" VNone) ;;
       Return (set_item "country" v normalized)
     else Return normalized) ;;
  normalized <-
    (if contains "state" normalized
     then
       v <- str_method strip_upper (get normalized "state" VNone) ;;
       Return (set_item "state" v normalized)
     else Return normalized) ;;
  trim_fields string_fields normalized.

(** [str(z)] for an integer. *)
Definition str_of_Z (z : Z) : string := NilZero.string_of_int (Z.to_int z).

Section Str.

(** The text Python gives for the values whose [str] is not modelled:
    floats, containers and datetimes. *)
Variable repr : pyval -> string.

(** [str(v)] *)
Definition py_str (v : pyval) : string :=
  match v with
  | VStr s => s
  | VInt z => str_of_Z z
  | VBool b => if b then "True" else "False"
  | VNone => "None"
  | _ => repr v
  end.

(** One iteration of the loop of [build_query_params]: the entry added
    for [key], if any. *)
Definition query_param (key : string) (value : pyval)
  : list (string * string) :=
  match value with
  | VNone => []
  | VBool b => [(key, if b then "true" else "false")]
  | VList l => [(key, String.concat "," (map py_str l))]
  | _ => [(key, py_str value)]
  end.

(** [build_query_params(params)]; the keys of [params] are distinct, so
    each assignment adds an entry. *)
Definition build_query_params (params : dict) : list (string * string) :=
  flat_map (fun entry : string * pyval => query_param (fst entry) (snd entry))
           params.

End Str.

End Utils.
Import Utils.

(* ================================================================== *)
(** ** More of [atoship/client.py]: the facades that validate first *)

Module Facades.

Section Facades.

Variable server : list request -> Httpx.result.
Context {APIResponseT : Type}.
Variable APIResponse : pyval -> outcome APIResponseT.

(** [str(e)] for the validation error [pydantic] raises on [data]. *)
Variable pydantic_text : dict -> string.

(** [self._validate_and_convert(data, model_class)], where [model] is
    [model_class] applied to the entries of [data] followed by
    [.dict(by_alias=True)]: only the [ValidationError] of [pydantic] is
    caught and re-raised as the SDK's. *)
Definition _validate_and_convert (model : dict -> outcome dict) (data : dict)
  : outcome dict :=
  match model data with
  | Return converted => Return converted
  | Raise e =>
      if exc_class_eqb (cls e) PydanticValidationError
      then Raise (new_error ValidationError
                    (VStr ("Validation error: " ++ pydantic_text data))
                    VNone VNone)
      else Raise e
  end.

(** The request and the envelope that end every facade. *)
Definition send (self : atoshipSDK) (method endpoint : string)
    (data : option pyval) (params : option dict) (w : world)
  : outcome APIResponseT * world :=
  let r := _make_request server self method endpoint data params w in
  (response_data <- fst r ;; APIResponse response_data, snd r).

(** [self.create_order(order_data)]; [CreateOrderRequest] is the model
    class applied to the order followed by [.dict(by_alias=True)]. *)
Definition create_order (CreateOrderRequest : dict -> outcome dict)
    (self : atoshipSDK) (order_data : dict) (w : world)
  : outcome APIResponseT * world :=
  match validate_order_data order_data with
  | Raise e => (Raise e, w)
  | Return (first :: others) =>
      (Raise (new_error ValidationError
                (VStr ("Order validation failed: "
                       ++ String.concat "; " (first :: others)))
                VNone VNone), w)
  | Return [] =>
      match _validate_and_convert CreateOrderRequest order_data with
      | Raise e => (Raise e, w)
      | Return validated_data =>
          send self "POST" "/api/orders" (Some (VDict validated_data)) None w
      end
  end.

(** Validation of a field value by [pydantic]. *)
Variable validate : annotation -> pyval -> option pyval.

(** [self.validate_address(address_data)] *)
Definition validate_address (self : atoshipSDK) (address_data : dict)
    (w : world) : outcome APIResponseT * world :=
  match _validate_and_convert (Address_roundtrip validate) address_data with
  | Raise e => (Raise e, w)
  | Return validated_data =>
      send self "POST" "/api/addresses/validate"
        (Some (VDict validated_data)) None w
  end.

(** [self.save_address(address_data)] *)
Definition save_address (self : atoshipSDK) (address_data : dict)
    (w : world) : outcome APIResponseT * world :=
  match _validate_and_convert (Address_roundtrip validate) address_data with
  | Raise e => (Raise e, w)
  | Return validated_data =>
      send self "POST" "/api/addresses" (Some (VDict validated_data)) None w
  end.

(** [self.track_package(tracking_number, carrier)]; [carrier] is [None]
    or a string, and is sent when it is truthy. *)
Definition track_package (self : atoshipSDK) (tracking_number : string)
    (carrier : option string) (w : world) : outcome APIResponseT * world :=
  let formatted_tracking := format_tracking_number tracking_number in
  let params :=
    match carrier with
    | Some c => if truthy (VStr c) then [("carrier", VStr c)] else []
    | None => []
    end in
  send self "GET" ("/api/tracking/" ++ formatted_tracking) None (Some params) w.

End Facades.

End Facades.
Import Facades.

(* ================================================================== *)
(** ** A validator of [atoship/models.py] *)

(** [class Webhook(BaseModel)]: the validator of the field [url].  The
    library calls it with the value already converted to [str]; raising
    [ValueError] is the right injection, with its message. *)
Module Webhook.

(** [\w] *)
Definition is_word (c : ascii) : bool :=
  is_upper c || is_lower c || is_digit c || Ascii.eqb c "_"%char.

(** [[-\w.]] *)
Definition host_char (c : ascii) : bool :=
  Ascii.eqb c "-"%char || is_word c || Ascii.eqb c "."%char.

(** [[:\d]] *)
Definition port_char (c : ascii) : bool :=
  Ascii.eqb c ":"%char || is_digit c.

(** [[\w/_.]] *)
Definition path_char (c : ascii) : bool :=
  is_word c || Ascii.eqb c "/"%char || Ascii.eqb c "_"%char
  || Ascii.eqb c "."%char.

(** [[\w&=%.]] *)
Definition query_char (c : ascii) : bool :=
  is_word c || Ascii.eqb c "&"%char || Ascii.eqb c "="%char
  || Ascii.eqb c "%"%char || Ascii.eqb c "."%char.

(** The pattern of a fixed text. *)
Fixpoint literal (text : string) : regex :=
  match text with
  | EmptyString => Eps
  | String c rest => Cat (lit c) (literal rest)
  end.

(** The last group of the pattern: a slash, path characters, then an
    optional question mark with query characters and an optional hash
    sign with word characters. *)
Definition url_tail : regex :=
  Cat (lit "/"%char)
  (Cat (Star (Class path_char))
  (Cat (opt (Cat (lit "?"%char) (Star (Class query_char))))
       (opt (Cat (lit "#"%char) (Star (Class is_word)))))).

(** The pattern of [validate_url]: [http], an optional [s], [://], one
    or more host characters, optionally one or more port characters,
    and the optional last group. *)
Definition url_pattern : regex :=
  Cat (literal "http")
  (Cat (opt (lit "s"%char))
  (Cat (literal "://")
  (Cat (plus (Class host_char))
  (Cat (opt (plus (Class port_char)))
       (opt url_tail))))).

(** [Webhook.validate_url(cls, v)] *)
Definition validate_url (v : string) : string + string :=
  if negb (re_match url_pattern v) then inr "Invalid URL format"
  else inl v.

End Webhook.

(* ================================================================== *)
(** * Properties *)

(** ** The error taxonomy *)

Module TaxonomyFacts.

(** The attributes an error built from [response_data] carries. *)
Definition body_message (response_data : dict) : pyval :=
  get response_data "error" (VStr "Unknown error").
Definition body_code (response_data : dict) : pyval :=
  get response_data "code" VNone.
Definition body_details (response_data : dict) : pyval :=
  get response_data "details" (VDict []).

(** [create_error_from_response] returns an error of class [c] whose
    message, code and details come from the body. *)
Definition maps_to (status_code : Z) (response_data : dict) (c : exc_class)
  : Prop :=
  exists e,
    create_error_from_response status_code response_data = Return e /\
    cls e = c /\
    message e = body_message response_data /\
    code e = body_code response_data /\
    details e = por (body_details response_data) (VDict []).

(** The statuses the taxonomy of the specification names. *)
Definition covered (status_code : Z) : Prop :=
  status_code = 401 \/ status_code = 403 \/ status_code = 404 \/
  status_code = 429 \/ 500 <= status_code <= 599.

Lemma new_error_maps_to status_code response_data c :
  create_error_from_response status_code response_data =
    Return (new_error c (body_message response_data)
              (body_code response_data) (body_details response_data)) ->
  maps_to status_code response_data c.
Proof.
  intros H. eexists. split; [exact H|]. cbn. repeat split.
Qed.

Ltac status_cases status_code :=
  unfold create_error_from_response;
  repeat match goal with
  | |- context [Z.eqb status_code ?k] =>
      let E := fresh "E" in
      destruct (Z.eqb_spec status_code k) as [E|E]; try lia
  end.

(** An error built from a response is retriable exactly for a 5xx status. *)
Lemma create_error_retriable status_code response_data e :
  create_error_from_response status_code response_data = Return e ->
  (is_retriable_error e = true <-> 500 <= status_code <= 599).
Proof.
  status_cases status_code;
    try (intros [= <-]; cbn; split; [discriminate|lia]).
  - unfold new_RateLimitError.
    destruct (truthy _); [destruct (get response_data "details" _)|];
      intros [= <-]; cbn; split; try discriminate; lia.
  - destruct (Z.leb_spec 500 status_code); cbn [andb];
      [destruct (Z.ltb_spec status_code 600)|];
      intros [= <-]; cbn; split; try discriminate; try lia; reflexivity.
Qed.

(** The only exception the mapping itself can raise. *)
Lemma create_error_raises status_code response_data e :
  create_error_from_response status_code response_data = Raise e ->
  e = builtin AttributeError /\ status_code = 429.
Proof.
  status_cases status_code; try discriminate.
  - unfold new_RateLimitError.
    destruct (truthy _); [destruct (get response_data "details" _)|];
      try discriminate; intros [= <-]; (split; [reflexivity|assumption]).
  - destruct (_ && _); discriminate.
Qed.

(** Only status 400 gives a [ValidationError]. *)
Lemma create_error_ValidationError status_code response_data e :
  create_error_from_response status_code response_data = Return e ->
  cls e = ValidationError -> status_code = 400.
Proof.
  status_cases status_code; try (intros [= <-]; discriminate).
  - unfold new_RateLimitError.
    destruct (truthy _); [destruct (get response_data "details" _)|];
      intros [= <-]; discriminate.
  - destruct (_ && _); intros [= <-]; discriminate.
Qed.

End TaxonomyFacts.
Import TaxonomyFacts.

(** C1, evaluated where it fails.  For every response body,
    [create_error_from_response] returns an [AuthenticationError] for
    status 401, an [AuthorizationError] for 403, a [NotFoundError] for 404
    and a [ServerError] for every status in 500-599, each with message,
    code and details read from the body's 'error', 'code' and 'details'
    fields.  For status 429 it returns a [RateLimitError] with those
    attributes whenever the body's 'details' is absent, falsy or a
    dictionary, and then [retry_after] is the dictionary's 'retryAfter'
    entry ([None] without one).  But when 'details' is a truthy value
    that is not a dictionary, status 429 returns no error at all: the
    constructor of [RateLimitError] calls [details.get] and raises
    [AttributeError], where every other status returns its error for the
    same body. *)
Theorem create_error_from_response_taxonomy :
  forall (status_code : Z) (response_data : dict),
    (status_code = 401 -> maps_to status_code response_data AuthenticationError) /\
    (status_code = 403 -> maps_to status_code response_data AuthorizationError) /\
    (status_code = 404 -> maps_to status_code response_data NotFoundError) /\
    (500 <= status_code <= 599 -> maps_to status_code response_data ServerError) /\
    (status_code = 429 ->
       truthy (body_details response_data) = false \/
       is_dict (body_details response_data) = true ->
       maps_to status_code response_data RateLimitError /\
       forall e, create_error_from_response status_code response_data = Return e ->
         retry_after e =
           Some match body_details response_data with
                | VDict dd => get dd "retryAfter" VNone
                | _ => VNone
                end) /\
    (status_code = 429 ->
       truthy (body_details response_data) = true ->
       is_dict (body_details response_data) = false ->
       create_error_from_response status_code response_data =
         Raise (builtin AttributeError)).
Proof.
  intros status_code response_data.
  repeat split.
  - intros ->. apply new_error_maps_to. reflexivity.
  - intros ->. apply new_error_maps_to. reflexivity.
  - intros ->. apply new_error_maps_to. reflexivity.
  - intros H. apply new_error_maps_to. status_cases status_code.
    replace (500 <=? status_code) with true by lia.
    replace (status_code <? 600) with true by lia. reflexivity.
  - subst status_code. unfold maps_to. cbn.
    fold (body_message response_data) (body_code response_data)
         (body_details response_data).
    unfold new_RateLimitError.
    destruct H0 as [Hf|Hd].
    + rewrite Hf. eexists; repeat split.
    + destruct (body_details response_data) eqn:Ed; try discriminate.
      destruct (truthy (VDict d)); eexists; repeat split.
  - subst status_code. cbn.
    fold (body_message response_data) (body_code response_data)
         (body_details response_data).
    unfold new_RateLimitError. intros e.
    destruct H0 as [Hf|Hd].
    + rewrite Hf. intros [= <-]. cbn.
      destruct (body_details response_data) as [| | | | | | |dd]; try reflexivity.
      destruct dd; [reflexivity|discriminate].
    + destruct (body_details response_data) as [| | | | | | |dd]; try discriminate.
      destruct dd as [|p dd]; cbn; intros [= <-]; reflexivity.
  - intros -> Ht Hd. cbn.
    fold (body_message response_data) (body_code response_data)
         (body_details response_data).
    unfold new_RateLimitError. rewrite Ht.
    destruct (body_details response_data); try reflexivity. discriminate.
Qed.

(** The body of the rate-limit test: [{"error": ..., "code": ...,
    "details": {"retryAfter": 60}}]. *)
Definition rate_limit_body : dict :=
  [("error", VStr "Rate limit exceeded");
   ("code", VStr "RATE_LIMIT_EXCEEDED");
   ("details", VDict [("retryAfter", VInt 60)])].

Lemma create_error_from_response_taxonomy_witness :
  maps_to 401 [] AuthenticationError /\
  maps_to 404 [] NotFoundError /\
  maps_to 503 rate_limit_body ServerError /\
  (maps_to 429 rate_limit_body RateLimitError /\
   forall e, create_error_from_response 429 rate_limit_body = Return e ->
     retry_after e = Some (VInt 60)) /\
  maps_to 503 [("details", VStr "slow down")] ServerError /\
  create_error_from_response 429 [("details", VStr "slow down")]
    = Raise (builtin AttributeError).
Proof.
  split; [|split; [|split; [|split; [|split]]]].
  - apply (create_error_from_response_taxonomy 401 []). reflexivity.
  - apply (create_error_from_response_taxonomy 404 []). reflexivity.
  - apply (create_error_from_response_taxonomy 503 rate_limit_body). lia.
  - apply (create_error_from_response_taxonomy 429 rate_limit_body).
    + reflexivity.
    + right. reflexivity.
  - apply (create_error_from_response_taxonomy 503
             [("details", VStr "slow down")]). lia.
  - apply (create_error_from_response_taxonomy 429
             [("details", VStr "slow down")]); reflexivity.
Defined.

(** The failing input of C1: with status 429 and a body whose 'details'
    is a non-empty string, no [RateLimitError] is returned. *)
Lemma rate_limit_details_not_a_dict :
  ~ maps_to 429 [("details", VStr "slow down")] RateLimitError.
Proof.
  intros [e [H _]]. discriminate H.
Qed.

(* ================================================================== *)
(** ** Retry *)

Module RetryFacts.

(** The delays [time.sleep] accepts on every platform: not negative
    (else [ValueError]) and at most 4294967 seconds, the longest sleep
    where the delay is counted in 32-bit milliseconds (else
    [OverflowError]). *)
Definition sleep_accepts (delay : Z) : Prop := 0 <= delay <= 4294967.

Section Wrapper.

Context {A : Type}.
Variable func : world -> outcome A * world.
Variable max_retries base_delay : Z.

(** [k] calls of [func] in a row, the first one numbered [attempt] and
    made in the world [w], each failing with a retriable error and
    followed by the sleep of its number, lead to the world [w']. *)
Fixpoint retried (k : nat) (attempt : Z) (w w' : world) : Prop :=
  match k with
  | O => w' = w
  | S k' =>
      exists e w1,
        func w = (Raise e, w1) /\
        is_retriable_error e = true /\
        retried k' (attempt + 1) (sleep (base_delay * 2 ^ attempt) w1) w'
  end.

(** The attempts of the loop from number [attempt] on. *)
Definition attempts_from (attempt : Z) : list Z :=
  map (Z.add attempt) (range (max_retries - attempt + 1)).

Lemma range_succ (n : Z) :
  0 <= n -> range (n + 1) = 0 :: map (Z.add 1) (range n).
Proof.
  intros Hn. unfold range.
  replace (Z.to_nat (n + 1)) with (S (Z.to_nat n)) by lia.
  cbn [seq map]. f_equal.
  rewrite <- seq_shift, !map_map.
  apply map_ext. intros k. lia.
Qed.

(** A first attempt that succeeds is the result. *)
Lemma retry_first_success w v w1 :
  0 <= max_retries ->
  func w = (Return v, w1) ->
  retry_with_backoff func max_retries base_delay w = (Return v, w1).
Proof.
  intros Hn Hf. unfold retry_with_backoff.
  rewrite range_succ by exact Hn. cbn [retry_loop]. rewrite Hf. reflexivity.
Qed.

(** A first attempt that fails with an error that is not retriable is
    re-raised at once: [func] has run once and nothing was slept. *)
Lemma retry_not_retriable w e w1 :
  0 <= max_retries ->
  func w = (Raise e, w1) ->
  is_retriable_error e = false ->
  retry_with_backoff func max_retries base_delay w = (Raise e, w1).
Proof.
  intros Hn Hf He. unfold retry_with_backoff.
  rewrite range_succ by exact Hn. cbn [retry_loop]. rewrite Hf, He.
  destruct (0 =? max_retries); reflexivity.
Qed.

Lemma attempts_from_zero : range (max_retries + 1) = attempts_from 0.
Proof.
  unfold attempts_from. rewrite Z.sub_0_r.
  rewrite <- (map_id (range (max_retries + 1))) at 1.
  apply map_ext. intros a. reflexivity.
Qed.

Lemma attempts_from_cons attempt :
  attempt <= max_retries ->
  attempts_from attempt = attempt :: attempts_from (attempt + 1).
Proof.
  intros H. unfold attempts_from.
  rewrite range_succ by lia. cbn [map]. rewrite map_map.
  replace (max_retries - (attempt + 1) + 1) with (max_retries - attempt) by lia.
  f_equal; [lia|]. apply map_ext. intros a. lia.
Qed.

(** After [k] retriable failures the loop stands before its attempt
    number [attempt + k], in the world they led to. *)
Lemma retry_loop_retried k :
  forall attempt w w' last,
    attempt + Z.of_nat k <= max_retries ->
    retried k attempt w w' ->
    exists last',
      retry_loop func max_retries base_delay (attempts_from attempt) last w =
      retry_loop func max_retries base_delay
        (attempts_from (attempt + Z.of_nat k)) last' w'.
Proof.
  induction k as [|k IH]; intros attempt w w' last Hle Hr.
  - cbn in Hr. subst w'. exists last. rewrite Z.add_0_r. reflexivity.
  - cbn [retried] in Hr. destruct Hr as (e & w1 & Hf & He & Hr).
    rewrite attempts_from_cons by lia. cbn [retry_loop]. rewrite Hf, He.
    destruct (Z.eqb_spec attempt max_retries) as [E|_]; [lia|]. cbn [negb].
    destruct (IH (attempt + 1) _ w' (Some e) ltac:(lia) Hr) as [last' ->].
    exists last'.
    replace (attempt + Z.of_nat (S k)) with (attempt + 1 + Z.of_nat k) by lia.
    reflexivity.
Qed.

(** The call that follows [k] retriable failures decides the result when
    it returns, when its error is not retriable, or when it is the last
    attempt allowed: the result and the world are those of that call. *)
Lemma retry_after_retried (k : nat) w wk res w1 :
  Z.of_nat k <= max_retries ->
  retried k 0 w wk ->
  func wk = (res, w1) ->
  (forall e, res = Raise e ->
     is_retriable_error e = false \/ Z.of_nat k = max_retries) ->
  retry_with_backoff func max_retries base_delay w = (res, w1).
Proof.
  intros Hk Hr Hf Hres. unfold retry_with_backoff.
  rewrite attempts_from_zero.
  destruct (retry_loop_retried k 0 w wk None ltac:(lia) Hr) as [last' ->].
  rewrite attempts_from_cons by lia. cbn [retry_loop]. rewrite Hf.
  destruct res as [v|e]; [reflexivity|].
  destruct (Hres e eq_refl) as [He|Hlast].
  - rewrite He. destruct (_ =? _); reflexivity.
  - replace (0 + Z.of_nat k =? max_retries) with true; [reflexivity|].
    symmetry. apply Z.eqb_eq. lia.
Qed.

End Wrapper.

Lemma is_retriable_error_classes (e : exc) :
  is_retriable_error e = true <->
  cls e = NetworkError \/ cls e = TimeoutError \/ cls e = ServerError.
Proof.
  unfold is_retriable_error, isinstance.
  destruct (cls e); cbn; split; intros H; try discriminate; auto;
    destruct H as [H|[H|H]]; discriminate.
Qed.

(** Which outcomes of the transport make an attempt fail with a
    retriable error: every [httpx] exception, and an answer with a 5xx
    status whose body is a JSON object or is not JSON. *)
Lemma make_request_retriable server r w e w1 :
  make_request server r w = (Raise e, w1) ->
  (is_retriable_error e = true <->
   match server (r :: sent w) with
   | Httpx.Response status_code json =>
       500 <= status_code <= 599 /\
       forall v, json = Some v -> is_dict v = true
   | _ => True
   end).
Proof.
  unfold make_request. cbn [sent].
  destruct (server (r :: sent w)) as [status_code json| | |];
    try (intros [= <- _]; cbn; tauto).
  unfold _handle_response.
  destruct (Httpx.is_success status_code); [discriminate|].
  destruct json as [v|].
  - destruct v;
      try (intros [= <- _]; cbn; split; [discriminate|];
           intros [_ H]; specialize (H _ eq_refl); discriminate H).
    destruct (create_error_from_response status_code d) as [err|err] eqn:E;
      cbn [bind]; intros [= <- _].
    + rewrite (create_error_retriable _ _ _ E). split.
      * intros H. split; [exact H|]. intros v [= <-]. reflexivity.
      * tauto.
    + destruct (create_error_raises _ _ _ E) as [-> ->]. cbn.
      split; [discriminate|lia].
  - destruct (create_error_from_response status_code _) as [err|err] eqn:E;
      cbn [bind]; intros [= <- _].
    + rewrite (create_error_retriable _ _ _ E). split.
      * intros H. split; [exact H|]. discriminate.
      * tauto.
    + destruct (create_error_raises _ _ _ E) as [-> ->]. cbn.
      split; [discriminate|lia].
Qed.

End RetryFacts.
Import RetryFacts.

(** C3 as stated fails: the error built from an HTTP 429 response is a
    [RateLimitError], and [is_retriable_error] answers [False] for it. *)
Lemma rate_limit_error_is_not_retriable :
  exists e,
    create_error_from_response 429 rate_limit_body = Return e /\
    cls e = RateLimitError /\
    is_retriable_error e = false.
Proof.
  eexists. repeat split.
Qed.

(** C3, as the code has it.  An error is retriable exactly when it is a
    [NetworkError], a [TimeoutError] or a [ServerError] (HTTP 5xx); a
    [RateLimitError] (HTTP 429) is not.  An attempt of the client fails
    with a retriable error exactly when the transport raised (timeout,
    network or other HTTP error) or answered with a 5xx status and a body
    that is a JSON object or not JSON.  In the retry wrapper a first
    attempt that fails with an error that is not retriable is re-raised
    at once.  More generally, after any number [k <= max_retries] of
    attempts that failed with retriable errors, each followed by its
    sleep of [base_delay * 2 ^ attempt] seconds (delays [time.sleep]
    accepts), the wrapper makes the next attempt, and that attempt
    decides: its value is returned; its error, when it is not retriable,
    is re-raised at once, with no further attempt and no sleep; and so is
    any error of the last attempt allowed. *)
Theorem retriable_exactly_network_timeout_server :
  (forall e : exc,
     is_retriable_error e = true <->
     cls e = NetworkError \/ cls e = TimeoutError \/ cls e = ServerError) /\
  (forall server r w e w1,
     make_request server r w = (Raise e, w1) ->
     (is_retriable_error e = true <->
      match server (r :: sent w) with
      | Httpx.Response status_code json =>
          500 <= status_code <= 599 /\
          forall v, json = Some v -> is_dict v = true
      | _ => True
      end)) /\
  (forall (A : Type) (func : world -> outcome A * world)
          (max_retries base_delay : Z) (w w1 : world) (e : exc),
     0 <= max_retries ->
     func w = (Raise e, w1) ->
     is_retriable_error e = false ->
     retry_with_backoff func max_retries base_delay w = (Raise e, w1)) /\
  (forall (A : Type) (func : world -> outcome A * world)
          (max_retries base_delay : Z) (k : nat) (w wk : world),
     Z.of_nat k <= max_retries ->
     (forall attempt, 0 <= attempt < Z.of_nat k ->
        sleep_accepts (base_delay * 2 ^ attempt)) ->
     retried func base_delay k 0 w wk ->
     (forall v w1,
        func wk = (Return v, w1) ->
        retry_with_backoff func max_retries base_delay w = (Return v, w1)) /\
     (forall e w1,
        func wk = (Raise e, w1) ->
        is_retriable_error e = false ->
        retry_with_backoff func max_retries base_delay w = (Raise e, w1)) /\
     (forall e w1,
        func wk = (Raise e, w1) ->
        Z.of_nat k = max_retries ->
        retry_with_backoff func max_retries base_delay w = (Raise e, w1))).
Proof.
  split; [|split; [|split]].
  - exact is_retriable_error_classes.
  - exact make_request_retriable.
  - intros. eapply retry_not_retriable; eassumption.
  - intros A func max_retries base_delay k w wk Hk _ Hr.
    split; [|split].
    + intros v w1 Hf.
      apply (retry_after_retried func max_retries base_delay k w wk _ _ Hk Hr Hf).
      intros e [=].
    + intros e w1 Hf He.
      apply (retry_after_retried func max_retries base_delay k w wk _ _ Hk Hr Hf).
      intros e' [= <-]. left. exact He.
    + intros e w1 Hf Hlast.
      apply (retry_after_retried func max_retries base_delay k w wk _ _ Hk Hr Hf).
      intros e' _. right. exact Hlast.
Qed.

(* ================================================================== *)
(** ** The transport layer *)

Module ClientFacts.

(** A server that gives the same outcome to every request. *)
Definition always (r : Httpx.result) : list request -> Httpx.result :=
  fun _ => r.

(** A server that answers 503 to the first [n] requests and 200 with
    [body] afterwards. *)
Definition fails_then_succeeds (n : nat) (body : pyval)
  : list request -> Httpx.result :=
  fun history =>
    if (List.length history <=? n)%nat
    then Httpx.Response 503 None
    else Httpx.Response 200 (Some body).

Definition profile_request : request :=
  mkRequest "GET" "/api/profile" None None.

(** [atoshipSDK(api_key="key", max_retries=n)] *)
Definition sdk_with_max_retries (n : Z) : outcome atoshipSDK :=
  new_atoshipSDK (VStr "key") default_base_url default_timeout n false.

Section Trace.

Context {A : Type}.
Variable func : world -> outcome A * world.
Variable max_retries base_delay : Z.

(** [func] hands one request to the transport and does not sleep. *)
Hypothesis func_effect :
  forall w res w1, func w = (res, w1) ->
    slept w1 = slept w /\ List.length (sent w1) = S (List.length (sent w)).

Definition delay (attempt : Z) : Z := base_delay * 2 ^ attempt.

(** What a run of the retry loop leaves behind: the delays of the first
    [k] attempts, none of which is the last allowed one, and between [k]
    and [length attempts] requests. *)
Lemma retry_loop_trace attempts :
  forall last w res w1,
    retry_loop func max_retries base_delay attempts last w = (res, w1) ->
    exists k : nat,
      (k <= List.length attempts)%nat /\
      ~ In max_retries (firstn k attempts) /\
      slept w1 = (rev (map delay (firstn k attempts)) ++ slept w)%list /\
      (List.length (sent w) + k <= List.length (sent w1))%nat /\
      (List.length (sent w1) <= List.length (sent w) + List.length attempts)%nat.
Proof.
  induction attempts as [|attempt rest IH]; intros last w res w1; cbn [retry_loop].
  - intros [= <- <-]. exists 0%nat. cbn. repeat split; auto; lia.
  - destruct (func w) as [[v|e] w0] eqn:Hf;
      destruct (func_effect _ _ _ Hf) as [Hs Hl].
    + intros [= <- <-]. exists 0%nat. cbn. repeat split; auto; lia.
    + destruct (Z.eqb_spec attempt max_retries) as [Ha|Ha].
      { intros [= <- <-]. exists 0%nat. cbn. repeat split; auto; lia. }
      destruct (is_retriable_error e); cbn [negb].
      * intros Hr. apply IH in Hr.
        destruct Hr as (k & Hk & Hnot & Hslept & Hlo & Hhi).
        exists (S k). cbn [firstn map rev List.length sleep sent slept] in *.
        repeat split; try lia.
        -- intros [H|H]; [congruence|contradiction].
        -- rewrite Hslept, Hs, <- app_assoc. reflexivity.
      * intros [= <- <-]. exists 0%nat. cbn. repeat split; auto; lia.
Qed.

(** An error raised by the retry loop is the error of the last call of
    [func]: no request was sent after it. *)
Lemma retry_loop_last_error attempts :
  forall last w e w1,
    (forall e', last = Some e' ->
       exists w0 w', func w0 = (Raise e', w') /\
                     List.length (sent w') = List.length (sent w)) ->
    retry_loop func max_retries base_delay attempts last w = (Raise e, w1) ->
    (last = None /\ attempts = []) \/
    exists w0 w', func w0 = (Raise e, w') /\
                  List.length (sent w') = List.length (sent w1).
Proof.
  induction attempts as [|attempt rest IH]; intros last w e w1 Hlast;
    cbn [retry_loop].
  - destruct last as [e0|]; cbn [raise_last].
    + intros [= <- <-]. right. apply Hlast. reflexivity.
    + intros _. left. split; reflexivity.
  - destruct (func w) as [[v|e0] w0] eqn:Hf; [discriminate|].
    destruct (attempt =? max_retries).
    { intros [= <- <-]. right. exists w, w0. split; [exact Hf|reflexivity]. }
    destruct (is_retriable_error e0); cbn [negb].
    + intros Hr. apply IH in Hr.
      * destruct Hr as [[Hn _]|Hr]; [discriminate Hn|right; exact Hr].
      * intros e' [= <-]. exists w, w0. split; [exact Hf|reflexivity].
    + intros [= <- <-]. right. exists w, w0. split; [exact Hf|reflexivity].
Qed.

End Trace.

Section Server.

Variable server : list request -> Httpx.result.

Lemma make_request_effect r w res w1 :
  make_request server r w = (res, w1) ->
  slept w1 = slept w /\ List.length (sent w1) = S (List.length (sent w)).
Proof.
  unfold make_request. cbn [sent slept].
  destruct (server _); intros [= <- <-]; cbn; auto.
Qed.

(** Whatever the client was configured with, [_make_request] retries at
    most three times, sleeping 1, 2 and 4 seconds, and sends at most
    four requests. *)
Lemma _make_request_trace self method endpoint data params w res w1 :
  _make_request server self method endpoint data params w = (res, w1) ->
  exists k : nat,
    (k <= 3)%nat /\
    slept w1 = (rev (firstn k [1; 2; 4]) ++ slept w)%list /\
    (List.length (sent w1) <= List.length (sent w) + 4)%nat.
Proof.
  unfold _make_request, retry_with_backoff. intros H.
  apply (retry_loop_trace _ _ _ (make_request_effect _)) in H.
  destruct H as (k & Hk & Hnot & Hslept & _ & Hhi).
  change (range (3 + 1)) with [0; 1; 2; 3] in *.
  cbn [List.length] in *.
  assert (k <= 3)%nat as Hk3.
  { destruct k as [|[|[|[|k]]]]; try lia.
    exfalso. apply Hnot. cbn. tauto. }
  exists k. repeat split; try assumption.
  rewrite Hslept.
  destruct k as [|[|[|[|k]]]]; try lia; reflexivity.
Qed.

(** An error raised by [_make_request] is the error of its last attempt. *)
Lemma _make_request_last_error self method endpoint data params w e w1 :
  _make_request server self method endpoint data params w = (Raise e, w1) ->
  exists w0 w',
    make_request server (mkRequest method endpoint data params) w0
      = (Raise e, w') /\
    List.length (sent w') = List.length (sent w1).
Proof.
  unfold _make_request, retry_with_backoff. intros H.
  apply retry_loop_last_error in H.
  - destruct H as [[_ H]|H]; [discriminate H|exact H].
  - intros e' H'. discriminate H'.
Qed.

(** A [ValidationError] raised by an attempt comes from a 400 answer. *)
Lemma make_request_ValidationError r w e w1 :
  make_request server r w = (Raise e, w1) ->
  cls e = ValidationError ->
  exists json, server (r :: sent w) = Httpx.Response 400 json.
Proof.
  unfold make_request. cbn [sent].
  destruct (server (r :: sent w)) as [status_code json| | |];
    try (intros [= <- _]; discriminate).
  unfold _handle_response.
  destruct (Httpx.is_success status_code); [discriminate|].
  assert (Hmap : forall body,
            bind (create_error_from_response status_code body)
                 (fun error => @Raise pyval error) = Raise e ->
            cls e = ValidationError -> status_code = 400).
  { intros body. destruct (create_error_from_response status_code body)
      as [err|err] eqn:E; cbn [bind]; intros [= <-] Hc.
    - exact (create_error_ValidationError _ _ _ E Hc).
    - destruct (create_error_raises _ _ _ E) as [-> _]. discriminate Hc. }
  destruct json as [v|].
  - destruct v; try (intros [= <- _]; discriminate).
    intros [= H _] Hc. rewrite (Hmap _ H Hc). eexists. reflexivity.
  - intros [= H _] Hc. rewrite (Hmap _ H Hc). eexists. reflexivity.
Qed.

End Server.

(** Two 503 answers and then a 200: the third attempt returns the body,
    after sleeping 1 and 2 seconds; a 400 answer is raised after a single
    attempt. *)
Example retry_then_success :
  _make_request (fails_then_succeeds 2 (VDict [("success", VBool true)]))
    (mkSDK "key" default_base_url default_timeout default_max_retries false)
    "GET" "/api/profile" None None initial_world =
  (Return (VDict [("success", VBool true)]),
   mkWorld [profile_request; profile_request; profile_request] [2; 1]).
Proof. reflexivity. Qed.

Example bad_request_is_not_retried :
  _make_request (always (Httpx.Response 400 None))
    (mkSDK "key" default_base_url default_timeout default_max_retries false)
    "GET" "/api/profile" None None initial_world =
  (Raise (new_error ValidationError (VStr "Invalid JSON response") VNone (VDict [])),
   mkWorld [profile_request] []).
Proof. reflexivity. Qed.

End ClientFacts.
Import ClientFacts.

(** A server that answers 503 to the first request and 404 afterwards. *)
Definition unavailable_then_missing : list request -> Httpx.result :=
  fun history =>
    if (List.length history <=? 1)%nat
    then Httpx.Response 503 None
    else Httpx.Response 404 None.

(** C3 at work: a 404 answer is raised after a single request, with no
    sleep; a 404 answer that follows a 503 answer is raised after the
    second request, the only sleep being the one before the retry. *)
Lemma retriable_exactly_network_timeout_server_witness :
  retry_with_backoff
    (make_request (always (Httpx.Response 404 None)) profile_request)
    3 1 initial_world =
  (Raise (new_error NotFoundError (VStr "Invalid JSON response") VNone (VDict [])),
   mkWorld [profile_request] []) /\
  retry_with_backoff
    (make_request unavailable_then_missing profile_request)
    3 1 initial_world =
  (Raise (new_error NotFoundError (VStr "Invalid JSON response") VNone (VDict [])),
   mkWorld [profile_request; profile_request] [1]).
Proof.
  split.
  - apply (proj1 (proj2 (proj2 retriable_exactly_network_timeout_server))).
    + lia.
    + reflexivity.
    + reflexivity.
  - refine (proj1 (proj2
              (proj2 (proj2 (proj2 retriable_exactly_network_timeout_server))
                 pyval
                 (make_request unavailable_then_missing profile_request)
                 3 1 1%nat initial_world
                 (mkWorld [profile_request] [1]) _ _ _)) _ _ _ _).
    + lia.
    + intros attempt H. replace attempt with 0 by lia.
      unfold sleep_accepts. lia.
    + cbn [retried]. eexists. eexists.
      split; [reflexivity|]. split; reflexivity.
    + reflexivity.
    + reflexivity.
Defined.

(** C2, evaluated where it fails.  For every client, whatever
    [max_retries] it was constructed with, a request is retried at most
    three times, the delay before retry number [attempt + 1] being
    1 * 2 ^ attempt seconds, at most four requests are sent, and an error
    that is raised is the error of the last attempt.  In
    particular a client constructed with [max_retries=1] whose every
    request is answered 503 sends four requests, sleeps 1, 2 and 4
    seconds and then raises the last [ServerError]: three retries, where
    the configured maximum is one. *)
Theorem make_request_ignores_configured_max_retries :
  (forall server self method endpoint data params w,
     let w1 := snd (_make_request server self method endpoint data params w) in
     exists k : nat,
       (k <= 3)%nat /\
       slept w1 =
         (rev (map (fun attempt => 1 * 2 ^ attempt) (firstn k [0; 1; 2]))
          ++ slept w)%list /\
       (List.length (sent w1) <= List.length (sent w) + 4)%nat /\
       match fst (_make_request server self method endpoint data params w) with
       | Return _ => True
       | Raise e =>
           exists w0 w',
             make_request server (mkRequest method endpoint data params) w0
               = (Raise e, w') /\
             List.length (sent w') = List.length (sent w1)
       end) /\
  exists sdk,
    sdk_with_max_retries 1 = Return sdk /\
    _max_retries sdk = 1 /\
    _make_request (always (Httpx.Response 503 None)) sdk
      "GET" "/api/profile" None None initial_world =
    (Raise (new_error ServerError (VStr "Invalid JSON response") VNone (VDict [])),
     mkWorld [profile_request; profile_request; profile_request; profile_request]
             [4; 2; 1]).
Proof.
  split.
  - intros server self method endpoint data params w.
    destruct (_make_request server self method endpoint data params w)
      as [res w1] eqn:E. cbn [snd].
    destruct (_make_request_trace _ _ _ _ _ _ _ _ _ E) as (k & Hk & Hs & Hl).
    exists k. split; [exact Hk|]. split; [|split; [exact Hl|]].
    + rewrite Hs.
      destruct k as [|[|[|[|k]]]]; try lia; reflexivity.
    + destruct res as [v|e]; [exact I|].
      eapply _make_request_last_error. exact E.
  - eexists. repeat split.
Qed.

(** C4, evaluated where it fails.  When every attempt times out, the
    caller of [_make_request], and so the caller of the public method
    [get_profile], receives after the retries the SDK's [TimeoutError],
    and that error is not a [NetworkError]: the class derives from
    [atoshipError] directly. *)
Theorem timeout_is_not_wrapped_as_NetworkError :
  forall (self : atoshipSDK) (T : Type) (APIResponse : pyval -> outcome T)
         (method endpoint : string) (data : option pyval) (params : option dict),
  exists e w1,
    _make_request (always Httpx.TimeoutException) self
      method endpoint data params initial_world = (Raise e, w1) /\
    get_profile (always Httpx.TimeoutException) APIResponse self initial_world
      = (Raise e, mkWorld (repeat profile_request 4) [4; 2; 1]) /\
    cls e = TimeoutError /\
    message e = VStr "Request timed out" /\
    base TimeoutError = Some atoshipError /\
    isinstance e NetworkError = false /\
    List.length (sent w1) = 4%nat.
Proof.
  intros. eexists. eexists. repeat split.
Qed.

(** C7 as stated fails: status 400 is none of 401, 403, 404, 429 and
    500-599, yet it maps to [ValidationError] and not to the base error. *)
Lemma status_400_is_a_ValidationError :
  ~ covered 400 /\
  maps_to 400 [] ValidationError /\
  ~ maps_to 400 [] atoshipError.
Proof.
  split; [|split].
  - unfold covered. lia.
  - apply new_error_maps_to. reflexivity.
  - intros [e [H [Hc _]]]. injection H as <-. discriminate Hc.
Qed.

(** C7, as the code has it.  Every status other than 400, 401, 403, 404,
    429 and 500-599 maps to the generic base error [atoshipError];
    status 400 maps to [ValidationError]; a [ValidationError] built from
    a response always comes from status 400; and a [ValidationError]
    raised by [_make_request] is the outcome of an attempt that was
    answered with status 400. *)
Theorem uncovered_status_maps_to_base_error :
  forall (status_code : Z) (response_data : dict),
    (~ covered status_code -> status_code <> 400 ->
       maps_to status_code response_data atoshipError) /\
    (status_code = 400 -> maps_to status_code response_data ValidationError) /\
    (forall e, create_error_from_response status_code response_data = Return e ->
       cls e = ValidationError -> status_code = 400) /\
    (forall server self method endpoint data params w e w1,
       _make_request server self method endpoint data params w = (Raise e, w1) ->
       cls e = ValidationError ->
       exists w0 json,
         server (mkRequest method endpoint data params :: sent w0)
           = Httpx.Response 400 json).
Proof.
  intros status_code response_data. split; [|split; [|split]].
  - unfold covered. intros Hc Hn. apply new_error_maps_to.
    status_cases status_code.
    destruct (Z.leb_spec 500 status_code); cbn; [|reflexivity].
    destruct (Z.ltb_spec status_code 600); [lia|reflexivity].
  - intros ->. apply new_error_maps_to. reflexivity.
  - intros e. apply create_error_ValidationError.
  - intros server self method endpoint data params w e w1 H Hc.
    destruct (_make_request_last_error _ _ _ _ _ _ _ _ _ H)
      as (w0 & w' & Hm & _).
    exists w0. exact (make_request_ValidationError _ _ _ _ _ Hm Hc).
Qed.

Lemma uncovered_status_maps_to_base_error_witness :
  maps_to 418 rate_limit_body atoshipError /\
  maps_to 400 rate_limit_body ValidationError.
Proof.
  split.
  - apply (uncovered_status_maps_to_base_error 418 rate_limit_body).
    + unfold covered. lia.
    + lia.
  - apply (uncovered_status_maps_to_base_error 400 rate_limit_body).
    reflexivity.
Defined.

(** C6.  [create_orders_batch] with no order or with more than 100 orders,
    and [track_multiple] with more than 50 tracking numbers, raise a
    [ValidationError] and leave the world as it was: no request has been
    handed to the transport and nothing was slept, whatever the server. *)
Theorem batch_limits_are_checked_before_any_request :
  forall (server : list request -> Httpx.result)
         (T : Type) (APIResponse : pyval -> outcome T)
         (self : atoshipSDK) (w : world),
    (forall orders : list dict,
       List.length orders = 0%nat \/ (100 < List.length orders)%nat ->
       exists e,
         create_orders_batch server APIResponse self orders w = (Raise e, w) /\
         cls e = ValidationError) /\
    (forall tracking_numbers : list string,
       (50 < List.length tracking_numbers)%nat ->
       exists e,
         track_multiple server APIResponse self tracking_numbers w = (Raise e, w) /\
         cls e = ValidationError).
Proof.
  intros server T APIResponse self w. split.
  - intros orders H. unfold create_orders_batch.
    destruct (Nat.eqb_spec (List.length orders) 0) as [E|E].
    + eexists. split; reflexivity.
    + destruct (Nat.ltb_spec 100 (List.length orders)) as [L|L]; [|lia].
      eexists. split; reflexivity.
  - intros tns H. unfold track_multiple.
    destruct (Nat.ltb_spec 50 (List.length tns)) as [L|L]; [|lia].
    eexists. split; reflexivity.
Qed.

Lemma batch_limits_are_checked_before_any_request_witness :
  let sdk := mkSDK "key" default_base_url default_timeout default_max_retries false in
  let server := always (Httpx.Response 200 None) in
  (exists e,
     create_orders_batch server (@Return pyval) sdk [] initial_world
       = (Raise e, initial_world) /\ cls e = ValidationError) /\
  (exists e,
     create_orders_batch server (@Return pyval) sdk (repeat [] 101) initial_world
       = (Raise e, initial_world) /\ cls e = ValidationError) /\
  (exists e,
     track_multiple server (@Return pyval) sdk (repeat "1Z999AA1234567890" 51)
       initial_world = (Raise e, initial_world) /\ cls e = ValidationError).
Proof.
  intros sdk server.
  pose proof (batch_limits_are_checked_before_any_request
                server pyval (@Return pyval) sdk initial_world) as [Ho Ht].
  split; [|split].
  - apply Ho. left. reflexivity.
  - apply Ho. right. cbn. lia.
  - apply Ht. cbn. lia.
Defined.

(* ================================================================== *)
(** ** Patterns *)

(** The matcher decides membership in the language of the pattern. *)
Module PatternFacts.

(** The language of a pattern. *)
Inductive in_lang : regex -> string -> Prop :=
| in_eps : in_lang Eps ""
| in_class p c : p c = true -> in_lang (Class p) (String c "")
| in_cat r1 r2 s1 s2 :
    in_lang r1 s1 -> in_lang r2 s2 -> in_lang (Cat r1 r2) (s1 ++ s2)
| in_alt_l r1 r2 s : in_lang r1 s -> in_lang (Alt r1 r2) s
| in_alt_r r1 r2 s : in_lang r2 s -> in_lang (Alt r1 r2) s
| in_star_nil r : in_lang (Star r) ""
| in_star_cons r s1 s2 :
    in_lang r s1 -> in_lang (Star r) s2 -> in_lang (Star r) (s1 ++ s2).

Create HintDb lang.
#[local] Hint Constructors in_lang : lang.

Lemma append_empty_r (s : string) : (s ++ "")%string = s.
Proof. induction s as [|c s IH]; cbn; [reflexivity|]. rewrite IH. reflexivity. Qed.

Lemma append_is_empty (s1 s2 : string) :
  (s1 ++ s2)%string = "" -> s1 = "" /\ s2 = "".
Proof. destruct s1; cbn; [auto|discriminate]. Qed.

Lemma no_void s : ~ in_lang Void s.
Proof. intros H. inversion H. Qed.

Lemma only_eps s : in_lang Eps s -> s = "".
Proof. intros H. inversion H. reflexivity. Qed.

Lemma class_inv p s :
  in_lang (Class p) s -> exists c, s = String c "" /\ p c = true.
Proof. intros H. inversion H; subst. eauto. Qed.

Lemma cat_inv r1 r2 s :
  in_lang (Cat r1 r2) s ->
  exists s1 s2, s = (s1 ++ s2)%string /\ in_lang r1 s1 /\ in_lang r2 s2.
Proof. intros H. inversion H; subst. eauto. Qed.

Lemma alt_inv r1 r2 s :
  in_lang (Alt r1 r2) s -> in_lang r1 s \/ in_lang r2 s.
Proof. intros H. inversion H; subst; auto. Qed.

Lemma nullable_spec r : nullable r = true <-> in_lang r "".
Proof.
  induction r as [| |p|r1 IH1 r2 IH2|r1 IH1 r2 IH2|r IH]; cbn.
  - split; [discriminate|]. intros H. inversion H.
  - split; auto with lang.
  - split; [discriminate|]. intros H. inversion H.
  - rewrite andb_true_iff, IH1, IH2. split.
    + intros [H1 H2]. change "" with ("" ++ "")%string. auto with lang.
    + intros H. apply cat_inv in H. destruct H as (s1 & s2 & E & H1 & H2).
      symmetry in E. apply append_is_empty in E. destruct E as [-> ->]. auto.
  - rewrite orb_true_iff, IH1, IH2. split.
    + intros [H|H]; auto with lang.
    + apply alt_inv.
  - split; auto with lang.
Qed.

Lemma cat_intro r1 r2 s1 s2 :
  in_lang r1 s1 -> in_lang r2 s2 -> in_lang (cat r1 r2) (s1 ++ s2).
Proof.
  intros H1 H2.
  destruct r1; try (exfalso; exact (no_void _ H1));
    destruct r2; try (exfalso; exact (no_void _ H2)); cbn [cat];
    try (apply only_eps in H1; subst s1; exact H2);
    try (apply only_eps in H2; subst s2; rewrite append_empty_r; exact H1);
    auto with lang.
Qed.

Lemma cat_elim r1 r2 s :
  in_lang (cat r1 r2) s ->
  exists s1 s2, s = (s1 ++ s2)%string /\ in_lang r1 s1 /\ in_lang r2 s2.
Proof.
  pose proof (cat_inv r1 r2 s) as Hc.
  assert (Hl : r1 = Eps -> in_lang r2 s ->
    exists s1 s2, s = (s1 ++ s2)%string /\ in_lang r1 s1 /\ in_lang r2 s2).
  { intros -> H. exists "", s. auto with lang. }
  assert (Hr : r2 = Eps -> in_lang r1 s ->
    exists s1 s2, s = (s1 ++ s2)%string /\ in_lang r1 s1 /\ in_lang r2 s2).
  { intros -> H. exists s, "". rewrite append_empty_r. auto with lang. }
  destruct r1; destruct r2; cbn [cat]; intros H;
    try (exfalso; exact (no_void _ H)); auto.
Qed.

Lemma alt_intro_l r1 r2 s : in_lang r1 s -> in_lang (alt r1 r2) s.
Proof.
  intros H. destruct r1; try (exfalso; exact (no_void _ H));
    destruct r2; cbn [alt]; auto with lang.
Qed.

Lemma alt_intro_r r1 r2 s : in_lang r2 s -> in_lang (alt r1 r2) s.
Proof.
  intros H. destruct r2; try (exfalso; exact (no_void _ H));
    destruct r1; cbn [alt]; auto with lang.
Qed.

Lemma alt_elim r1 r2 s :
  in_lang (alt r1 r2) s -> in_lang r1 s \/ in_lang r2 s.
Proof.
  pose proof (alt_inv r1 r2 s) as Ha.
  destruct r1; destruct r2; cbn [alt]; intros H; auto.
Qed.

(** A non-empty word of a starred pattern starts with a non-empty word
    of the pattern. *)
Lemma star_split r w :
  in_lang (Star r) w ->
  forall c s, w = String c s ->
  exists s1 s2,
    s = (s1 ++ s2)%string /\ in_lang r (String c s1) /\ in_lang (Star r) s2.
Proof.
  intros H. remember (Star r) as r' eqn:Er.
  induction H as [| | | | | |r0 s1 s2 H1 _ H2 IH2]; try discriminate.
  injection Er as ->. intros c s E.
  destruct s1 as [|c1 s1]; cbn in E.
  - apply IH2; [reflexivity|exact E].
  - injection E as -> <-. exists s1, s2. auto.
Qed.

Lemma deriv_sound c r : forall s, in_lang (deriv c r) s -> in_lang r (String c s).
Proof.
  induction r as [| |p|r1 IH1 r2 IH2|r1 IH1 r2 IH2|r IH]; intros s; cbn [deriv].
  - intros H. inversion H.
  - intros H. inversion H.
  - destruct (p c) eqn:E; intros H; [|inversion H].
    apply only_eps in H. subst. auto with lang.
  - destruct (nullable r1) eqn:N.
    + intros H. apply alt_elim in H. destruct H as [H|H].
      * apply cat_elim in H. destruct H as (s1 & s2 & -> & H1 & H2).
        change (String c (s1 ++ s2)) with (String c s1 ++ s2)%string.
        auto with lang.
      * apply nullable_spec in N.
        change (String c s) with ("" ++ String c s)%string. auto with lang.
    + intros H. apply cat_elim in H. destruct H as (s1 & s2 & -> & H1 & H2).
      change (String c (s1 ++ s2)) with (String c s1 ++ s2)%string.
      auto with lang.
  - intros H. apply alt_elim in H. destruct H as [H|H]; auto with lang.
  - intros H. apply cat_elim in H. destruct H as (s1 & s2 & -> & H1 & H2).
    change (String c (s1 ++ s2)) with (String c s1 ++ s2)%string.
    auto with lang.
Qed.

Lemma deriv_complete c r : forall s, in_lang r (String c s) -> in_lang (deriv c r) s.
Proof.
  induction r as [| |p|r1 IH1 r2 IH2|r1 IH1 r2 IH2|r IH]; intros s H; cbn [deriv].
  - inversion H.
  - inversion H.
  - apply class_inv in H. destruct H as (c0 & [= -> ->] & Hp).
    rewrite Hp. auto with lang.
  - apply cat_inv in H. destruct H as (s1 & s2 & E & H1 & H2).
    destruct s1 as [|c1 s1]; cbn in E.
    + subst s2. apply nullable_spec in H1. rewrite H1.
      apply alt_intro_r. auto.
    + injection E as -> ->.
      destruct (nullable r1); [apply alt_intro_l|]; apply cat_intro; auto.
  - apply alt_inv in H.
    destruct H; [apply alt_intro_l|apply alt_intro_r]; auto.
  - destruct (star_split r _ H c s eq_refl) as (s1 & s2 & -> & H1 & H2).
    apply cat_intro; auto.
Qed.

Theorem full_match_spec s : forall r, full_match r s = true <-> in_lang r s.
Proof.
  induction s as [|c s IH]; intros r; cbn [full_match].
  - apply nullable_spec.
  - rewrite IH. split; [apply deriv_sound|apply deriv_complete].
Qed.

Lemma chomp_append s' : chomp (s' ++ String "010"%char "") = Some s'.
Proof.
  induction s' as [|a t IH]; [reflexivity|].
  change (chomp (String a (t ++ String "010"%char ""))%string = Some (String a t)).
  destruct t as [|b t']; [reflexivity|].
  cbn [append chomp] in *. rewrite IH. reflexivity.
Qed.

Lemma chomp_some s :
  forall s', chomp s = Some s' -> s = (s' ++ String "010"%char "")%string.
Proof.
  induction s as [|c s IH]; intros s'; [discriminate|].
  destruct s as [|c2 s2].
  - cbn [chomp]. destruct (Ascii.eqb_spec c "010"%char) as [->|Hne];
      [|discriminate].
    intros [= <-]. reflexivity.
  - cbn [chomp]. cbn [chomp] in IH.
    destruct (match s2 with
              | "" => if Ascii.eqb c2 "010"%char then Some "" else None
              | String _ _ =>
                  match chomp s2 with
                  | Some rest' => Some (String c2 rest')
                  | None => None
                  end
              end) as [rest|]; [|discriminate].
    intros [= <-]. cbn [append]. f_equal. apply IH. reflexivity.
Qed.

Lemma chomp_spec s s' :
  chomp s = Some s' <-> s = (s' ++ String "010"%char "")%string.
Proof.
  split; [apply chomp_some|]. intros ->. apply chomp_append.
Qed.

(** [re.match] on an anchored pattern: the string is in the language of
    the pattern, or it is such a string followed by one line feed. *)
Theorem re_match_spec r s :
  re_match r s = true <->
  in_lang r s \/
  exists s', s = (s' ++ String "010"%char "")%string /\ in_lang r s'.
Proof.
  unfold re_match. rewrite orb_true_iff, full_match_spec. split.
  - intros [H|H]; [left; exact H|right].
    destruct (chomp s) as [s'|] eqn:E; [|discriminate].
    exists s'. split; [apply chomp_spec, E|apply full_match_spec, H].
  - intros [H|(s' & E & H)]; [left; exact H|right].
    apply chomp_spec in E. rewrite E. apply full_match_spec, H.
Qed.

(** The validators on the inputs of the test suite. *)
Example validate_email_examples :
  map (fun s => validate_email (VStr s))
      ["user@example.com"; "test.email+tag@domain.co.uk";
       "user123@test-domain.org"; "invalid-email"; "@domain.com"; "user@";
       "user@@domain.com"; ""]
  = map Return [true; true; true; false; false; false; false; false].
Proof. reflexivity. Qed.

Example validate_phone_examples :
  map (fun s => validate_phone (VStr s))
      ["415-555-0123"; "(415) 555-0123"; "4155550123"; "+1-415-555-0123";
       "+44 20 7946 0958"; "123"; "123456789012345678901234567890"; "";
       "abc-def-ghij"]
  = map Return [true; true; true; true; true; false; false; false; false].
Proof. reflexivity. Qed.

Example validate_postal_code_examples :
  map (fun p => validate_postal_code (VStr (fst p)) (VStr (snd p)))
      [("94105", "US"); ("94105-1234", "US"); ("1234", "US"); ("123456", "US");
       ("ABCDE", "US"); ("K1A 0A6", "CA"); ("K1A0A6", "CA"); ("12345", "CA");
       ("K1A", "CA"); ("SW1A 1AA", "GB"); ("M1 1AA", "GB"); ("M60 1NW", "GB");
       (" sw1a 1aa ", "gb"); ("75008", "FR"); ("12", "FR")]
  = map Return [true; true; false; false; false; true; true; false; false;
                true; true; true; true; true; false].
Proof. reflexivity. Qed.

Example format_tracking_number_example :
  format_tracking_number "  1z999aa1234567890  " = "1Z999AA1234567890".
Proof. reflexivity. Qed.

End PatternFacts.

(* ================================================================== *)
(** ** Order validation *)

Module OrderFacts.

(** [v] is an integer greater than zero. *)
Definition positive_integer (v : pyval) : Prop :=
  exists z, v = VInt z /\ 0 < z.

(** [v] is an integer greater than zero, or a float for which [v <= 0]
    is false. *)
Definition positive_number (v : pyval) : Prop :=
  (exists z, v = VInt z /\ 0 < z) \/
  (exists f, v = VFloat f /\ PrimFloat.leb f PrimFloat.zero = false).

(** [field] is present in [fields] with a value that is not [None]. *)
Definition present (fields : dict) (field : string) : Prop :=
  exists v, lookup field fields = Some v /\ is_none v = false.

(** A valid order item: the six fields are present, the quantity is a
    positive integer, the unit price and the weight are positive numbers
    and the weight unit is one of lb, kg, oz, g. *)
Definition valid_item (item : pyval) : Prop :=
  exists fields,
    item = VDict fields /\
    (forall field, In field item_required_fields -> present fields field) /\
    (exists q, lookup "quantity" fields = Some q /\ positive_integer q) /\
    (exists p, lookup "unitPrice" fields = Some p /\ positive_number p) /\
    (exists x, lookup "weight" fields = Some x /\ positive_number x) /\
    (exists u, lookup "weightUnit" fields = Some (VStr u) /\ In u valid_units).

(** A valid order payload: the eight required fields are present and
    non-empty, the items are a non-empty list of valid items, and the
    email, the phone and the postal code that are provided are accepted
    by their validators. *)
Definition valid_order (order_data : dict) : Prop :=
  (forall field, In field required_fields ->
     exists v, lookup field order_data = Some v /\ truthy v = true) /\
  (exists items,
     lookup "items" order_data = Some (VList items) /\
     items <> [] /\ Forall valid_item items) /\
  (forall email, lookup "recipientEmail" order_data = Some email ->
     truthy email = true -> validate_email email = Return true) /\
  (forall phone, lookup "recipientPhone" order_data = Some phone ->
     truthy phone = true -> validate_phone phone = Return true) /\
  (forall postal_code country,
     lookup "recipientPostalCode" order_data = Some postal_code ->
     lookup "recipientCountry" order_data = Some country ->
     validate_postal_code postal_code country = Return true).

(** The email, the phone, the postal code and the country that are
    provided are strings, so that their validators apply. *)
Definition contact_fields_are_text (order_data : dict) : Prop :=
  (forall email, lookup "recipientEmail" order_data = Some email ->
     truthy email = true -> is_str email = true) /\
  (forall phone, lookup "recipientPhone" order_data = Some phone ->
     truthy phone = true -> is_str phone = true) /\
  (forall postal_code country,
     lookup "recipientPostalCode" order_data = Some postal_code ->
     lookup "recipientCountry" order_data = Some country ->
     is_str postal_code = true /\ is_str country = true).

Lemma required_errors_nil order_data fields :
  (forall field, In field fields ->
     exists v, lookup field order_data = Some v /\ truthy v = true) ->
  flat_map
    (fun field =>
       match lookup field order_data with
       | Some v => if truthy v then [] else ["'" ++ field ++ "' is required"]
       | None => ["'" ++ field ++ "' is required"]
       end) fields = [].
Proof.
  induction fields as [|f rest IH]; intros H; cbn [flat_map]; [reflexivity|].
  destruct (H f (or_introl eq_refl)) as (v & -> & ->).
  apply IH. intros g Hg. apply H. right. exact Hg.
Qed.

Lemma item_required_errors_nil prefix fields names :
  (forall field, In field names -> present fields field) ->
  item_required_errors prefix (VDict fields) names = Return [].
Proof.
  induction names as [|f rest IH]; intros H; cbn [item_required_errors];
    [reflexivity|].
  destruct (H f (or_introl eq_refl)) as (v & Hv & Hn).
  cbn [py_in py_getitem bind]. unfold contains. rewrite Hv. cbn [negb bind].
  rewrite Hn, IH; [reflexivity|].
  intros g Hg. apply H. right. exact Hg.
Qed.

Lemma item_check_ok fields key bad msg v :
  lookup key fields = Some v -> bad v = false ->
  item_check (VDict fields) key bad msg = Return [].
Proof.
  intros Hv Hb. unfold item_check. cbn [py_in py_getitem bind].
  unfold contains. rewrite Hv. cbn [bind]. rewrite Hb. reflexivity.
Qed.

Lemma positive_number_ok v :
  positive_number v -> negb (isinstance_int_float v) || le_zero v = false.
Proof.
  intros [(z & -> & Hz)|(f & -> & Hf)]; cbn.
  - lia.
  - exact Hf.
Qed.

Lemma valid_unit_ok u :
  In u valid_units ->
  negb (existsb (fun unit => str_equal unit (VStr u)) valid_units) = false.
Proof.
  unfold valid_units. cbn [In].
  intros [<-|[<-|[<-|[<-|[]]]]]; reflexivity.
Qed.

Lemma validate_order_item_valid item index :
  valid_item item -> validate_order_item item index = Return [].
Proof.
  intros (fields & -> & Hreq & (q & Hq & z & -> & Hz) & (p & Hp & Hpos)
          & (x & Hx & Hxpos) & (u & Hu & Hin)).
  unfold validate_order_item.
  rewrite item_required_errors_nil by exact Hreq. cbn [bind].
  rewrite (item_check_ok _ _ _ _ _ Hq) by (cbn; lia). cbn [bind].
  rewrite (item_check_ok _ _ _ _ _ Hp) by (apply positive_number_ok, Hpos).
  cbn [bind].
  rewrite (item_check_ok _ _ _ _ _ Hx) by (apply positive_number_ok, Hxpos).
  cbn [bind].
  rewrite (item_check_ok _ _ _ _ _ Hu) by (apply valid_unit_ok, Hin).
  reflexivity.
Qed.

Lemma items_errors_valid items :
  Forall valid_item items -> forall i, items_errors items i = Return [].
Proof.
  induction 1 as [|item rest Hitem _ IH]; intros i; cbn [items_errors];
    [reflexivity|].
  rewrite validate_order_item_valid by exact Hitem. cbn [bind].
  rewrite IH. reflexivity.
Qed.

(** The three contact checks of [validate_order_data] return when the
    contact fields are text. *)
Lemma email_check_returns email :
  is_str email = true -> exists ok, validate_email email = Return ok.
Proof. destruct email; try discriminate. intros _. eexists. reflexivity. Qed.

Lemma phone_check_returns phone :
  is_str phone = true -> exists ok, validate_phone phone = Return ok.
Proof. destruct phone; try discriminate. intros _. eexists. reflexivity. Qed.

Lemma postal_check_returns postal_code country :
  is_str postal_code = true -> is_str country = true ->
  exists ok, validate_postal_code postal_code country = Return ok.
Proof.
  destruct postal_code; try discriminate.
  destruct country; try discriminate. intros _ _.
  unfold validate_postal_code.
  repeat match goal with |- context [if ?b then _ else _] => destruct b end;
    eexists; reflexivity.
Qed.

End OrderFacts.
Import OrderFacts.

(** C5.  For every valid order payload [validate_order_data] returns the
    empty list.  For every payload whose 'orderNumber' is missing (absent
    or empty) and whose 'items' is the empty list, whenever a list is
    returned it contains both "'orderNumber' is required" and "At least
    one item is required", next to whatever else is wrong; and a list is
    returned as soon as the contact fields that are provided are
    strings. *)
Theorem validate_order_data_valid_and_missing :
  forall order_data : dict,
    (valid_order order_data -> validate_order_data order_data = Return []) /\
    ((forall v, lookup "orderNumber" order_data = Some v -> truthy v = false) ->
     lookup "items" order_data = Some (VList []) ->
     (forall errors, validate_order_data order_data = Return errors ->
        In "'orderNumber' is required" errors /\
        In "At least one item is required" errors) /\
     (contact_fields_are_text order_data ->
        exists errors, validate_order_data order_data = Return errors)).
Proof.
  intros order_data. split.
  - intros (Hreq & (items & Hitems & Hne & Hall) & Hemail & Hphone & Hpostal).
    unfold validate_order_data.
    change (required_errors order_data) with
      (flat_map
         (fun field =>
            match lookup field order_data with
            | Some v => if truthy v then [] else ["'" ++ field ++ "' is required"]
            | None => ["'" ++ field ++ "' is required"]
            end) required_fields).
    rewrite (required_errors_nil order_data required_fields Hreq).
    assert (E1 :
      match lookup "recipientEmail" order_data with
      | Some email =>
          if truthy email then
            ok <- validate_email email ;;
            Return (if ok : bool then [] else ["Invalid recipient email format"])
          else Return []
      | None => Return []
      end = Return []).
    { destruct (lookup "recipientEmail" order_data) as [email|] eqn:E;
        [|reflexivity].
      destruct (truthy email) eqn:T; [|reflexivity].
      rewrite (Hemail email eq_refl T). reflexivity. }
    rewrite E1. cbn [bind]. clear E1.
    assert (E2 :
      match lookup "recipientPhone" order_data with
      | Some phone =>
          if truthy phone then
            ok <- validate_phone phone ;;
            Return (if ok : bool then [] else ["Invalid recipient phone format"])
          else Return []
      | None => Return []
      end = Return []).
    { destruct (lookup "recipientPhone" order_data) as [phone|] eqn:E;
        [|reflexivity].
      destruct (truthy phone) eqn:T; [|reflexivity].
      rewrite (Hphone phone eq_refl T). reflexivity. }
    rewrite E2. cbn [bind]. clear E2.
    destruct (Hreq "recipientPostalCode") as (pc & Hpc & _); [cbn; tauto|].
    destruct (Hreq "recipientCountry") as (co & Hco & _); [cbn; tauto|].
    rewrite Hpc, Hco, (Hpostal pc co Hpc Hco). cbn [bind].
    rewrite Hitems.
    destruct items as [|item rest]; [contradiction|].
    rewrite (items_errors_valid _ Hall). reflexivity.
  - intros Hnum Hitems. split.
    + intros errors. unfold validate_order_data.
      rewrite Hitems.
      match goal with |- bind ?X _ = _ -> _ => destruct X as [e1|] end;
        [|discriminate].
      cbn [bind].
      match goal with |- bind ?X _ = _ -> _ => destruct X as [e2|] end;
        [|discriminate].
      cbn [bind].
      match goal with |- bind ?X _ = _ -> _ => destruct X as [e3|] end;
        [|discriminate].
      cbn [bind]. intros [= <-]. split.
      * cbn [concat]. apply in_or_app. left.
        unfold required_errors, required_fields. cbn [flat_map].
        destruct (lookup "orderNumber" order_data) as [v|].
        -- rewrite (Hnum v eq_refl). left. reflexivity.
        -- left. reflexivity.
      * cbn [concat]. do 4 (apply in_or_app; right). left. reflexivity.
    + intros (Hemail & Hphone & Hpostal). unfold validate_order_data.
      rewrite Hitems.
      assert (exists e1,
        match lookup "recipientEmail" order_data with
        | Some email =>
            if truthy email then
              ok <- validate_email email ;;
              Return (if ok : bool then [] else ["Invalid recipient email format"])
            else Return []
        | None => Return []
        end = Return e1) as [e1 ->].
      { destruct (lookup "recipientEmail" order_data) as [email|] eqn:E;
          [|eexists; reflexivity].
        destruct (truthy email) eqn:T; [|eexists; reflexivity].
        destruct (email_check_returns email (Hemail email eq_refl T)) as [ok ->].
        eexists. reflexivity. }
      cbn [bind].
      assert (exists e2,
        match lookup "recipientPhone" order_data with
        | Some phone =>
            if truthy phone then
              ok <- validate_phone phone ;;
              Return (if ok : bool then [] else ["Invalid recipient phone format"])
            else Return []
        | None => Return []
        end = Return e2) as [e2 ->].
      { destruct (lookup "recipientPhone" order_data) as [phone|] eqn:E;
          [|eexists; reflexivity].
        destruct (truthy phone) eqn:T; [|eexists; reflexivity].
        destruct (phone_check_returns phone (Hphone phone eq_refl T)) as [ok ->].
        eexists. reflexivity. }
      cbn [bind].
      assert (exists e3,
        match lookup "recipientPostalCode" order_data,
              lookup "recipientCountry" order_data with
        | Some postal_code, Some country =>
            ok <- validate_postal_code postal_code country ;;
            Return (if ok : bool then [] else ["Invalid postal code format"])
        | _, _ => Return []
        end = Return e3) as [e3 ->].
      { destruct (lookup "recipientPostalCode" order_data) as [pc|] eqn:Epc;
          [|eexists; reflexivity].
        destruct (lookup "recipientCountry" order_data) as [co|] eqn:Eco;
          [|eexists; reflexivity].
        destruct (Hpostal pc co eq_refl eq_refl) as [Sp Sc].
        destruct (postal_check_returns pc co Sp Sc) as [ok ->].
        eexists. reflexivity. }
      cbn [bind]. eexists. reflexivity.
Qed.

(** The valid order of the test suite. *)
Definition test_item : pyval :=
  VDict [("name", VStr "Product 1"); ("sku", VStr "SKU-1");
         ("quantity", VInt 1); ("unitPrice", VFloat 10%float);
         ("weight", VFloat 1%float); ("weightUnit", VStr "lb")].

Definition test_order : dict :=
  [("orderNumber", VStr "ORDER-001"); ("recipientName", VStr "John Doe");
   ("recipientStreet1", VStr "123 Main St");
   ("recipientCity", VStr "San Francisco"); ("recipientState", VStr "CA");
   ("recipientPostalCode", VStr "94105"); ("recipientCountry", VStr "US");
   ("recipientEmail", VStr "john@example.com");
   ("recipientPhone", VStr "415-555-0123");
   ("items", VList [test_item])].

(** The incomplete order of the test suite: an empty 'orderNumber' and no
    item. *)
Definition incomplete_order : dict :=
  [("orderNumber", VStr ""); ("recipientName", VStr "John Doe");
   ("items", VList [])].

Lemma test_item_valid : valid_item test_item.
Proof.
  eexists. split; [reflexivity|]. split; [|split; [|split; [|split]]].
  - intros field H. cbn in H.
    repeat (destruct H as [<-|H]; [eexists; split; reflexivity|]).
    contradiction.
  - eexists. split; [reflexivity|]. exists 1. split; [reflexivity|lia].
  - eexists. split; [reflexivity|]. right. eexists. split; reflexivity.
  - eexists. split; [reflexivity|]. right. eexists. split; reflexivity.
  - exists "lb". split; [reflexivity|]. left. reflexivity.
Qed.

Lemma test_order_valid : valid_order test_order.
Proof.
  split; [|split; [|split; [|split]]].
  - intros field H. cbn in H.
    repeat (destruct H as [<-|H]; [eexists; split; reflexivity|]).
    contradiction.
  - eexists. split; [reflexivity|]. split; [discriminate|].
    constructor; [exact test_item_valid|constructor].
  - intros email [= <-] _. reflexivity.
  - intros phone [= <-] _. reflexivity.
  - intros pc co [= <-] [= <-]. reflexivity.
Qed.

Lemma validate_order_data_valid_and_missing_witness :
  validate_order_data test_order = Return [] /\
  (forall errors, validate_order_data incomplete_order = Return errors ->
     In "'orderNumber' is required" errors /\
     In "At least one item is required" errors) /\
  (exists errors, validate_order_data incomplete_order = Return errors).
Proof.
  split; [|split].
  - apply (validate_order_data_valid_and_missing test_order).
    exact test_order_valid.
  - apply (validate_order_data_valid_and_missing incomplete_order);
      [intros v [= <-]|]; reflexivity.
  - apply (validate_order_data_valid_and_missing incomplete_order);
      [intros v [= <-]; reflexivity|reflexivity|].
    split; [|split]; intros; discriminate.
Defined.

(** C10, evaluated where it fails.  [validate_order_data] raises instead of
    returning a list when a contact field holds a value that is not a
    string: a postal code that is [None] or a number raises
    [AttributeError] (the postal-code check has no truthiness guard and
    calls [.strip()]), an email or a phone that is a number raises
    [TypeError] from [re]. *)
Theorem validate_order_data_raises_on_non_string_contact :
  validate_order_data
    [("recipientPostalCode", VNone); ("recipientCountry", VStr "US")]
    = Raise (builtin AttributeError) /\
  validate_order_data
    [("recipientPostalCode", VInt 94105); ("recipientCountry", VStr "US")]
    = Raise (builtin AttributeError) /\
  validate_order_data [("recipientEmail", VInt 42)]
    = Raise (builtin TypeError) /\
  validate_order_data [("recipientPhone", VInt 4155550123)]
    = Raise (builtin TypeError).
Proof.
  repeat split.
Qed.

(* ================================================================== *)
(** ** Masking *)

Module MaskingFacts.

#[local] Open Scope nat_scope.

Lemma length_append (a b : string) :
  String.length (a ++ b) = String.length a + String.length b.
Proof. induction a as [|c a IH]; cbn; [reflexivity|]. rewrite IH. reflexivity. Qed.

Lemma length_substring (s : string) :
  forall n m, n + m <= String.length s -> String.length (substring n m s) = m.
Proof.
  induction s as [|c s IH]; intros n m H; cbn in H.
  - assert (n = 0) by lia. assert (m = 0) by lia. subst. reflexivity.
  - destruct n as [|n]; cbn.
    + destruct m as [|m]; cbn; [reflexivity|]. rewrite IH by lia. reflexivity.
    + apply IH. lia.
Qed.

Lemma length_repeat_char c n : String.length (repeat_char c n) = n.
Proof. induction n as [|n IH]; cbn; [reflexivity|]. rewrite IH. reflexivity. Qed.

Lemma get_repeat_char c n :
  forall i, i < n -> String.get i (repeat_char c n) = Some c.
Proof.
  induction n as [|n IH]; intros i H; [lia|].
  destruct i as [|i]; cbn; [reflexivity|]. apply IH. lia.
Qed.

(** The masked text of a string of more than four characters: same
    length, same first two and last two characters, asterisks between. *)
Lemma mask_string_shape (s : string) :
  4 < String.length s ->
  String.length (mask_string s) = String.length s /\
  (forall i, i < 2 -> String.get i (mask_string s) = String.get i s) /\
  (forall i, 2 <= i < String.length s - 2 ->
     String.get i (mask_string s) = Some "*"%char) /\
  (forall i, String.length s - 2 <= i < String.length s ->
     String.get i (mask_string s) = String.get i s).
Proof.
  intros Hlen. unfold mask_string, slice_to, slice_last.
  set (n := String.length s) in *.
  assert (La : String.length (substring 0 2 s) = 2)
    by (apply length_substring; fold n; lia).
  assert (Lc : String.length (substring (n - 2) 2 s) = 2)
    by (apply length_substring; fold n; lia).
  pose proof (length_repeat_char "*"%char (n - 4)) as Lb.
  split; [|split; [|split]].
  - rewrite !length_append, La, Lb, Lc. lia.
  - intros i Hi. rewrite <- append_correct1 by lia.
    rewrite substring_correct1 by lia. f_equal. lia.
  - intros i Hi.
    replace i with ((i - 2) + String.length (substring 0 2 s)) by lia.
    rewrite <- append_correct2, <- append_correct1 by lia.
    apply get_repeat_char. lia.
  - intros i Hi.
    replace i with ((i - 2) + String.length (substring 0 2 s)) at 1 by lia.
    rewrite <- append_correct2.
    replace (i - 2) with
      ((i - (n - 2)) + String.length (repeat_char "*"%char (n - 4))) by lia.
    rewrite <- append_correct2, substring_correct1 by lia.
    f_equal. lia.
Qed.

(** Reading an entry of a dictionary rebuilt entry by entry. *)
Lemma lookup_map_entries (f : string -> pyval -> pyval) (key : string)
    (data : dict) :
  lookup key (map (fun entry : string * pyval =>
                     let (k, v) := entry in (k, f k v)) data)
  = option_map (f key) (lookup key data).
Proof.
  induction data as [|[k v] rest IH]; cbn; [reflexivity|].
  destruct (String.eqb_spec k key) as [->|Hne]; [reflexivity|exact IH].
Qed.

Lemma keys_map_entries (f : string -> pyval -> pyval) (data : dict) :
  map fst (map (fun entry : string * pyval =>
                  let (k, v) := entry in (k, f k v)) data)
  = map fst data.
Proof.
  induction data as [|[k v] rest IH]; cbn; [reflexivity|]. rewrite IH. reflexivity.
Qed.

(** The recursive call on a nested dictionary is [mask_sensitive_data]
    with the same fields. *)
Lemma mask_value_dict fields inner :
  mask_value fields (VDict inner) = VDict (mask_sensitive_data inner (Some fields)).
Proof. reflexivity. Qed.

(** The effective field list. *)
Definition fields_of (sensitive_fields : option (list string)) : list string :=
  match sensitive_fields with
  | None => default_sensitive_fields
  | Some fields => fields
  end.

Lemma lookup_masked data sensitive_fields key :
  lookup key (mask_sensitive_data data sensitive_fields) =
  option_map
    (mask_entry (fields_of sensitive_fields)
                (mask_value (fields_of sensitive_fields)) key)
    (lookup key data).
Proof.
  unfold mask_sensitive_data.
  apply (lookup_map_entries
           (mask_entry (fields_of sensitive_fields)
                       (mask_value (fields_of sensitive_fields)))).
Qed.

End MaskingFacts.
Import MaskingFacts.

(** C9.  [mask_sensitive_data] keeps the keys of the dictionary, in order.
    An entry whose key is not sensitive keeps its value, except that a
    dictionary value is masked recursively with the same fields.  The
    value of a sensitive key (by default password, apiKey, api_key,
    secret, token, key, compared in lower case) is replaced: a string of
    more than 4 characters by a string of the same length with the same
    first two and last two characters and asterisks in between, anything
    else (a string of at most 4 characters, or a value that is not a
    string) by "***". *)
Theorem mask_sensitive_data_masks_sensitive_keys :
  forall (data : dict) (sensitive_fields : option (list string)),
    let fields := fields_of sensitive_fields in
    let masked := mask_sensitive_data data sensitive_fields in
    map fst masked = map fst data /\
    (forall key, lookup key data = None -> lookup key masked = None) /\
    (forall key value, lookup key data = Some value ->
       is_sensitive fields key = false ->
       lookup key masked =
         Some match value with
              | VDict inner => VDict (mask_sensitive_data inner (Some fields))
              | _ => value
              end) /\
    (forall key s, lookup key data = Some (VStr s) ->
       is_sensitive fields key = true ->
       (4 < String.length s)%nat ->
       exists m,
         lookup key masked = Some (VStr m) /\
         m = (substring 0 2 s ++ repeat_char "*"%char (String.length s - 4)
              ++ substring (String.length s - 2) 2 s)%string /\
         String.length m = String.length s /\
         (forall i, (i < 2)%nat -> String.get i m = String.get i s) /\
         (forall i, (2 <= i < String.length s - 2)%nat ->
            String.get i m = Some "*"%char) /\
         (forall i, (String.length s - 2 <= i < String.length s)%nat ->
            String.get i m = String.get i s)) /\
    (forall key value, lookup key data = Some value ->
       is_sensitive fields key = true ->
       (forall s, value = VStr s -> (String.length s <= 4)%nat) ->
       lookup key masked = Some (VStr "***")) /\
    (forall key,
       is_sensitive default_sensitive_fields key = true <->
       In (lower key)
          ["password"; "apikey"; "api_key"; "secret"; "token"; "key"]).
Proof.
  intros data sensitive_fields fields masked.
  split; [|split; [|split; [|split; [|split]]]].
  - apply (keys_map_entries
             (mask_entry (fields_of sensitive_fields)
                         (mask_value (fields_of sensitive_fields)))).
  - intros key H. unfold masked. rewrite lookup_masked, H. reflexivity.
  - intros key value H Hs. unfold masked. rewrite lookup_masked, H.
    cbn [option_map]. unfold mask_entry. fold fields. rewrite Hs.
    destruct value; reflexivity.
  - intros key s H Hs Hlen. unfold masked. rewrite lookup_masked, H.
    cbn [option_map]. unfold mask_entry. fold fields. rewrite Hs.
    destruct (Nat.ltb_spec 4 (String.length s)) as [_|]; [|lia].
    destruct (mask_string_shape s Hlen) as (L & A & B & C).
    exists (mask_string s). repeat split; assumption.
  - intros key value H Hs Hshort. unfold masked. rewrite lookup_masked, H.
    cbn [option_map]. unfold mask_entry. fold fields. rewrite Hs.
    destruct value; try reflexivity.
    specialize (Hshort s eq_refl).
    destruct (Nat.ltb_spec 4 (String.length s)); [lia|reflexivity].
  - intros key. unfold is_sensitive, default_sensitive_fields.
    cbn [map]. change (lower "password") with "password".
    change (lower "apiKey") with "apikey".
    change (lower "api_key") with "api_key".
    change (lower "secret") with "secret".
    change (lower "token") with "token".
    change (lower "key") with "key".
    rewrite existsb_exists. split.
    + intros (x & Hin & Heq). apply String.eqb_eq in Heq. subst x. exact Hin.
    + intros Hin. exists (lower key). split; [exact Hin|apply String.eqb_refl].
Qed.

(** The example of the specification and a nested dictionary. *)
Definition secrets : dict :=
  [("username", VStr "john_doe");
   ("password", VStr "secret123");
   ("Token", VStr "abcd");
   ("nested", VDict [("key", VStr "nested_secret"); ("value", VStr "normal_nested")])].

Lemma mask_sensitive_data_masks_sensitive_keys_witness :
  lookup "username" (mask_sensitive_data secrets None) = Some (VStr "john_doe") /\
  lookup "Token" (mask_sensitive_data secrets None) = Some (VStr "***") /\
  (exists m,
     lookup "password" (mask_sensitive_data secrets None) = Some (VStr m) /\
     m = "se*****23") /\
  lookup "nested" (mask_sensitive_data secrets None) =
    Some (VDict [("key", VStr "ne*********et"); ("value", VStr "normal_nested")]).
Proof.
  pose proof (mask_sensitive_data_masks_sensitive_keys secrets None)
    as (_ & _ & Hplain & Hlong & Hshort & _).
  split; [|split; [|split]].
  - apply (Hplain "username" (VStr "john_doe")); reflexivity.
  - apply (Hshort "Token" (VStr "abcd")); try reflexivity.
    intros s [= <-]. cbn. lia.
  - destruct (Hlong "password" "secret123") as (m & Hm & Heq & _);
      try reflexivity.
    + cbn. lia.
    + exists m. split; [exact Hm|exact Heq].
  - apply (Hplain "nested"
             (VDict [("key", VStr "nested_secret"); ("value", VStr "normal_nested")]));
      reflexivity.
Defined.

(* ================================================================== *)
(** ** Models *)

Module ModelFacts.

Section Generic.

Variable validate : annotation -> pyval -> option pyval.
Variable populate_by_name : bool.

Lemma model_init_stores fields data :
  forall self,
    model_init validate populate_by_name fields data = Return self ->
    NoDup (map field_name fields) ->
    forall f, In f fields ->
      exists stored,
        field_value validate populate_by_name f data = Return stored /\
        lookup (field_name f) self = Some stored.
Proof.
  induction fields as [|f0 rest IH]; intros self Hinit Hnd f Hin;
    [contradiction|].
  cbn [model_init] in Hinit.
  destruct (field_value validate populate_by_name f0 data) as [x0|] eqn:E0;
    [|discriminate].
  cbn [bind] in Hinit.
  destruct (model_init validate populate_by_name rest data) as [others|]
    eqn:Er; [|discriminate].
  cbn [bind] in Hinit. injection Hinit as <-.
  cbn [map] in Hnd. inversion Hnd as [|? ? Hnotin Hnd']; subst.
  destruct Hin as [<-|Hin].
  - exists x0. split; [exact E0|]. cbn [lookup].
    rewrite String.eqb_refl. reflexivity.
  - destruct (IH others eq_refl Hnd' f Hin) as (stored & Hv & Hl).
    exists stored. split; [exact Hv|]. cbn [lookup].
    destruct (String.eqb_spec (field_name f0) (field_name f)) as [E|_];
      [|exact Hl].
    exfalso. apply Hnotin. rewrite E. apply in_map. exact Hin.
Qed.

Lemma model_init_returns fields data :
  (forall f, In f fields ->
     exists stored, field_value validate populate_by_name f data = Return stored) ->
  exists self, model_init validate populate_by_name fields data = Return self.
Proof.
  induction fields as [|f0 rest IH]; intros H; cbn [model_init].
  - eexists. reflexivity.
  - destruct (H f0 (or_introl eq_refl)) as [x0 ->]. cbn [bind].
    destruct IH as [others ->].
    + intros f Hin. apply H. right. exact Hin.
    + eexists. reflexivity.
Qed.

Lemma model_dict_keys by_alias fields self :
  map fst (model_dict by_alias fields self) =
  map (fun f => if by_alias then field_alias f else field_name f) fields.
Proof.
  unfold model_dict. rewrite map_map. reflexivity.
Qed.

Lemma model_dict_lookup fields self :
  NoDup (map field_alias fields) ->
  forall f, In f fields ->
    lookup (field_alias f) (model_dict true fields self) =
    Some (get self (field_name f) VNone).
Proof.
  induction fields as [|f0 rest IH]; intros Hnd f Hin; [contradiction|].
  cbn [map] in Hnd. inversion Hnd as [|? ? Hnotin Hnd']; subst.
  unfold model_dict. cbn [map lookup]. fold (model_dict true rest self).
  destruct Hin as [<-|Hin].
  - rewrite String.eqb_refl. reflexivity.
  - destruct (String.eqb_spec (field_alias f0) (field_alias f)) as [E|_].
    + exfalso. apply Hnotin. rewrite E. apply in_map. exact Hin.
    + apply IH; assumption.
Qed.

End Generic.

Lemma Address_names_distinct : NoDup (map field_name Address_fields).
Proof.
  cbn. repeat (constructor; [cbn; intuition discriminate|]). constructor.
Qed.

Lemma Address_aliases_distinct : NoDup (map field_alias Address_fields).
Proof.
  cbn. repeat (constructor; [cbn; intuition discriminate|]). constructor.
Qed.

(** Every field of a built address comes back under its wire name with
    the value construction stored for it. *)
Lemma Address_roundtrip_field validate data out f :
  Address_roundtrip validate data = Return out ->
  In f Address_fields ->
  exists stored,
    field_value validate Address_populate_by_name f data = Return stored /\
    lookup (field_alias f) out = Some stored.
Proof.
  unfold Address_roundtrip, Address, Address_dict. intros H Hin.
  destruct (model_init validate Address_populate_by_name Address_fields data)
    as [self|] eqn:Einit; [|discriminate].
  cbn [bind] in H.
  replace out with (model_dict true Address_fields self) by congruence.
  destruct (model_init_stores _ _ _ _ _ Einit Address_names_distinct f Hin)
    as (stored & Hv & Hl).
  exists stored. split; [exact Hv|].
  rewrite (model_dict_lookup _ _ Address_aliases_distinct f Hin).
  unfold get. rewrite Hl. reflexivity.
Qed.

End ModelFacts.
Import ModelFacts.

(** The wire-format address of the test suite. *)
Definition wire_address : dict :=
  [("type", VStr "SHIPPING"); ("name", VStr "John Doe");
   ("street1", VStr "123 Main St"); ("city", VStr "San Francisco");
   ("state", VStr "CA"); ("postalCode", VStr "94105"); ("country", VStr "US");
   ("isDefault", VBool true); ("isValidated", VBool false)].

(** The same address as a response carries it, with its creation time. *)
Definition wire_address_with_timestamp : dict :=
  ("createdAt", VStr "2024-01-15T10:30:00Z") :: wire_address.

(** C8 as stated fails.  Even when validation converts nothing, the
    re-serialized dictionary is not the original one: it also has every
    field the original left out, with its default ("id" is [None]).  And
    whenever validation stores in each field a value of the annotated
    type, a creation time given as text does not come back as that text. *)
Lemma Address_roundtrip_is_not_the_identity :
  (exists out,
     Address_roundtrip typed_validator wire_address = Return out /\
     out <> wire_address /\
     lookup "id" wire_address = None /\
     lookup "id" out = Some VNone) /\
  (forall validate : annotation -> pyval -> option pyval,
     (forall a v stored, validate a v = Some stored -> has_type a stored = true) ->
     forall out,
       Address_roundtrip validate wire_address_with_timestamp = Return out ->
       lookup "createdAt" out <> lookup "createdAt" wire_address_with_timestamp).
Proof.
  split.
  - eexists. split; [reflexivity|]. split; [discriminate|]. split; reflexivity.
  - intros validate Hty out Hout.
    destruct (Address_roundtrip_field validate _ out
                (mkField "created_at" "createdAt" (TOptional TDatetime) (Some VNone))
                Hout) as (stored & Hv & Hl).
    { cbn. tauto. }
    cbn in Hl. rewrite Hl. cbn.
    unfold field_value in Hv. cbn in Hv.
    destruct (validate (TOptional TDatetime) (VStr "2024-01-15T10:30:00Z"))
      as [x|] eqn:Ev; [|discriminate].
    injection Hv as <-.
    apply Hty in Ev. intros [= ->]. discriminate Ev.
Qed.

(** C8, as the code has it.  An [Address] is built from a wire-format
    dictionary as soon as every field that is given validates and every
    field that is not given has a default.  Re-serialized with aliasing,
    it has exactly the wire names of the sixteen declared fields, in
    order; every wire name of the original is there with the validated
    form of the original value, which is the original value itself
    whenever validation leaves it unchanged; and every field the original
    does not give is there with its declared default. *)
Theorem Address_roundtrip_by_alias :
  forall (validate : annotation -> pyval -> option pyval) (data : dict),
    ((forall f, In f Address_fields ->
        match field_input Address_populate_by_name f data with
        | Some v => validate (field_annotation f) v <> None
        | None => field_default f <> None
        end) ->
     exists out, Address_roundtrip validate data = Return out) /\
    (forall out, Address_roundtrip validate data = Return out ->
       map fst out = map field_alias Address_fields /\
       (forall f v, In f Address_fields ->
          lookup (field_alias f) data = Some v ->
          exists stored,
            validate (field_annotation f) v = Some stored /\
            lookup (field_alias f) out = Some stored) /\
       (forall f v, In f Address_fields ->
          lookup (field_alias f) data = Some v ->
          validate (field_annotation f) v = Some v ->
          lookup (field_alias f) out = Some v) /\
       (forall f, In f Address_fields ->
          lookup (field_alias f) data = None ->
          lookup (field_name f) data = None ->
          exists default,
            field_default f = Some default /\
            lookup (field_alias f) out = Some default)).
Proof.
  intros validate data. split.
  - intros Hok. unfold Address_roundtrip, Address.
    destruct (model_init_returns validate Address_populate_by_name
                Address_fields data) as [self ->].
    + intros f Hin. specialize (Hok f Hin). unfold field_value.
      destruct (field_input Address_populate_by_name f data) as [v|].
      * destruct (validate (field_annotation f) v) as [x|];
          [eexists; reflexivity|contradiction].
      * destruct (field_default f) as [x|];
          [eexists; reflexivity|contradiction].
    + eexists. reflexivity.
  - intros out Hout.
    assert (Hstored : forall f v, In f Address_fields ->
              lookup (field_alias f) data = Some v ->
              exists stored,
                validate (field_annotation f) v = Some stored /\
                lookup (field_alias f) out = Some stored).
    { intros f v Hin Hv.
      destruct (Address_roundtrip_field validate data out f Hout Hin)
        as (stored & Hfv & Hl).
      unfold field_value, field_input in Hfv. rewrite Hv in Hfv.
      destruct (validate (field_annotation f) v) as [x|]; [|discriminate].
      exists x. split; [reflexivity|]. congruence. }
    split; [|split; [exact Hstored|split]].
    + unfold Address_roundtrip, Address in Hout.
      destruct (model_init validate Address_populate_by_name Address_fields data)
        as [self|]; [|discriminate].
      cbn [bind] in Hout.
      replace out with (Address_dict true self) by congruence.
      apply (model_dict_keys true).
    + intros f v Hin Hv Hsame.
      destruct (Hstored f v Hin Hv) as (stored & Hs & Hl). congruence.
    + intros f Hin Ha Hn.
      destruct (Address_roundtrip_field validate data out f Hout Hin)
        as (stored & Hfv & Hl).
      unfold field_value, field_input in Hfv. rewrite Ha in Hfv.
      unfold Address_populate_by_name in Hfv. rewrite Hn in Hfv.
      destruct (field_default f) as [x|]; [|discriminate].
      exists x. split; [reflexivity|]. congruence.
Qed.

Lemma Address_roundtrip_by_alias_witness :
  exists out,
    Address_roundtrip typed_validator wire_address = Return out /\
    lookup "postalCode" out = Some (VStr "94105") /\
    lookup "isDefault" out = Some (VBool true) /\
    lookup "updatedAt" out = Some VNone.
Proof.
  pose proof (Address_roundtrip_by_alias typed_validator wire_address)
    as [Hreturns Hshape].
  destruct Hreturns as [out Hout].
  { intros f Hin. cbn in Hin.
    repeat (destruct Hin as [<-|Hin]; [cbn; discriminate|]).
    contradiction. }
  exists out. split; [exact Hout|].
  destruct (Hshape out Hout) as (_ & _ & Hsame & Hdefault).
  split; [|split].
  - apply (Hsame (mkField "postal_code" "postalCode" TStr None));
      [cbn; tauto|reflexivity|reflexivity].
  - apply (Hsame (mkField "is_default" "isDefault" (TOptional TBool)
                    (Some (VBool false))));
      [cbn; tauto|reflexivity|reflexivity].
  - destruct (Hdefault (mkField "updated_at" "updatedAt" (TOptional TDatetime)
                          (Some VNone))) as (x & Hx & Hl);
      [cbn; tauto|reflexivity|reflexivity|].
    cbn in Hx. injection Hx as <-. exact Hl.
Defined.

(* ================================================================== *)
(** * Further properties *)

(** ** Text normalisation *)

Module TextFacts.

Lemma code_of_upper_char c :
  is_lower c = true -> code_of (upper_char c) = (code_of c - 32)%nat.
Proof.
  intros H. unfold upper_char. rewrite H. unfold code_of.
  apply nat_ascii_embedding.
  pose proof (nat_ascii_bounded c). lia.
Qed.

Lemma is_space_upper_char c : is_space (upper_char c) = is_space c.
Proof.
  destruct (is_lower c) eqn:L.
  - unfold is_space. rewrite (code_of_upper_char c L).
    unfold is_lower in L.
    apply andb_true_iff in L. destruct L as [L1 L2].
    apply Nat.leb_le in L1. apply Nat.leb_le in L2.
    repeat match goal with
    | |- context [(?a <=? ?b)%nat] => destruct (Nat.leb_spec a b); try lia
    end; reflexivity.
  - unfold upper_char. rewrite L. reflexivity.
Qed.

Lemma is_lower_upper_char c : is_lower (upper_char c) = false.
Proof.
  destruct (is_lower c) eqn:L.
  - unfold is_lower at 1. rewrite (code_of_upper_char c L).
    unfold is_lower in L.
    apply andb_true_iff in L. destruct L as [L1 L2].
    apply Nat.leb_le in L1. apply Nat.leb_le in L2.
    destruct (Nat.leb_spec 97 (code_of c - 32)); [lia|reflexivity].
  - unfold upper_char. rewrite L. exact L.
Qed.

Lemma upper_char_idem c : upper_char (upper_char c) = upper_char c.
Proof.
  unfold upper_char at 1. rewrite is_lower_upper_char. reflexivity.
Qed.

Lemma upper_idem s : upper (upper s) = upper s.
Proof.
  unfold upper. induction s as [|c s IH]; cbn; [reflexivity|].
  rewrite upper_char_idem, IH. reflexivity.
Qed.

Lemma lstrip_upper s : lstrip (upper s) = upper (lstrip s).
Proof.
  unfold upper. induction s as [|c s IH]; cbn; [reflexivity|].
  rewrite is_space_upper_char. destruct (is_space c); [exact IH|reflexivity].
Qed.

Lemma rstrip_upper s : rstrip (upper s) = upper (rstrip s).
Proof.
  unfold upper. induction s as [|c s IH]; cbn; [reflexivity|].
  rewrite IH, is_space_upper_char.
  destruct (rstrip s); cbn; [destruct (is_space c)|]; reflexivity.
Qed.

Lemma strip_upper_commute s : strip (upper s) = upper (strip s).
Proof. unfold strip. rewrite lstrip_upper, rstrip_upper. reflexivity. Qed.

(** A string that does not start with a space. *)
Definition no_leading_space (s : string) : Prop := lstrip s = s.

Lemma lstrip_no_leading_space s : no_leading_space (lstrip s).
Proof.
  unfold no_leading_space. induction s as [|c s IH]; cbn; [reflexivity|].
  destruct (is_space c) eqn:E; [exact IH|]. cbn. rewrite E. reflexivity.
Qed.

Lemma rstrip_keeps_no_leading_space s :
  no_leading_space s -> no_leading_space (rstrip s).
Proof.
  unfold no_leading_space. destruct s as [|c s]; [reflexivity|].
  cbn [lstrip]. destruct (is_space c) eqn:E.
  - intros H. exfalso.
    assert (L : forall t, (String.length (lstrip t) <= String.length t)%nat).
    { induction t as [|a t IHt]; cbn; [lia|].
      destruct (is_space a); cbn; lia. }
    pose proof (L s) as Hl. rewrite H in Hl. cbn in Hl. lia.
  - intros _. cbn [rstrip].
    destruct (rstrip s); rewrite ?E; cbn [lstrip]; rewrite E; reflexivity.
Qed.

Lemma rstrip_cons_empty c s :
  rstrip s = "" ->
  rstrip (String c s) = if is_space c then "" else String c "".
Proof. intros H. cbn [rstrip]. rewrite H. reflexivity. Qed.

Lemma rstrip_cons_nonempty c s :
  rstrip s <> "" -> rstrip (String c s) = String c (rstrip s).
Proof.
  intros H. cbn [rstrip]. destruct (rstrip s); [contradiction|reflexivity].
Qed.

Lemma rstrip_idem s : rstrip (rstrip s) = rstrip s.
Proof.
  induction s as [|c s IH]; [reflexivity|].
  destruct (string_dec (rstrip s) "") as [E|E].
  - rewrite (rstrip_cons_empty c s E).
    destruct (is_space c) eqn:Sc; [reflexivity|].
    rewrite rstrip_cons_empty by reflexivity. rewrite Sc. reflexivity.
  - rewrite (rstrip_cons_nonempty c s E).
    rewrite rstrip_cons_nonempty by (rewrite IH; exact E).
    rewrite IH. reflexivity.
Qed.

Lemma strip_idem s : strip (strip s) = strip s.
Proof.
  unfold strip.
  rewrite (rstrip_keeps_no_leading_space _ (lstrip_no_leading_space s)).
  apply rstrip_idem.
Qed.

(** [.strip().upper()] applied twice is [.strip().upper()]. *)
Lemma strip_upper_idem s : strip_upper (strip_upper s) = strip_upper s.
Proof.
  unfold strip_upper.
  rewrite strip_upper_commute, strip_idem, upper_idem. reflexivity.
Qed.

End TextFacts.
Import TextFacts.

Module ValidatorFacts.

(** Every character of the string satisfies [p]. *)
Fixpoint all_chars (p : ascii -> bool) (s : string) : bool :=
  match s with
  | EmptyString => true
  | String c rest => p c && all_chars p rest
  end.

Lemma all_chars_upper s : all_chars (fun c => negb (is_lower c)) (upper s) = true.
Proof.
  unfold upper. induction s as [|c s IH]; cbn; [reflexivity|].
  rewrite is_lower_upper_char, IH. reflexivity.
Qed.

Lemma digits_of_append a b :
  digits_of (a ++ b) = (digits_of a ++ digits_of b)%string.
Proof.
  induction a as [|c a IH]; cbn; [reflexivity|].
  destruct (is_digit c); cbn; rewrite IH; reflexivity.
Qed.

Lemma digits_of_length s : (String.length (digits_of s) <= String.length s)%nat.
Proof.
  induction s as [|c s IH]; cbn; [lia|].
  destruct (is_digit c); cbn; lia.
Qed.

End ValidatorFacts.
Import ValidatorFacts.

(** X1.  [format_tracking_number] is a normalisation: applying it to its
    own result changes nothing, and the result has no surrounding
    whitespace and no lower-case letter. *)
Theorem format_tracking_number_is_a_normal_form :
  forall tracking_number : string,
    let formatted := format_tracking_number tracking_number in
    format_tracking_number formatted = formatted /\
    strip formatted = formatted /\
    upper formatted = formatted /\
    all_chars (fun c => negb (is_lower c)) formatted = true.
Proof.
  intros tn formatted. unfold formatted, format_tracking_number.
  repeat split.
  - apply strip_upper_idem.
  - rewrite strip_upper_commute, strip_idem. reflexivity.
  - apply upper_idem.
  - apply all_chars_upper.
Qed.

(** X2.  The verdict of [validate_postal_code] does not depend on the
    case of the postal code, on whitespace around it, or on the case of
    the country code: it is the verdict for the stripped upper-case
    postal code and the upper-case country. *)
Theorem validate_postal_code_ignores_case_and_padding :
  forall postal_code country : string,
    validate_postal_code (VStr postal_code) (VStr country) =
    validate_postal_code (VStr (upper (strip postal_code)))
                         (VStr (upper country)).
Proof.
  intros pc country. unfold validate_postal_code.
  change (upper (strip (upper (strip pc))))
    with (strip_upper (strip_upper pc)).
  rewrite strip_upper_idem, upper_idem. reflexivity.
Qed.

(** X3.  [validate_phone] looks at digits only: inserting a character
    that is not a digit anywhere in the string does not change the
    verdict, and no string of fewer than 10 characters is accepted. *)
Theorem validate_phone_counts_digits_only :
  forall (before after : string) (c : ascii) (phone : string),
    (is_digit c = false ->
     validate_phone (VStr (before ++ String c after)) =
     validate_phone (VStr (before ++ after))) /\
    (validate_phone (VStr phone) = Return true ->
     (10 <= String.length phone)%nat).
Proof.
  intros before after c phone. split.
  - intros Hc. unfold validate_phone. rewrite !digits_of_append.
    cbn [digits_of]. rewrite Hc. reflexivity.
  - unfold validate_phone. intros Hr.
    assert (H : ((10 <=? String.length (digits_of phone))
                 && (String.length (digits_of phone) <=? 15))%nat = true)
      by congruence.
    apply andb_true_iff in H. destruct H as [H _].
    apply Nat.leb_le in H. pose proof (digits_of_length phone). lia.
Qed.

Lemma validate_phone_counts_digits_only_witness :
  validate_phone (VStr ("415" ++ String "-"%char "5550123")) =
  validate_phone (VStr ("415" ++ "5550123")) /\
  (10 <= String.length "(415) 555-0123")%nat.
Proof.
  split.
  - apply (validate_phone_counts_digits_only "415" "5550123" "-"%char "").
    reflexivity.
  - apply (validate_phone_counts_digits_only "" "" "-"%char "(415) 555-0123").
    reflexivity.
Defined.

(** ** The shape of an accepted email *)

Module EmailFacts.

Import PatternFacts.

Lemma in_lang_lit c s : in_lang (lit c) s <-> s = String c "".
Proof.
  unfold lit. split.
  - intros H. apply class_inv in H. destruct H as (c0 & -> & E).
    apply Ascii.eqb_eq in E. subst. reflexivity.
  - intros ->. apply in_class. apply Ascii.eqb_refl.
Qed.

Lemma in_lang_star_class p s :
  in_lang (Star (Class p)) s <-> all_chars p s = true.
Proof.
  split.
  - intros H. remember (Star (Class p)) as r eqn:Er.
    induction H as [| | | | | |r0 s1 s2 H1 _ H2 IH2]; try discriminate.
    + reflexivity.
    + injection Er as ->. apply class_inv in H1.
      destruct H1 as (c & -> & Hp). cbn. rewrite Hp. apply IH2. reflexivity.
  - induction s as [|c s IH]; cbn; intros H.
    + apply in_star_nil.
    + apply andb_true_iff in H. destruct H as [Hp Hs].
      change (String c s) with (String c "" ++ s)%string.
      apply in_star_cons; [apply in_class, Hp|apply IH, Hs].
Qed.

Lemma in_lang_plus_class p s :
  in_lang (plus (Class p)) s <-> s <> "" /\ all_chars p s = true.
Proof.
  unfold plus. split.
  - intros H. apply cat_inv in H. destruct H as (s1 & s2 & -> & H1 & H2).
    apply class_inv in H1. destruct H1 as (c & -> & Hp).
    apply in_lang_star_class in H2. cbn. rewrite Hp, H2.
    split; [discriminate|reflexivity].
  - intros [Hne H]. destruct s as [|c s]; [contradiction|].
    cbn in H. apply andb_true_iff in H. destruct H as [Hp Hs].
    change (String c s) with (String c "" ++ s)%string.
    apply in_cat; [apply in_class, Hp|apply in_lang_star_class, Hs].
Qed.

(** [local@domain.tld]: three non-empty parts without whitespace and
    without ["@"]. *)
Definition email_shape (s : string) : Prop :=
  exists local domain tld : string,
    s = (local ++ "@" ++ domain ++ "." ++ tld)%string /\
    local <> "" /\ domain <> "" /\ tld <> "" /\
    all_chars email_char local = true /\
    all_chars email_char domain = true /\
    all_chars email_char tld = true.

Lemma email_pattern_shape s : in_lang email_pattern s <-> email_shape s.
Proof.
  unfold email_pattern, email_shape. split.
  - intros H.
    apply cat_inv in H. destruct H as (l & r1 & -> & Hl & H).
    apply cat_inv in H. destruct H as (a & r2 & -> & Ha & H).
    apply cat_inv in H. destruct H as (d & r3 & -> & Hd & H).
    apply cat_inv in H. destruct H as (dot & t & -> & Hdot & Ht).
    apply in_lang_lit in Ha. apply in_lang_lit in Hdot. subst a dot.
    apply in_lang_plus_class in Hl. apply in_lang_plus_class in Hd.
    apply in_lang_plus_class in Ht.
    exists l, d, t. cbn [append]. intuition.
  - intros (l & d & t & -> & Hl & Hd & Ht & Al & Ad & At).
    apply in_cat; [apply in_lang_plus_class; auto|].
    change ("@" ++ d ++ "." ++ t)%string
      with (String "@"%char "" ++ (d ++ String "."%char "" ++ t))%string.
    apply in_cat; [apply in_lang_lit; reflexivity|].
    apply in_cat; [apply in_lang_plus_class; auto|].
    apply in_cat; [apply in_lang_lit; reflexivity|].
    apply in_lang_plus_class; auto.
Qed.

(** The number of occurrences of a character. *)
Fixpoint count_char (c : ascii) (s : string) : nat :=
  match s with
  | EmptyString => 0
  | String a rest => (if Ascii.eqb a c then 1 else 0) + count_char c rest
  end.

Lemma count_char_append c a b :
  count_char c (a ++ b) = (count_char c a + count_char c b)%nat.
Proof.
  induction a as [|x a IH]; cbn; [reflexivity|]. rewrite IH. lia.
Qed.

Lemma count_char_excluded p c s :
  p c = false -> all_chars p s = true -> count_char c s = 0%nat.
Proof.
  intros Hc. induction s as [|x s IH]; cbn; [reflexivity|].
  intros H. apply andb_true_iff in H. destruct H as [Hx Hs].
  destruct (Ascii.eqb_spec x c) as [->|_]; [congruence|].
  rewrite (IH Hs). reflexivity.
Qed.

Lemma email_shape_one_at s : email_shape s -> count_char "@"%char s = 1%nat.
Proof.
  intros (l & d & t & -> & _ & _ & _ & Al & Ad & At).
  rewrite !count_char_append.
  rewrite (count_char_excluded email_char "@"%char l eq_refl Al).
  rewrite (count_char_excluded email_char "@"%char d eq_refl Ad).
  rewrite (count_char_excluded email_char "@"%char t eq_refl At).
  reflexivity.
Qed.

End EmailFacts.
Import EmailFacts.

(** X4.  [validate_email] accepts exactly the strings of the shape
    local@domain.tld, where the three parts are non-empty and hold neither
    whitespace nor ["@"], and such a string followed by one line feed.
    An accepted string therefore holds exactly one ["@"]. *)
Theorem validate_email_accepts_exactly_the_shape :
  forall email : string,
    (validate_email (VStr email) = Return true <->
     email_shape email \/
     exists s, email = (s ++ String "010"%char "")%string /\ email_shape s) /\
    (validate_email (VStr email) = Return true ->
     count_char "@"%char email = 1%nat).
Proof.
  intros email.
  assert (Hiff : validate_email (VStr email) = Return true <->
     email_shape email \/
     exists s, email = (s ++ String "010"%char "")%string /\ email_shape s).
  { unfold validate_email. split.
    - intros H.
      assert (Hm : re_match email_pattern email = true) by congruence.
      apply PatternFacts.re_match_spec in Hm.
      destruct Hm as [Hm|(s & E & Hm)].
      + left. apply email_pattern_shape, Hm.
      + right. exists s. split; [exact E|apply email_pattern_shape, Hm].
    - intros H. f_equal. apply PatternFacts.re_match_spec.
      destruct H as [H|(s & E & H)].
      + left. apply email_pattern_shape, H.
      + right. exists s. split; [exact E|apply email_pattern_shape, H]. }
  split; [exact Hiff|].
  intros H. apply Hiff in H. destruct H as [H|(s & -> & H)].
  - apply email_shape_one_at, H.
  - rewrite count_char_append, (email_shape_one_at s H). reflexivity.
Qed.

Lemma validate_email_accepts_exactly_the_shape_witness :
  count_char "@"%char "john@example.com" = 1%nat.
Proof.
  apply (validate_email_accepts_exactly_the_shape "john@example.com").
  reflexivity.
Defined.

(** ** Retry: counts and delays *)

Module RetryBounds.

(** The time slept in total. *)
Definition total (delays : list Z) : Z := fold_right Z.add 0 delays.

Lemma total_app a b : total (a ++ b) = total a + total b.
Proof. unfold total. induction a as [|x a IH]; cbn; [reflexivity|]. rewrite IH. lia. Qed.

Lemma range_of_nat_succ (k : nat) :
  range (Z.of_nat (S k)) = (range (Z.of_nat k) ++ [Z.of_nat k])%list.
Proof.
  unfold range. rewrite !Nat2Z.id, seq_S, map_app. reflexivity.
Qed.

Lemma total_delays base_delay (k : nat) :
  total (rev (map (fun attempt => base_delay * 2 ^ attempt) (range (Z.of_nat k))))
  = base_delay * (2 ^ Z.of_nat k - 1).
Proof.
  induction k as [|k IH].
  - cbn. lia.
  - rewrite range_of_nat_succ, map_app, rev_app_distr, total_app, IH.
    cbn [map rev app total fold_right].
    replace (Z.of_nat (S k)) with (Z.of_nat k + 1) by lia.
    rewrite Z.pow_add_r by lia. lia.
Qed.

Lemma firstn_seq_le (k : nat) :
  forall start len, (k <= len)%nat -> firstn k (seq start len) = seq start k.
Proof.
  induction k as [|k IH]; intros start len H; [reflexivity|].
  destruct len as [|len]; [lia|]. cbn. rewrite IH by lia. reflexivity.
Qed.

Lemma firstn_range (k : nat) (n : Z) :
  (k <= Z.to_nat n)%nat -> firstn k (range n) = range (Z.of_nat k).
Proof.
  intros H. unfold range.
  rewrite firstn_map, firstn_seq_le, Nat2Z.id by exact H. reflexivity.
Qed.

Lemma in_range_last (n : Z) : 0 <= n -> In n (range (n + 1)).
Proof.
  intros H. unfold range. apply in_map_iff. exists (Z.to_nat n).
  split; [lia|]. apply in_seq. lia.
Qed.

Lemma range_negative (n : Z) : n <= 0 -> range n = [].
Proof.
  intros H. unfold range. replace (Z.to_nat n) with 0%nat by lia. reflexivity.
Qed.

Section Loop.

Context {A : Type}.
Variable func : world -> outcome A * world.
Variable max_retries base_delay : Z.

Hypothesis func_effect :
  forall w res w1, func w = (res, w1) ->
    slept w1 = slept w /\ List.length (sent w1) = S (List.length (sent w)).

(** The loop either leaves at its call number [k + 1], having slept
    before each of the [k] retries, or runs out of attempts without
    meeting the last allowed one. *)
Lemma retry_loop_exact attempts :
  forall last w res w1,
    retry_loop func max_retries base_delay attempts last w = (res, w1) ->
    (exists k : nat,
       (k < List.length attempts)%nat /\
       slept w1 =
         (rev (map (fun attempt => base_delay * 2 ^ attempt) (firstn k attempts))
          ++ slept w)%list /\
       List.length (sent w1) = (List.length (sent w) + k + 1)%nat) \/
    ~ In max_retries attempts.
Proof.
  induction attempts as [|attempt rest IH]; intros last w res w1;
    cbn [retry_loop].
  - intros _. right. intros [].
  - destruct (func w) as [[v|e] w0] eqn:Hf;
      destruct (func_effect _ _ _ Hf) as [Hs Hl].
    + intros [= <- <-]. left. exists 0%nat. cbn. repeat split; try lia. exact Hs.
    + destruct (Z.eqb_spec attempt max_retries) as [Ha|Ha].
      { intros [= <- <-]. left. exists 0%nat. cbn.
        repeat split; try lia. exact Hs. }
      destruct (is_retriable_error e); cbn [negb].
      * intros Hr. apply IH in Hr. destruct Hr as [(k & Hk & Hslept & Hsent)|Hn].
        -- left. exists (S k).
           cbn [firstn map rev List.length sleep sent slept] in *.
           repeat split; try lia.
           rewrite Hslept, Hs, <- app_assoc. reflexivity.
        -- right. intros [H|H]; [congruence|contradiction].
      * intros [= <- <-]. left. exists 0%nat. cbn.
        repeat split; try lia. exact Hs.
Qed.

End Loop.

End RetryBounds.
Import RetryBounds.

(** X5.  For a function that sends one request per call, a non-negative
    [max_retries] and a [base_delay] whose delays [time.sleep] accepts
    (none negative or too large), [retry_with_backoff] makes [k + 1]
    calls for some [k <= max_retries], sleeps exactly
    [base_delay * 2 ^ attempt] before retry number [attempt + 1], never
    after the last call, and so sleeps [base_delay * (2 ^ k - 1)] in
    total. *)
Theorem retry_with_backoff_calls_and_delays :
  forall (A : Type) (func : world -> outcome A * world)
         (max_retries base_delay : Z),
    (forall w res w1, func w = (res, w1) ->
       slept w1 = slept w /\ List.length (sent w1) = S (List.length (sent w))) ->
    0 <= max_retries ->
    (forall attempt, 0 <= attempt < max_retries ->
       sleep_accepts (base_delay * 2 ^ attempt)) ->
    forall w res w1,
      retry_with_backoff func max_retries base_delay w = (res, w1) ->
      exists k : nat,
        Z.of_nat k <= max_retries /\
        List.length (sent w1) = (List.length (sent w) + k + 1)%nat /\
        slept w1 =
          (rev (map (fun attempt => base_delay * 2 ^ attempt)
                    (range (Z.of_nat k))) ++ slept w)%list /\
        total (slept w1) = total (slept w) + base_delay * (2 ^ Z.of_nat k - 1).
Proof.
  intros A func max_retries base_delay Heff Hmax _ w res w1 H.
  unfold retry_with_backoff in H.
  apply (retry_loop_exact func max_retries base_delay Heff) in H.
  destruct H as [(k & Hk & Hslept & Hsent)|Hn].
  - assert (Hlen : List.length (range (max_retries + 1))
                   = Z.to_nat (max_retries + 1)).
    { unfold range. rewrite length_map, length_seq. reflexivity. }
    rewrite Hlen in Hk.
    rewrite firstn_range in Hslept by lia.
    exists k. repeat split; try assumption; try lia.
    rewrite Hslept, total_app, total_delays. lia.
  - exfalso. apply Hn. apply in_range_last. exact Hmax.
Qed.

Lemma retry_with_backoff_calls_and_delays_witness :
  exists k : nat,
    Z.of_nat k <= 5 /\
    total (slept (snd (retry_with_backoff
                         (make_request (always (Httpx.Response 503 None))
                                       profile_request)
                         5 2 initial_world)))
    = 0 + 2 * (2 ^ Z.of_nat k - 1).
Proof.
  assert (Hsleep : forall attempt, 0 <= attempt < 5 ->
                     sleep_accepts (2 * 2 ^ attempt)).
  { intros attempt H. unfold sleep_accepts.
    assert (attempt = 0 \/ attempt = 1 \/ attempt = 2 \/ attempt = 3
            \/ attempt = 4) as [->|[->|[->|[->| ->]]]] by lia;
      cbn; lia. }
  destruct (retry_with_backoff_calls_and_delays pyval
              (make_request (always (Httpx.Response 503 None)) profile_request)
              5 2 (make_request_effect _ _) ltac:(lia) Hsleep initial_world
              _ _ (surjective_pairing _))
    as (k & Hk & _ & _ & Ht).
  exists k. split; [exact Hk|exact Ht].
Defined.

(** X6.  With a negative [max_retries] the loop of [retry_with_backoff]
    has no iteration: the function is never called, nothing is slept, and
    the final [raise last_exception] raises [TypeError], as
    [last_exception] is still [None]. *)
Theorem retry_with_backoff_negative_max_retries :
  forall (A : Type) (func : world -> outcome A * world)
         (max_retries base_delay : Z) (w : world),
    max_retries < 0 ->
    retry_with_backoff func max_retries base_delay w
      = (Raise (builtin TypeError), w).
Proof.
  intros A func max_retries base_delay w H. unfold retry_with_backoff.
  rewrite range_negative by lia. reflexivity.
Qed.

Lemma retry_with_backoff_negative_max_retries_witness :
  retry_with_backoff
    (make_request (always (Httpx.Response 200 None)) profile_request)
    (-1) 1 initial_world
  = (Raise (builtin TypeError), initial_world).
Proof.
  apply (retry_with_backoff_negative_max_retries pyval). lia.
Defined.

(** ** What a request returns and raises *)

Module OutcomeFacts.

Lemma create_error_is_atoshipError status_code response_data e :
  create_error_from_response status_code response_data = Return e ->
  isinstance e atoshipError = true.
Proof.
  unfold create_error_from_response.
  repeat match goal with
  | |- context [Z.eqb status_code ?k] => destruct (Z.eqb status_code k)
  end; try (intros [= <-]; reflexivity).
  - unfold new_RateLimitError.
    destruct (truthy _); [destruct (get response_data "details" _)|];
      try discriminate; intros [= <-]; reflexivity.
  - destruct (_ && _); intros [= <-]; reflexivity.
Qed.

(** The JSON body of a response, or the stand-in for a body that is not
    JSON. *)
Definition body_of (json : option pyval) : pyval :=
  match json with
  | Some v => v
  | None => VDict [("error", VStr "Invalid JSON response")]
  end.

Lemma _handle_response_raises status_code json e :
  _handle_response status_code json = Raise e ->
  Httpx.is_success status_code = false /\
  (isinstance e atoshipError = true \/ e = builtin AttributeError).
Proof.
  unfold _handle_response. fold (body_of json).
  destruct (Httpx.is_success status_code); [discriminate|].
  intros H. split; [reflexivity|].
  destruct (body_of json); try (injection H as <-; right; reflexivity).
  destruct (create_error_from_response status_code d) as [err|err] eqn:E;
    cbn [bind] in H; injection H as <-.
  - left. exact (create_error_is_atoshipError _ _ _ E).
  - right. exact (proj1 (create_error_raises _ _ _ E)).
Qed.

Section Server.

Variable server : list request -> Httpx.result.

Lemma make_request_returns r w v w1 :
  make_request server r w = (Return v, w1) ->
  exists status_code json,
    server (r :: sent w) = Httpx.Response status_code json /\
    Httpx.is_success status_code = true /\
    v = body_of json.
Proof.
  unfold make_request. cbn [sent].
  destruct (server (r :: sent w)) as [status_code json| | |];
    try discriminate.
  intros [= H _]. exists status_code, json. split; [reflexivity|].
  unfold _handle_response in H. fold (body_of json) in H.
  destruct (Httpx.is_success status_code).
  - split; [reflexivity|congruence].
  - destruct (body_of json); try discriminate.
    destruct (create_error_from_response status_code d); discriminate.
Qed.

End Server.

(** The retry loop ends on a call of [func] whose result and world are
    its own, unless it runs out of attempts without meeting the last one
    allowed. *)
Lemma retry_loop_last_call {A : Type} (func : world -> outcome A * world)
    (max_retries base_delay : Z) attempts :
  forall last w res w1,
    retry_loop func max_retries base_delay attempts last w = (res, w1) ->
    (exists w0, func w0 = (res, w1)) \/ ~ In max_retries attempts.
Proof.
  induction attempts as [|attempt rest IH]; intros last w res w1;
    cbn [retry_loop].
  - intros _. right. intros [].
  - destruct (func w) as [[v0|e0] w0] eqn:Hf.
    + intros [= <- <-]. left. exists w. exact Hf.
    + destruct (Z.eqb_spec attempt max_retries) as [Ha|Ha].
      { intros [= <- <-]. left. exists w. exact Hf. }
      destruct (is_retriable_error e0); cbn [negb].
      * intros Hr. apply IH in Hr. destruct Hr as [Hr|Hn]; [left; exact Hr|].
        right. intros [H|H]; [congruence|contradiction].
      * intros [= <- <-]. left. exists w. exact Hf.
Qed.

End OutcomeFacts.
Import OutcomeFacts.

(** X7.  The decorated attempt of [_make_request] (the closure
    [make_request] under the bare [@retry_with_backoff], run once the URL
    and the body have been prepared) absorbs up to three transient
    failures: when the transport answers 503 to the first [n] calls and
    200 afterwards, it returns the body after [n + 1] calls when
    [n <= 3], having slept 1, 2, 4 seconds before the retries; when
    [n >= 4] it gives up after four calls with a [ServerError]. *)
Theorem transient_failures_are_absorbed_up_to_three :
  forall (n : nat) (body : pyval) (r : request),
    let attempt := make_request (fails_then_succeeds n body) r in
    ((n <= 3)%nat ->
     retry_with_backoff attempt 3 1 initial_world
     = (Return body, mkWorld (repeat r (n + 1)) (rev (firstn n [1; 2; 4])))) /\
    ((4 <= n)%nat ->
     retry_with_backoff attempt 3 1 initial_world
     = (Raise (new_error ServerError (VStr "Invalid JSON response") VNone
                 (VDict [])),
        mkWorld (repeat r 4) [4; 2; 1])).
Proof.
  intros n body r attempt. unfold attempt. split; intros H.
  - destruct n as [|[|[|[|n]]]]; try lia; reflexivity.
  - destruct n as [|[|[|[|n]]]]; try lia. reflexivity.
Qed.

Lemma transient_failures_are_absorbed_up_to_three_witness :
  retry_with_backoff
    (make_request (fails_then_succeeds 2 (VDict [("success", VBool true)]))
                  profile_request)
    3 1 initial_world
  = (Return (VDict [("success", VBool true)]),
     mkWorld (repeat profile_request 3) [2; 1]) /\
  retry_with_backoff
    (make_request (fails_then_succeeds 7 VNone) profile_request)
    3 1 initial_world
  = (Raise (new_error ServerError (VStr "Invalid JSON response") VNone
              (VDict [])),
     mkWorld (repeat profile_request 4) [4; 2; 1]).
Proof.
  split.
  - apply (proj1 (transient_failures_are_absorbed_up_to_three 2
                    (VDict [("success", VBool true)]) profile_request)).
    lia.
  - apply (proj2 (transient_failures_are_absorbed_up_to_three 7 VNone
                    profile_request)).
    lia.
Defined.

(** X8.  [_handle_response] returns exactly for the 2xx statuses, and
    then returns the JSON body untouched, or the dictionary
    [{'error': 'Invalid JSON response'}] when the body is not JSON; for
    every other status it raises, an SDK error or, when the body is JSON
    but not usable as an error object, [AttributeError]. *)
Theorem _handle_response_returns_exactly_on_success :
  forall (status_code : Z) (json : option pyval),
    (Httpx.is_success status_code = true ->
     _handle_response status_code json = Return (body_of json)) /\
    (Httpx.is_success status_code = false ->
     exists e,
       _handle_response status_code json = Raise e /\
       (isinstance e atoshipError = true \/ e = builtin AttributeError)).
Proof.
  intros status_code json. split; intros H.
  - unfold _handle_response. rewrite H. reflexivity.
  - destruct (_handle_response status_code json) as [v|e] eqn:E.
    + exfalso. unfold _handle_response in E. rewrite H in E.
      fold (body_of json) in E.
      destruct (body_of json); try discriminate.
      destruct (create_error_from_response status_code d); discriminate.
    + exists e. split; [reflexivity|].
      exact (proj2 (_handle_response_raises _ _ _ E)).
Qed.

Lemma _handle_response_returns_exactly_on_success_witness :
  _handle_response 204 None
    = Return (VDict [("error", VStr "Invalid JSON response")]) /\
  exists e,
    _handle_response 302 (Some (VList [])) = Raise e /\
    (isinstance e atoshipError = true \/ e = builtin AttributeError).
Proof.
  split.
  - apply (_handle_response_returns_exactly_on_success 204 None). reflexivity.
  - apply (_handle_response_returns_exactly_on_success 302 (Some (VList []))).
    reflexivity.
Defined.

(** X9.  The retry wrapper reports its last call: with a non-negative
    [max_retries] (and delays [time.sleep] accepts), what
    [retry_with_backoff] returns or raises, and the world it leaves, are
    exactly those of one call of the function, so nothing is slept or
    sent after that call and earlier errors are dropped.  For the
    decorated attempt of [_make_request] that call is the one that sent
    the last request, and a value returned is the body of the 2xx answer
    to that request. *)
Theorem retry_with_backoff_reports_its_last_call :
  (forall (A : Type) (func : world -> outcome A * world)
          (max_retries base_delay : Z),
     0 <= max_retries ->
     (forall attempt, 0 <= attempt < max_retries ->
        sleep_accepts (base_delay * 2 ^ attempt)) ->
     forall w res w1,
       retry_with_backoff func max_retries base_delay w = (res, w1) ->
       exists w0, func w0 = (res, w1)) /\
  (forall server r w res w1,
     retry_with_backoff (make_request server r) 3 1 w = (res, w1) ->
     exists before,
       sent w1 = r :: before /\
       make_request server r (mkWorld before (slept w1)) = (res, w1) /\
       forall v, res = Return v ->
         exists status_code json,
           server (sent w1) = Httpx.Response status_code json /\
           Httpx.is_success status_code = true /\
           v = body_of json).
Proof.
  assert (Hlast : forall (A : Type) (func : world -> outcome A * world)
                         (max_retries base_delay : Z),
             0 <= max_retries ->
             forall w res w1,
               retry_with_backoff func max_retries base_delay w = (res, w1) ->
               exists w0, func w0 = (res, w1)).
  { intros A func max_retries base_delay Hmax w res w1 H.
    unfold retry_with_backoff in H. apply retry_loop_last_call in H.
    destruct H as [H|Hn]; [exact H|].
    exfalso. apply Hn. apply in_range_last. exact Hmax. }
  split.
  - intros A func max_retries base_delay Hmax _. apply Hlast. exact Hmax.
  - intros server r w res w1 H.
    apply Hlast in H; [|lia]. destruct H as [w0 Hm].
    assert (Hw : w1 = mkWorld (r :: sent w0) (slept w0)).
    { unfold make_request in Hm. cbn [sent slept] in Hm.
      destruct (server (r :: sent w0)); injection Hm as _ <-; reflexivity. }
    exists (sent w0). subst w1. cbn [sent slept].
    split; [reflexivity|]. split.
    + destruct w0 as [s0 l0]. exact Hm.
    + intros v ->. exact (make_request_returns _ _ _ _ _ Hm).
Qed.

Lemma retry_with_backoff_reports_its_last_call_witness :
  exists status_code json,
    fails_then_succeeds 2 (VDict [("success", VBool true)])
      [profile_request; profile_request; profile_request]
      = Httpx.Response status_code json /\
    Httpx.is_success status_code = true /\
    VDict [("success", VBool true)] = body_of json.
Proof.
  destruct (proj2 retry_with_backoff_reports_its_last_call
              (fails_then_succeeds 2 (VDict [("success", VBool true)]))
              profile_request initial_world
              (Return (VDict [("success", VBool true)]))
              (mkWorld [profile_request; profile_request; profile_request]
                       [2; 1])
              eq_refl)
    as (before & _ & _ & Hv).
  exact (Hv _ eq_refl).
Defined.

(** ** Construction of the client *)

Module ConstructionFacts.

(** The last character of a string. *)
Fixpoint last_char (s : string) : option ascii :=
  match s with
  | EmptyString => None
  | String c EmptyString => Some c
  | String _ rest => last_char rest
  end.

Lemma rstrip_slash_cons c s :
  rstrip_slash (String c s) =
  match rstrip_slash s with
  | EmptyString =>
      if Ascii.eqb c "/"%char then EmptyString else String c EmptyString
  | kept => String c kept
  end.
Proof. reflexivity. Qed.

Lemma rstrip_slash_removes_a_suffix s :
  exists n : nat, s = (rstrip_slash s ++ repeat_char "/"%char n)%string.
Proof.
  induction s as [|c s [n IH]]; [exists 0%nat; reflexivity|].
  rewrite rstrip_slash_cons.
  destruct (rstrip_slash s) as [|k kept] eqn:E.
  - cbn [append] in IH. destruct (Ascii.eqb_spec c "/"%char) as [->|_].
    + exists (S n). cbn. rewrite <- IH. reflexivity.
    + exists n. cbn. rewrite <- IH. reflexivity.
  - exists n. cbn [append]. cbn [append] in IH. rewrite <- IH. reflexivity.
Qed.

Lemma rstrip_slash_no_trailing_slash s :
  last_char (rstrip_slash s) <> Some "/"%char.
Proof.
  induction s as [|c s IH]; [discriminate|].
  rewrite rstrip_slash_cons.
  destruct (rstrip_slash s) as [|k kept] eqn:E.
  - destruct (Ascii.eqb_spec c "/"%char) as [->|Hne]; [discriminate|].
    cbn. congruence.
  - exact IH.
Qed.

End ConstructionFacts.
Import ConstructionFacts.

(** X10.  The constructor of the client succeeds exactly when the API key
    is a non-empty string, and raises [ConfigurationError] otherwise.
    The client it builds keeps the key, the timeout, the retry count and
    the debug flag as given, and its base URL is the given one without
    its trailing slashes: it never ends with a slash. *)
Theorem new_atoshipSDK_accepts_exactly_a_non_empty_key :
  forall (api_key : pyval) (base_url : string) (timeout max_retries : Z)
         (debug : bool),
    (forall k, api_key = VStr k -> k <> "" ->
       exists sdk n,
         new_atoshipSDK api_key base_url timeout max_retries debug = Return sdk /\
         _api_key sdk = k /\ _timeout sdk = timeout /\
         _max_retries sdk = max_retries /\ _debug sdk = debug /\
         base_url = (_base_url sdk ++ repeat_char "/"%char n)%string /\
         last_char (_base_url sdk) <> Some "/"%char) /\
    ((forall k, api_key = VStr k -> k = "") ->
       exists e,
         new_atoshipSDK api_key base_url timeout max_retries debug = Raise e /\
         cls e = ConfigurationError).
Proof.
  intros api_key base_url timeout max_retries debug. split.
  - intros k -> Hk.
    destruct (rstrip_slash_removes_a_suffix base_url) as [n Hn].
    exists (mkSDK k (rstrip_slash base_url) timeout max_retries debug), n.
    cbn. destruct (String.eqb_spec k "") as [E|_]; [contradiction|].
    repeat split; try assumption.
    apply rstrip_slash_no_trailing_slash.
  - intros H. unfold new_atoshipSDK.
    destruct api_key; try (eexists; split; reflexivity).
    rewrite (H s eq_refl). eexists. split; reflexivity.
Qed.

Lemma new_atoshipSDK_accepts_exactly_a_non_empty_key_witness :
  (exists sdk n,
     new_atoshipSDK (VStr "key") "https://api.atoship.com//" 30 3 false
       = Return sdk /\
     _api_key sdk = "key" /\ _timeout sdk = 30 /\
     _max_retries sdk = 3 /\ _debug sdk = false /\
     "https://api.atoship.com//" = (_base_url sdk ++ repeat_char "/"%char n)%string /\
     last_char (_base_url sdk) <> Some "/"%char) /\
  (exists e,
     new_atoshipSDK (VInt 42) default_base_url 30 3 false = Raise e /\
     cls e = ConfigurationError).
Proof.
  split.
  - apply (proj1 (new_atoshipSDK_accepts_exactly_a_non_empty_key
                    (VStr "key") "https://api.atoship.com//" 30 3 false) "key");
      [reflexivity|discriminate].
  - apply (new_atoshipSDK_accepts_exactly_a_non_empty_key
             (VInt 42) default_base_url 30 3 false).
    intros k H. discriminate H.
Defined.

(** ** Address normalisation *)

Module AddressFacts.

Lemma lookup_set_item_same key v d : lookup key (set_item key v d) = Some v.
Proof.
  induction d as [|[k x] rest IH]; cbn.
  - rewrite String.eqb_refl. reflexivity.
  - destruct (String.eqb_spec k key) as [->|Hne]; cbn.
    + rewrite String.eqb_refl. reflexivity.
    + destruct (String.eqb_spec k key); [contradiction|exact IH].
Qed.

Lemma lookup_set_item_other key k v d :
  k <> key -> lookup k (set_item key v d) = lookup k d.
Proof.
  intros Hne. induction d as [|[k0 x] rest IH]; cbn.
  - destruct (String.eqb_spec key k); [congruence|reflexivity].
  - destruct (String.eqb_spec k0 key) as [->|H0]; cbn.
    + destruct (String.eqb_spec key k); [congruence|reflexivity].
    + destruct (String.eqb_spec k0 k); [reflexivity|exact IH].
Qed.

(** Assigning to a key that is present keeps the keys, in order. *)
Lemma keys_set_item key v d :
  contains key d = true -> map fst (set_item key v d) = map fst d.
Proof.
  unfold contains. induction d as [|[k x] rest IH]; cbn; [discriminate|].
  destruct (String.eqb_spec k key) as [->|Hne]; cbn; [reflexivity|].
  intros H. rewrite IH by exact H. reflexivity.
Qed.

(** Assigning to a key the value it has changes nothing. *)
Lemma set_item_same key v d :
  lookup key d = Some v -> set_item key v d = d.
Proof.
  induction d as [|[k x] rest IH]; cbn; [discriminate|].
  destruct (String.eqb_spec k key) as [->|Hne].
  - intros [= ->]. reflexivity.
  - intros H. rewrite IH by exact H. reflexivity.
Qed.

Lemma contains_set_item key k v d :
  contains key d = true -> contains k (set_item key v d) = contains k d.
Proof.
  intros H. unfold contains in *.
  destruct (String.eqb_spec k key) as [->|Hne].
  - rewrite lookup_set_item_same. destruct (lookup key d); [reflexivity|discriminate].
  - rewrite lookup_set_item_other by exact Hne. reflexivity.
Qed.

(** The value under [key], if any, is a string that [f] leaves as it is. *)
Definition settled (f : string -> string) (guard : pyval -> bool)
    (key : string) (d : dict) : Prop :=
  match lookup key d with
  | Some v => guard v = true -> exists s, v = VStr s /\ f s = s
  | None => True
  end.

(** One guarded assignment [d[key] = f(d[key])] of [normalize_address]. *)
Definition step (f : string -> string) (guard : pyval -> bool)
    (key : string) (d : dict) : outcome dict :=
  match lookup key d with
  | Some v =>
      if guard v then
        x <- str_method f v ;; Return (set_item key x d)
      else Return d
  | None => Return d
  end.

Definition always_true (v : pyval) : bool := true.

Section Step.

Variable f : string -> string.
Hypothesis f_idem : forall s, f (f s) = f s.
Variable guard : pyval -> bool.

Lemma step_spec key d d' :
  step f guard key d = Return d' ->
  (forall k, k <> key -> lookup k d' = lookup k d) /\
  (forall k, contains k d' = contains k d) /\
  map fst d' = map fst d /\
  settled f guard key d'.
Proof.
  unfold step, settled.
  destruct (lookup key d) as [v|] eqn:E.
  - destruct (guard v) eqn:G.
    + destruct v; try discriminate. cbn [str_method bind]. intros [= <-].
      assert (Hc : contains key d = true) by (unfold contains; rewrite E; reflexivity).
      repeat split.
      * intros k Hk. apply lookup_set_item_other, Hk.
      * intros k. apply contains_set_item, Hc.
      * apply keys_set_item, Hc.
      * rewrite lookup_set_item_same. intros _. eexists. split; [reflexivity|apply f_idem].
    + intros [= <-]. repeat split. rewrite E, G. discriminate.
  - intros [= <-]. repeat split. rewrite E. exact I.
Qed.

Lemma step_fixed key d : settled f guard key d -> step f guard key d = Return d.
Proof.
  unfold step, settled. destruct (lookup key d) as [v|] eqn:E; [|reflexivity].
  destruct (guard v); [|reflexivity].
  intros H. destruct (H eq_refl) as (s & -> & Hs).
  cbn [str_method bind]. rewrite Hs, (set_item_same _ _ _ E). reflexivity.
Qed.

End Step.

Lemma trim_fields_step fields : forall d,
  trim_fields fields d =
  match fields with
  | [] => Return d
  | field :: rest =>
      d1 <- step strip truthy field d ;; trim_fields rest d1
  end.
Proof.
  destruct fields as [|field rest]; intros d; [reflexivity|].
  cbn [trim_fields]. unfold step.
  destruct (lookup field d) as [v|]; [|reflexivity].
  destruct (truthy v); [|reflexivity].
  destruct (str_method strip v); reflexivity.
Qed.

Lemma trim_fields_spec fields :
  NoDup fields ->
  forall d d',
    trim_fields fields d = Return d' ->
    (forall k, ~ In k fields -> lookup k d' = lookup k d) /\
    (forall k, contains k d' = contains k d) /\
    map fst d' = map fst d /\
    (forall field, In field fields -> settled strip truthy field d').
Proof.
  induction 1 as [|field rest Hnotin _ IH]; intros d d'.
  - intros [= <-]. repeat split. intros field [].
  - rewrite trim_fields_step.
    destruct (step strip truthy field d) as [d1|] eqn:E1; [|discriminate].
    cbn [bind]. intros Hrest.
    destruct (step_spec strip strip_idem truthy _ _ _ E1) as (L1 & C1 & K1 & S1).
    destruct (IH _ _ Hrest) as (L2 & C2 & K2 & S2).
    repeat split.
    + intros k Hk. rewrite L2 by (intros H; apply Hk; right; exact H).
      apply L1. intros ->. apply Hk. left. reflexivity.
    + intros k. rewrite C2. apply C1.
    + rewrite K2. exact K1.
    + intros g [<-|Hg]; [|apply S2, Hg].
      unfold settled. rewrite (L2 field Hnotin). exact S1.
Qed.

Lemma trim_fields_fixed fields d :
  (forall field, In field fields -> settled strip truthy field d) ->
  trim_fields fields d = Return d.
Proof.
  induction fields as [|field rest IH]; intros H; [reflexivity|].
  rewrite trim_fields_step, step_fixed by (apply H; left; reflexivity).
  cbn [bind]. apply IH. intros g Hg. apply H. right. exact Hg.
Qed.

(** [normalize_address] as its four stages. *)
Lemma normalize_address_steps address :
  normalize_address address =
  (d1 <- (if contains "country" address
          then step strip_upper always_true "postalCode" address
          else Return address) ;;
   d2 <- step strip_upper always_true "country" d1 ;;
   d3 <- step strip_upper always_true "state" d2 ;;
   trim_fields string_fields d3).
Proof.
  assert (Hstep : forall key d,
    (if contains key d
     then v <- str_method strip_upper (get d key VNone) ;;
          Return (set_item key v d)
     else Return d) = step strip_upper always_true key d).
  { intros key d. unfold step, contains, get, always_true.
    destruct (lookup key d); reflexivity. }
  assert (Hext : forall (m : outcome dict) (k k' : dict -> outcome dict),
    (forall x, k x = k' x) -> bind m k = bind m k').
  { intros m k k' H. destruct m; cbn; [apply H|reflexivity]. }
  unfold normalize_address.
  assert (H1 :
    (if contains "postalCode" address && contains "country" address
     then v <- str_method strip_upper (get address "postalCode" VNone) ;;
          Return (set_item "postalCode" v address)
     else Return address) =
    (if contains "country" address
     then step strip_upper always_true "postalCode" address
     else Return address)).
  { rewrite <- Hstep.
    destruct (contains "postalCode" address), (contains "country" address);
      reflexivity. }
  rewrite H1. apply Hext. intros d1.
  rewrite Hstep. apply Hext. intros d2.
  rewrite Hstep. reflexivity.
Qed.

Lemma string_fields_distinct : NoDup string_fields.
Proof.
  unfold string_fields.
  repeat (constructor; [cbn; intuition discriminate|]). constructor.
Qed.

End AddressFacts.
Import AddressFacts.

(** The keys [normalize_address] may rewrite. *)
Definition normalized_keys : list string :=
  "postalCode" :: "country" :: "state" :: string_fields.

(** X11.  [normalize_address] is idempotent: an address it returns is
    returned unchanged when normalised again.  It keeps the keys of the
    address, in order, and leaves the value of every key other than
    postalCode, country, state and the seven text fields as it was. *)
Theorem normalize_address_is_idempotent :
  forall address normalized : dict,
    normalize_address address = Return normalized ->
    normalize_address normalized = Return normalized /\
    map fst normalized = map fst address /\
    (forall key, ~ In key normalized_keys ->
       lookup key normalized = lookup key address).
Proof.
  intros a b H. rewrite normalize_address_steps in H.
  destruct (if contains "country" a
            then step strip_upper always_true "postalCode" a
            else Return a) as [d1|] eqn:E1; [|discriminate].
  cbn [bind] in H.
  destruct (step strip_upper always_true "country" d1) as [d2|] eqn:E2;
    [|discriminate].
  cbn [bind] in H.
  destruct (step strip_upper always_true "state" d2) as [d3|] eqn:E3;
    [|discriminate].
  cbn [bind] in H.
  destruct (step_spec _ strip_upper_idem _ _ _ _ E2) as (L2 & C2 & K2 & S2).
  destruct (step_spec _ strip_upper_idem _ _ _ _ E3) as (L3 & C3 & K3 & S3).
  destruct (trim_fields_spec _ string_fields_distinct _ _ H)
    as (L4 & C4 & K4 & S4).
  assert (Hout : forall k, ~ In k string_fields -> lookup k b = lookup k d3)
    by exact L4.
  assert (H1 : (forall k, k <> "postalCode" -> lookup k d1 = lookup k a) /\
               (forall k, contains k d1 = contains k a) /\
               map fst d1 = map fst a /\
               (contains "country" a = true ->
                settled strip_upper always_true "postalCode" d1)).
  { destruct (contains "country" a) eqn:Ca.
    - destruct (step_spec _ strip_upper_idem _ _ _ _ E1) as (L1 & C1 & K1 & S1).
      repeat split; auto.
    - injection E1 as <-. repeat split. discriminate. }
  destruct H1 as (L1 & C1 & K1 & S1).
  assert (Pb : lookup "postalCode" b = lookup "postalCode" d1).
  { rewrite Hout by (cbn; intuition discriminate).
    rewrite L3 by discriminate. apply L2. discriminate. }
  assert (Cb : lookup "country" b = lookup "country" d2).
  { rewrite Hout by (cbn; intuition discriminate). apply L3. discriminate. }
  assert (Sb : lookup "state" b = lookup "state" d3).
  { apply Hout. cbn. intuition discriminate. }
  split; [|split].
  - rewrite normalize_address_steps.
    assert (F1 : (if contains "country" b
                  then step strip_upper always_true "postalCode" b
                  else Return b) = Return b).
    { destruct (contains "country" b) eqn:Cc; [|reflexivity].
      apply step_fixed. unfold settled. rewrite Pb. apply S1.
      rewrite <- C1, <- C2, <- C3, <- C4. exact Cc. }
    rewrite F1. cbn [bind].
    rewrite step_fixed by (unfold settled; rewrite Cb; exact S2). cbn [bind].
    rewrite step_fixed by (unfold settled; rewrite Sb; exact S3). cbn [bind].
    apply trim_fields_fixed. exact S4.
  - rewrite K4, K3, K2. exact K1.
  - intros key Hk. unfold normalized_keys in Hk. cbn [In] in Hk.
    rewrite L4 by (intros Hin; apply Hk; right; right; right; exact Hin).
    rewrite L3 by (intros ->; apply Hk; right; right; left; reflexivity).
    rewrite L2 by (intros ->; apply Hk; right; left; reflexivity).
    apply L1. intros ->. apply Hk. left. reflexivity.
Qed.

(** An address as a caller may type it. *)
Definition typed_address : dict :=
  [("name", VStr "  John Doe "); ("street1", VStr "123 Main St");
   ("city", VStr " San Francisco"); ("state", VStr "ca");
   ("postalCode", VStr " 94105 "); ("country", VStr "us");
   ("residential", VBool true)].

Lemma normalize_address_is_idempotent_witness :
  exists normalized,
    normalize_address typed_address = Return normalized /\
    normalize_address normalized = Return normalized /\
    lookup "postalCode" normalized = Some (VStr "94105") /\
    lookup "residential" normalized = Some (VBool true).
Proof.
  eexists. split; [reflexivity|].
  pose proof (normalize_address_is_idempotent typed_address _ eq_refl)
    as (Hidem & _ & Hother).
  split; [exact Hidem|]. split; [reflexivity|].
  rewrite Hother; [reflexivity|].
  cbn. intuition discriminate.
Defined.

Module AddressEdgeFacts.

Lemma step_raises f guard key d e :
  step f guard key d = Raise e -> e = builtin AttributeError.
Proof.
  unfold step. destruct (lookup key d) as [v|]; [|discriminate].
  destruct (guard v); [|discriminate].
  destruct v; cbn; try discriminate; intros [= <-]; reflexivity.
Qed.

Lemma trim_fields_raises fields : forall d e,
  trim_fields fields d = Raise e -> e = builtin AttributeError.
Proof.
  induction fields as [|field rest IH]; intros d e; [discriminate|].
  rewrite trim_fields_step.
  destruct (step strip truthy field d) as [d1|e1] eqn:E1; cbn [bind].
  - apply IH.
  - intros [= <-]. exact (step_raises _ _ _ _ _ E1).
Qed.

Lemma step_not_a_string f key d v :
  lookup key d = Some v -> is_str v = false ->
  step f always_true key d = Raise (builtin AttributeError).
Proof.
  intros H Hs. unfold step. rewrite H. cbn.
  destruct v; try reflexivity. discriminate.
Qed.

End AddressEdgeFacts.
Import AddressEdgeFacts.

(** X12.  The edges of [normalize_address]: the only exception it raises
    is [AttributeError]; it raises one whenever 'state' or 'country' is
    present with a value that is not a string ([None] included); and
    without a 'country' key the postal code is left exactly as given. *)
Theorem normalize_address_edges :
  forall address : dict,
    (forall e, normalize_address address = Raise e ->
       e = builtin AttributeError) /\
    (forall key v, key = "state" \/ key = "country" ->
       lookup key address = Some v -> is_str v = false ->
       normalize_address address = Raise (builtin AttributeError)) /\
    (forall normalized,
       lookup "country" address = None ->
       normalize_address address = Return normalized ->
       lookup "postalCode" normalized = lookup "postalCode" address).
Proof.
  intros a.
  assert (Hraise : forall e, normalize_address a = Raise e ->
                             e = builtin AttributeError).
  { intros e. rewrite normalize_address_steps.
    destruct (if contains "country" a
              then step strip_upper always_true "postalCode" a
              else Return a) as [d1|e1] eqn:E1; cbn [bind].
    - destruct (step strip_upper always_true "country" d1) as [d2|e2] eqn:E2;
        cbn [bind].
      + destruct (step strip_upper always_true "state" d2) as [d3|e3] eqn:E3;
          cbn [bind].
        * apply trim_fields_raises.
        * intros [= <-]. exact (step_raises _ _ _ _ _ E3).
      + intros [= <-]. exact (step_raises _ _ _ _ _ E2).
    - intros [= <-]. destruct (contains "country" a); [|discriminate].
      exact (step_raises _ _ _ _ _ E1). }
  split; [exact Hraise|split].
  - intros key v Hkey Hv Hs.
    destruct (normalize_address a) as [b|e] eqn:E;
      [|rewrite (Hraise e eq_refl); reflexivity].
    exfalso. rewrite normalize_address_steps in E.
    destruct (if contains "country" a
              then step strip_upper always_true "postalCode" a
              else Return a) as [d1|] eqn:E1; [|discriminate].
    cbn [bind] in E.
    assert (L1 : forall k, k <> "postalCode" -> lookup k d1 = lookup k a).
    { destruct (contains "country" a).
      - exact (proj1 (step_spec _ strip_upper_idem _ _ _ _ E1)).
      - injection E1 as <-. reflexivity. }
    destruct Hkey as [-> | ->].
    + destruct (step strip_upper always_true "country" d1) as [d2|] eqn:E2;
        [|discriminate].
      cbn [bind] in E.
      pose proof (proj1 (step_spec _ strip_upper_idem _ _ _ _ E2)) as L2.
      rewrite (step_not_a_string strip_upper "state" d2 v) in E;
        [discriminate| |exact Hs].
      rewrite L2 by discriminate. rewrite L1 by discriminate. exact Hv.
    + rewrite (step_not_a_string strip_upper "country" d1 v) in E;
        [discriminate| |exact Hs].
      rewrite L1 by discriminate. exact Hv.
  - intros b Hc H. rewrite normalize_address_steps in H.
    unfold contains in H. rewrite Hc in H. cbn [bind] in H.
    destruct (step strip_upper always_true "country" a) as [d2|] eqn:E2;
      [|discriminate].
    cbn [bind] in H.
    destruct (step strip_upper always_true "state" d2) as [d3|] eqn:E3;
      [|discriminate].
    cbn [bind] in H.
    pose proof (proj1 (step_spec _ strip_upper_idem _ _ _ _ E2)) as L2.
    pose proof (proj1 (step_spec _ strip_upper_idem _ _ _ _ E3)) as L3.
    pose proof (proj1 (trim_fields_spec _ string_fields_distinct _ _ H)) as L4.
    rewrite L4 by (cbn; intuition discriminate).
    rewrite L3 by discriminate. apply L2. discriminate.
Qed.

Lemma normalize_address_edges_witness :
  normalize_address [("name", VStr "John"); ("state", VNone)]
    = Raise (builtin AttributeError) /\
  exists normalized,
    normalize_address [("postalCode", VStr " 94105 ")] = Return normalized /\
    lookup "postalCode" normalized = Some (VStr " 94105 ").
Proof.
  split.
  - apply (proj1 (proj2 (normalize_address_edges
                           [("name", VStr "John"); ("state", VNone)]))
             "state" VNone); [left|..]; reflexivity.
  - eexists. split; [reflexivity|].
    apply (proj2 (proj2 (normalize_address_edges
                           [("postalCode", VStr " 94105 ")])));
      reflexivity.
Defined.

(** ** More on order validation *)

Module ItemFacts.

(** The message of the first loop of [validate_order_item]. *)
Definition required_message (prefix field : string) : string :=
  prefix ++ ": '" ++ field ++ "' is required".

(** The errors of the first loop on a dictionary. *)
Definition missing_fields (prefix : string) (fields : dict)
    (names : list string) : list string :=
  flat_map
    (fun field =>
       match lookup field fields with
       | Some v => if is_none v then [required_message prefix field] else []
       | None => [required_message prefix field]
       end) names.

Lemma item_required_errors_dict prefix fields names :
  item_required_errors prefix (VDict fields) names
  = Return (missing_fields prefix fields names).
Proof.
  induction names as [|field rest IH]; [reflexivity|].
  cbn [item_required_errors py_in bind]. unfold contains.
  rewrite IH. unfold missing_fields. cbn [flat_map].
  destruct (lookup field fields) as [v|] eqn:E; cbn [negb py_getitem bind].
  - rewrite E. cbn [bind]. destruct (is_none v); reflexivity.
  - reflexivity.
Qed.

(** The error of one guarded check on a dictionary. *)
Definition check_errors (fields : dict) (key : string) (bad : pyval -> bool)
    (msg : string) : list string :=
  match lookup key fields with
  | Some v => if bad v then [msg] else []
  | None => []
  end.

Lemma item_check_dict fields key bad msg :
  item_check (VDict fields) key bad msg
  = Return (check_errors fields key bad msg).
Proof.
  unfold item_check, check_errors. cbn [py_in py_getitem bind].
  unfold contains. destruct (lookup key fields); reflexivity.
Qed.

Definition item_prefix (index : nat) : string :=
  "Item " ++ str_of_nat (index + 1).

Definition bad_quantity (v : pyval) : bool :=
  negb (isinstance_int v) || le_zero v.
Definition bad_number (v : pyval) : bool :=
  negb (isinstance_int_float v) || le_zero v.
Definition bad_unit (v : pyval) : bool :=
  negb (existsb (fun u => str_equal u v) valid_units).

(** [validate_order_item] on a dictionary, in closed form. *)
Lemma validate_order_item_dict fields index :
  validate_order_item (VDict fields) index =
  Return (List.concat
    [ missing_fields (item_prefix index) fields item_required_fields;
      check_errors fields "quantity" bad_quantity
        (item_prefix index ++ ": quantity must be a positive integer");
      check_errors fields "unitPrice" bad_number
        (item_prefix index ++ ": unitPrice must be a positive number");
      check_errors fields "weight" bad_number
        (item_prefix index ++ ": weight must be a positive number");
      check_errors fields "weightUnit" bad_unit
        (item_prefix index
         ++ ": weightUnit must be one of ['lb', 'kg', 'oz', 'g']") ]).
Proof.
  unfold validate_order_item. fold (item_prefix index).
  rewrite item_required_errors_dict. cbn [bind].
  rewrite !item_check_dict. reflexivity.
Qed.

Lemma starts_with_prefix p rest :
  starts_with (p ++ ": ") (p ++ String ":"%char (String " "%char rest)) = true.
Proof.
  induction p as [|c p IH]; cbn; [reflexivity|].
  rewrite Ascii.eqb_refl. exact IH.
Qed.

Lemma check_errors_prefixed fields key bad p rest :
  Forall (fun m => starts_with (p ++ ": ") m = true)
         (check_errors fields key bad
            (p ++ String ":"%char (String " "%char rest))).
Proof.
  unfold check_errors. destruct (lookup key fields) as [v|]; [|constructor].
  destruct (bad v); constructor; [apply starts_with_prefix|constructor].
Qed.

Lemma check_errors_length fields key bad msg :
  (List.length (check_errors fields key bad msg) <= 1)%nat.
Proof.
  unfold check_errors. destruct (lookup key fields) as [v|]; [|cbn; lia].
  destruct (bad v); cbn; lia.
Qed.

Lemma missing_fields_prefixed p fields names :
  Forall (fun m => starts_with (p ++ ": ") m = true)
         (missing_fields p fields names).
Proof.
  unfold missing_fields. induction names as [|field rest IH]; cbn [flat_map];
    [constructor|].
  apply Forall_app. split; [|exact IH].
  assert (H : starts_with (p ++ ": ") (required_message p field) = true)
    by apply starts_with_prefix.
  destruct (lookup field fields) as [v|];
    [destruct (is_none v)|]; repeat constructor; exact H.
Qed.

Lemma missing_fields_length p fields names :
  (List.length (missing_fields p fields names) <= List.length names)%nat.
Proof.
  unfold missing_fields. induction names as [|field rest IH]; cbn [flat_map];
    [cbn; lia|].
  rewrite length_app. cbn [List.length].
  destruct (lookup field fields) as [v|]; [destruct (is_none v)|]; cbn; lia.
Qed.

End ItemFacts.
Import ItemFacts.

(** X13.  On an item that is a dictionary [validate_order_item] never
    raises: it returns at most ten messages, each starting with
    "Item n: " where n is the index of the item plus one. *)
Theorem validate_order_item_on_a_dictionary :
  forall (fields : dict) (index : nat),
  exists errors,
    validate_order_item (VDict fields) index = Return errors /\
    (List.length errors <= 10)%nat /\
    Forall (fun m =>
              starts_with ("Item " ++ str_of_nat (index + 1) ++ ": ") m = true)
           errors.
Proof.
  intros fields index. eexists. split; [apply validate_order_item_dict|].
  split.
  - cbn [List.concat]. rewrite !length_app. cbn [List.length].
    pose proof (missing_fields_length (item_prefix index) fields
                  item_required_fields) as H0.
    cbn [item_required_fields List.length] in H0.
    pose proof (check_errors_length fields "quantity" bad_quantity
                  (item_prefix index ++ ": quantity must be a positive integer")).
    pose proof (check_errors_length fields "unitPrice" bad_number
                  (item_prefix index ++ ": unitPrice must be a positive number")).
    pose proof (check_errors_length fields "weight" bad_number
                  (item_prefix index ++ ": weight must be a positive number")).
    pose proof (check_errors_length fields "weightUnit" bad_unit
                  (item_prefix index
                   ++ ": weightUnit must be one of ['lb', 'kg', 'oz', 'g']")).
    lia.
  - assert (E : ("Item " ++ str_of_nat (index + 1) ++ ": ")%string
                = (item_prefix index ++ ": ")%string).
    { unfold item_prefix. cbn. reflexivity. }
    rewrite E. cbn [List.concat].
    apply Forall_app. split; [apply missing_fields_prefixed|].
    apply Forall_app. split; [apply check_errors_prefixed|].
    apply Forall_app. split; [apply check_errors_prefixed|].
    apply Forall_app. split; [apply check_errors_prefixed|].
    apply Forall_app. split; [apply check_errors_prefixed|constructor].
Qed.

Module OrderStages.

(** The four checks that follow the required fields in
    [validate_order_data]. *)
Definition email_stage (order_data : dict) : outcome (list string) :=
  match lookup "recipientEmail" order_data with
  | Some email =>
      if truthy email then
        ok <- validate_email email ;;
        Return (if ok : bool then [] else ["Invalid recipient email format"])
      else Return []
  | None => Return []
  end.

Definition phone_stage (order_data : dict) : outcome (list string) :=
  match lookup "recipientPhone" order_data with
  | Some phone =>
      if truthy phone then
        ok <- validate_phone phone ;;
        Return (if ok : bool then [] else ["Invalid recipient phone format"])
      else Return []
  | None => Return []
  end.

Definition postal_stage (order_data : dict) : outcome (list string) :=
  match lookup "recipientPostalCode" order_data,
        lookup "recipientCountry" order_data with
  | Some postal_code, Some country =>
      ok <- validate_postal_code postal_code country ;;
      Return (if ok : bool then [] else ["Invalid postal code format"])
  | _, _ => Return []
  end.

Definition items_stage (order_data : dict) : outcome (list string) :=
  match lookup "items" order_data with
  | Some (VList []) => Return ["At least one item is required"]
  | Some (VList items) => items_errors items 0
  | Some _ => Return ["At least one item is required"]
  | None => Return []
  end.

Lemma validate_order_data_stages order_data :
  validate_order_data order_data =
  (e_email <- email_stage order_data ;;
   e_phone <- phone_stage order_data ;;
   e_postal <- postal_stage order_data ;;
   e_items <- items_stage order_data ;;
   Return (List.concat [required_errors order_data; e_email; e_phone;
                        e_postal; e_items])).
Proof. reflexivity. Qed.

Lemma email_stage_returns order_data :
  (forall email, lookup "recipientEmail" order_data = Some email ->
     truthy email = true -> is_str email = true) ->
  exists e, email_stage order_data = Return e.
Proof.
  intros H. unfold email_stage.
  destruct (lookup "recipientEmail" order_data) as [email|];
    [|eexists; reflexivity].
  destruct (truthy email) eqn:T; [|eexists; reflexivity].
  destruct (email_check_returns email (H email eq_refl T)) as [ok ->].
  eexists. reflexivity.
Qed.

Lemma phone_stage_returns order_data :
  (forall phone, lookup "recipientPhone" order_data = Some phone ->
     truthy phone = true -> is_str phone = true) ->
  exists e, phone_stage order_data = Return e.
Proof.
  intros H. unfold phone_stage.
  destruct (lookup "recipientPhone" order_data) as [phone|];
    [|eexists; reflexivity].
  destruct (truthy phone) eqn:T; [|eexists; reflexivity].
  destruct (phone_check_returns phone (H phone eq_refl T)) as [ok ->].
  eexists. reflexivity.
Qed.

Lemma postal_stage_returns order_data :
  (forall postal_code country,
     lookup "recipientPostalCode" order_data = Some postal_code ->
     lookup "recipientCountry" order_data = Some country ->
     is_str postal_code = true /\ is_str country = true) ->
  exists e, postal_stage order_data = Return e.
Proof.
  intros H. unfold postal_stage.
  destruct (lookup "recipientPostalCode" order_data) as [pc|];
    [|eexists; reflexivity].
  destruct (lookup "recipientCountry" order_data) as [co|];
    [|eexists; reflexivity].
  destruct (H pc co eq_refl eq_refl) as [Sp Sc].
  destruct (postal_check_returns pc co Sp Sc) as [ok ->].
  eexists. reflexivity.
Qed.

Lemma items_errors_returns items :
  Forall (fun item => is_dict item = true) items ->
  forall i, exists e, items_errors items i = Return e.
Proof.
  induction 1 as [|item rest Hd _ IH]; intros i; cbn [items_errors].
  - eexists. reflexivity.
  - destruct item; try discriminate.
    rewrite validate_order_item_dict. cbn [bind].
    destruct (IH (S i)) as [e ->]. eexists. reflexivity.
Qed.

Lemma items_stage_returns order_data :
  (forall items, lookup "items" order_data = Some (VList items) ->
     Forall (fun item => is_dict item = true) items) ->
  exists e, items_stage order_data = Return e.
Proof.
  intros H. unfold items_stage.
  destruct (lookup "items" order_data) as [v|]; [|eexists; reflexivity].
  destruct v; try (eexists; reflexivity).
  destruct l as [|item rest]; [eexists; reflexivity|].
  apply items_errors_returns. apply H. reflexivity.
Qed.

End OrderStages.
Import OrderStages.

(** X14.  [validate_order_data] returns a list, and does not raise,
    whenever the email, phone, postal code and country that are provided
    are strings and every entry of an 'items' list is a dictionary. *)
Theorem validate_order_data_returns_on_typed_payloads :
  forall order_data : dict,
    contact_fields_are_text order_data ->
    (forall items, lookup "items" order_data = Some (VList items) ->
       Forall (fun item => is_dict item = true) items) ->
    exists errors, validate_order_data order_data = Return errors.
Proof.
  intros d (Hemail & Hphone & Hpostal) Hitems.
  rewrite validate_order_data_stages.
  destruct (email_stage_returns d Hemail) as [e1 ->]. cbn [bind].
  destruct (phone_stage_returns d Hphone) as [e2 ->]. cbn [bind].
  destruct (postal_stage_returns d Hpostal) as [e3 ->]. cbn [bind].
  destruct (items_stage_returns d Hitems) as [e4 ->]. cbn [bind].
  eexists. reflexivity.
Qed.

(** An order whose only item lacks everything and whose phone is wrong. *)
Definition sloppy_order : dict :=
  [("orderNumber", VInt 17); ("recipientPhone", VStr "n/a");
   ("recipientPostalCode", VStr ""); ("recipientCountry", VStr "US");
   ("items", VList [VDict []])].

Lemma validate_order_data_returns_on_typed_payloads_witness :
  exists errors, validate_order_data sloppy_order = Return errors.
Proof.
  apply (validate_order_data_returns_on_typed_payloads sloppy_order).
  - split; [|split].
    + intros email H. discriminate H.
    + intros phone H _. injection H as <-. reflexivity.
    + intros pc co H1 H2. injection H1 as <-. injection H2 as <-.
      split; reflexivity.
  - intros items H. injection H as <-. repeat constructor.
Defined.

Module AcceptedFacts.

(** What [validate_order_item] accepts: a dictionary with the six fields
    present, a quantity that passes [isinstance(_, int)] and is not
    [<= 0], a unit price and a weight that pass
    [isinstance(_, (int, float))] and are not [<= 0], and a weight unit
    among the valid ones. *)
Definition accepted_item (item : pyval) : Prop :=
  exists fields,
    item = VDict fields /\
    (forall field, In field item_required_fields -> present fields field) /\
    (exists q, lookup "quantity" fields = Some q /\
               isinstance_int q = true /\ le_zero q = false) /\
    (exists p, lookup "unitPrice" fields = Some p /\
               isinstance_int_float p = true /\ le_zero p = false) /\
    (exists x, lookup "weight" fields = Some x /\
               isinstance_int_float x = true /\ le_zero x = false) /\
    (exists u, lookup "weightUnit" fields = Some (VStr u) /\ In u valid_units).

Lemma missing_fields_nil p fields names :
  missing_fields p fields names = [] ->
  forall field, In field names -> present fields field.
Proof.
  unfold missing_fields.
  induction names as [|f rest IH]; cbn [flat_map]; intros H field Hin;
    [contradiction|].
  apply app_eq_nil in H. destruct H as [H1 H2].
  destruct Hin as [<-|Hin]; [|exact (IH H2 field Hin)].
  unfold present. destruct (lookup f fields) as [v|]; [|discriminate].
  destruct (is_none v) eqn:N; [discriminate|].
  exists v. split; [reflexivity|exact N].
Qed.

Lemma check_errors_nil fields key bad msg v :
  check_errors fields key bad msg = [] ->
  lookup key fields = Some v -> bad v = false.
Proof.
  unfold check_errors. intros H E. rewrite E in H.
  destruct (bad v); [discriminate|reflexivity].
Qed.

Lemma bad_unit_false v :
  bad_unit v = false -> exists u, v = VStr u /\ In u valid_units.
Proof.
  unfold bad_unit. intros H. apply negb_false_iff in H.
  apply existsb_exists in H. destruct H as (u & Hin & Hu).
  unfold str_equal in Hu. destruct v; try discriminate.
  apply String.eqb_eq in Hu. subst. exists u. split; [reflexivity|exact Hin].
Qed.

Lemma orb_negb_false a b : negb a || b = false -> a = true /\ b = false.
Proof. destruct a, b; cbn; intros H; try discriminate; split; reflexivity. Qed.

Lemma accepted_dict fields index :
  validate_order_item (VDict fields) index = Return [] ->
  accepted_item (VDict fields).
Proof.
  rewrite validate_order_item_dict. intros H.
  assert (Hc : List.concat
    [ missing_fields (item_prefix index) fields item_required_fields;
      check_errors fields "quantity" bad_quantity
        (item_prefix index ++ ": quantity must be a positive integer");
      check_errors fields "unitPrice" bad_number
        (item_prefix index ++ ": unitPrice must be a positive number");
      check_errors fields "weight" bad_number
        (item_prefix index ++ ": weight must be a positive number");
      check_errors fields "weightUnit" bad_unit
        (item_prefix index
         ++ ": weightUnit must be one of ['lb', 'kg', 'oz', 'g']") ] = [])
    by congruence.
  clear H. cbn [List.concat] in Hc.
  apply app_eq_nil in Hc. destruct Hc as [H0 Hc].
  apply app_eq_nil in Hc. destruct Hc as [H1 Hc].
  apply app_eq_nil in Hc. destruct Hc as [H2 Hc].
  apply app_eq_nil in Hc. destruct Hc as [H3 Hc].
  apply app_eq_nil in Hc. destruct Hc as [H4 _].
  pose proof (missing_fields_nil _ _ _ H0) as Hp.
  exists fields. split; [reflexivity|]. split; [exact Hp|].
  destruct (Hp "quantity") as (q & Eq & _); [cbn; tauto|].
  destruct (Hp "unitPrice") as (p & Ep & _); [cbn; tauto|].
  destruct (Hp "weight") as (x & Ex & _); [cbn; tauto|].
  destruct (Hp "weightUnit") as (u & Eu & _); [cbn; tauto|].
  pose proof (orb_negb_false _ _ (check_errors_nil _ _ _ _ _ H1 Eq)) as [? ?].
  pose proof (orb_negb_false _ _ (check_errors_nil _ _ _ _ _ H2 Ep)) as [? ?].
  pose proof (orb_negb_false _ _ (check_errors_nil _ _ _ _ _ H3 Ex)) as [? ?].
  destruct (bad_unit_false _ (check_errors_nil _ _ _ _ _ H4 Eu))
    as (u' & -> & Hin).
  repeat split; eauto.
Qed.

(** On an item that is not a dictionary the first loop raises or reports
    a missing field. *)
Lemma item_required_errors_not_dict prefix item field rest :
  is_dict item = false ->
  item_required_errors prefix item (field :: rest) <> Return [].
Proof.
  intros Hd. cbn [item_required_errors].
  destruct (py_in field item) as [b|] eqn:Ein; cbn [bind]; [|discriminate].
  destruct b; cbn [negb].
  - destruct item; try discriminate; cbn [py_getitem bind]; discriminate.
  - cbn [bind].
    destruct (item_required_errors prefix item rest); cbn; discriminate.
Qed.

Lemma accepted_only_dict item index :
  validate_order_item item index = Return [] -> is_dict item = true.
Proof.
  destruct (is_dict item) eqn:Hd; [reflexivity|]. intros H. exfalso.
  unfold validate_order_item in H.
  pose proof (item_required_errors_not_dict
                ("Item " ++ str_of_nat (index + 1)) item "name"
                ["sku"; "quantity"; "unitPrice"; "weight"; "weightUnit"] Hd)
    as Hne.
  change ("name" :: ["sku"; "quantity"; "unitPrice"; "weight"; "weightUnit"])
    with item_required_fields in Hne.
  destruct (item_required_errors _ item item_required_fields) as [e0|];
    [|discriminate].
  cbn [bind] in H.
  destruct e0 as [|m e0]; [contradiction|].
  repeat match type of H with
  | bind ?X _ = _ => destruct X; cbn [bind] in H; [|discriminate]
  end.
  discriminate H.
Qed.

Lemma items_errors_nil items :
  forall i, items_errors items i = Return [] -> Forall accepted_item items.
Proof.
  induction items as [|item rest IH]; intros i; cbn [items_errors];
    [constructor|].
  destruct (validate_order_item item i) as [e|] eqn:E; [|discriminate].
  cbn [bind].
  destruct (items_errors rest (S i)) as [e'|] eqn:E'; [|discriminate].
  cbn [bind]. intros H.
  assert (Happ : (e ++ e')%list = []) by congruence.
  apply app_eq_nil in Happ. destruct Happ as [-> ->].
  constructor; [|exact (IH _ E')].
  pose proof (accepted_only_dict _ _ E) as Hd.
  destruct item; try discriminate. exact (accepted_dict _ _ E).
Qed.

Lemma required_errors_nil_inv order_data :
  required_errors order_data = [] ->
  forall field, In field required_fields ->
    exists v, lookup field order_data = Some v /\ truthy v = true.
Proof.
  unfold required_errors. generalize required_fields as names.
  induction names as [|f rest IH]; cbn [flat_map]; intros H field Hin;
    [contradiction|].
  apply app_eq_nil in H. destruct H as [H1 H2].
  destruct Hin as [<-|Hin]; [|exact (IH H2 field Hin)].
  destruct (lookup f order_data) as [v|]; [|discriminate].
  destruct (truthy v) eqn:T; [|discriminate].
  exists v. split; [reflexivity|exact T].
Qed.

End AcceptedFacts.
Import AcceptedFacts.

(** X15.  An empty result is a guarantee: when [validate_order_data]
    returns the empty list, the eight required fields are present and
    truthy, 'items' is a non-empty list of dictionaries that
    [validate_order_item] accepts (the six fields present, quantity, unit
    price and weight numbers that are not [<= 0], a valid weight unit),
    and the email, phone and postal code that are provided are accepted by
    their validators. *)
Theorem empty_result_means_valid_order :
  forall order_data : dict,
    validate_order_data order_data = Return [] ->
    (forall field, In field required_fields ->
       exists v, lookup field order_data = Some v /\ truthy v = true) /\
    (exists items,
       lookup "items" order_data = Some (VList items) /\
       items <> [] /\ Forall accepted_item items) /\
    (forall email, lookup "recipientEmail" order_data = Some email ->
       truthy email = true -> validate_email email = Return true) /\
    (forall phone, lookup "recipientPhone" order_data = Some phone ->
       truthy phone = true -> validate_phone phone = Return true) /\
    (forall postal_code country,
       lookup "recipientPostalCode" order_data = Some postal_code ->
       lookup "recipientCountry" order_data = Some country ->
       validate_postal_code postal_code country = Return true).
Proof.
  intros d H. rewrite validate_order_data_stages in H.
  destruct (email_stage d) as [e1|] eqn:E1; [|discriminate]. cbn [bind] in H.
  destruct (phone_stage d) as [e2|] eqn:E2; [|discriminate]. cbn [bind] in H.
  destruct (postal_stage d) as [e3|] eqn:E3; [|discriminate]. cbn [bind] in H.
  destruct (items_stage d) as [e4|] eqn:E4; [|discriminate]. cbn [bind] in H.
  assert (Hc : (required_errors d ++ e1 ++ e2 ++ e3 ++ e4 ++ [])%list = [])
    by (cbn [List.concat] in H; congruence).
  clear H.
  apply app_eq_nil in Hc. destruct Hc as [H0 Hc].
  apply app_eq_nil in Hc. destruct Hc as [-> Hc].
  apply app_eq_nil in Hc. destruct Hc as [-> Hc].
  apply app_eq_nil in Hc. destruct Hc as [-> Hc].
  apply app_eq_nil in Hc. destruct Hc as [-> _].
  pose proof (required_errors_nil_inv d H0) as Hreq.
  split; [exact Hreq|]. split; [|split; [|split]].
  - destruct (Hreq "items") as (v & Ev & Tv); [cbn; tauto|].
    unfold items_stage in E4. rewrite Ev in E4.
    destruct v; try discriminate.
    destruct l as [|item rest]; [discriminate|].
    exists (item :: rest). split; [exact Ev|]. split; [discriminate|].
    exact (items_errors_nil _ _ E4).
  - intros email Hl T. unfold email_stage in E1. rewrite Hl, T in E1.
    destruct (validate_email email) as [[|]|]; cbn in E1;
      [reflexivity|discriminate|discriminate].
  - intros phone Hl T. unfold phone_stage in E2. rewrite Hl, T in E2.
    destruct (validate_phone phone) as [[|]|]; cbn in E2;
      [reflexivity|discriminate|discriminate].
  - intros pc co Hp Hco. unfold postal_stage in E3. rewrite Hp, Hco in E3.
    destruct (validate_postal_code pc co) as [[|]|]; cbn in E3;
      [reflexivity|discriminate|discriminate].
Qed.

Lemma empty_result_means_valid_order_witness :
  exists items,
    lookup "items" test_order = Some (VList items) /\
    items <> [] /\ Forall accepted_item items.
Proof.
  apply (empty_result_means_valid_order test_order). reflexivity.
Defined.

(** ** Facades that validate before sending *)


(** X16.  [create_order] sends nothing unless [validate_order_data]
    returned the empty list: when it reports errors the facade raises one
    [ValidationError] whose message is "Order validation failed: "
    followed by all the messages joined with "; ", when the model
    rejects the order it raises a [ValidationError] too, and in both cases
    the world is untouched. *)
Theorem create_order_validates_before_sending :
  forall (server : list request -> Httpx.result) (T : Type)
         (APIResponse : pyval -> outcome T) (pydantic_text : dict -> string)
         (CreateOrderRequest : dict -> outcome dict)
         (self : atoshipSDK) (order_data : dict) (w : world),
    let result :=
      create_order server APIResponse pydantic_text CreateOrderRequest
                   self order_data w in
    (forall first others,
       validate_order_data order_data = Return (first :: others) ->
       result =
         (Raise (new_error ValidationError
                   (VStr ("Order validation failed: "
                          ++ String.concat "; " (first :: others)))
                   VNone VNone), w)) /\
    (validate_order_data order_data = Return [] ->
     CreateOrderRequest order_data = Raise (builtin PydanticValidationError) ->
     exists e, result = (Raise e, w) /\ cls e = ValidationError) /\
    (sent (snd result) <> sent w ->
     validate_order_data order_data = Return [] /\
     exists validated_data, CreateOrderRequest order_data = Return validated_data).
Proof.
  intros server T APIResponse pydantic_text CreateOrderRequest self d w result.
  unfold result, create_order. split; [|split].
  - intros first others ->. reflexivity.
  - intros -> Hm. unfold _validate_and_convert. rewrite Hm. cbn.
    eexists. split; reflexivity.
  - destruct (validate_order_data d) as [[|first others]|e]; cbn [snd];
      try (intros H; contradiction H; reflexivity).
    unfold _validate_and_convert.
    destruct (CreateOrderRequest d) as [validated|e] eqn:Em.
    + intros _. split; [reflexivity|]. exists validated. reflexivity.
    + destruct (exc_class_eqb (cls e) PydanticValidationError); cbn [snd];
        intros H; contradiction H; reflexivity.
Qed.

Lemma create_order_validates_before_sending_witness :
  create_order (always (Httpx.Response 200 None)) (@Return pyval)
    (fun _ => "") (@Return dict)
    (mkSDK "key" default_base_url default_timeout default_max_retries false)
    incomplete_order initial_world
  = (Raise (new_error ValidationError
              (VStr ("Order validation failed: "
                     ++ String.concat "; "
                          ["'orderNumber' is required";
                           "'recipientStreet1' is required";
                           "'recipientCity' is required";
                           "'recipientState' is required";
                           "'recipientPostalCode' is required";
                           "'recipientCountry' is required";
                           "'items' is required";
                           "At least one item is required"]))
              VNone VNone), initial_world).
Proof.
  apply (proj1 (create_order_validates_before_sending
                  (always (Httpx.Response 200 None)) pyval (@Return pyval)
                  (fun _ => "") (@Return dict)
                  (mkSDK "key" default_base_url default_timeout
                         default_max_retries false)
                  incomplete_order initial_world)).
  reflexivity.
Defined.

Module BatchFacts.

Lemma validate_orders_ok orders :
  forall i, validate_orders orders i = Return tt ->
  Forall (fun order_data => validate_order_data order_data = Return []) orders.
Proof.
  induction orders as [|o rest IH]; intros i; cbn [validate_orders];
    [constructor|].
  destruct (validate_order_data o) as [[|first others]|e] eqn:E; cbn [bind];
    try discriminate.
  intros H. constructor; [exact E|exact (IH _ H)].
Qed.

(** The first order that has errors is the one reported, by its
    position counted from one. *)
Lemma validate_orders_first_invalid good bad rest first others :
  Forall (fun order_data => validate_order_data order_data = Return []) good ->
  validate_order_data bad = Return (first :: others) ->
  forall i,
    validate_orders (good ++ bad :: rest) i =
    Raise (new_error ValidationError
             (VStr ("Order " ++ str_of_nat (i + List.length good + 1)
                    ++ " validation failed: "
                    ++ String.concat "; " (first :: others)))
             VNone VNone).
Proof.
  intros Hgood Hbad. induction Hgood as [|g good Hg _ IH]; intros i.
  - cbn [app validate_orders List.length]. rewrite Hbad. cbn [bind].
    replace (i + 0 + 1)%nat with (i + 1)%nat by lia. reflexivity.
  - cbn [app validate_orders List.length]. rewrite Hg. cbn [bind].
    rewrite IH.
    replace (S i + List.length good + 1)%nat
      with (i + S (List.length good) + 1)%nat by lia.
    reflexivity.
Qed.

End BatchFacts.
Import BatchFacts.

(** X17.  [create_orders_batch] validates the whole batch before sending
    anything: a request is sent only for 1 to 100 orders for which
    [validate_order_data] returns the empty list; otherwise the first
    order with errors is reported in a [ValidationError], by its position
    counted from one, and the world is untouched. *)
Theorem create_orders_batch_validates_every_order :
  forall (server : list request -> Httpx.result) (T : Type)
         (APIResponse : pyval -> outcome T)
         (self : atoshipSDK) (orders : list dict) (w : world),
    (sent (snd (create_orders_batch server APIResponse self orders w))
       <> sent w ->
     (1 <= List.length orders <= 100)%nat /\
     Forall (fun order_data => validate_order_data order_data = Return [])
            orders) /\
    (forall good bad rest first others,
       orders = (good ++ bad :: rest)%list ->
       (List.length orders <= 100)%nat ->
       Forall (fun order_data => validate_order_data order_data = Return [])
              good ->
       validate_order_data bad = Return (first :: others) ->
       create_orders_batch server APIResponse self orders w =
       (Raise (new_error ValidationError
                 (VStr ("Order " ++ str_of_nat (List.length good + 1)
                        ++ " validation failed: "
                        ++ String.concat "; " (first :: others)))
                 VNone VNone), w)).
Proof.
  intros server T APIResponse self orders w. split.
  - unfold create_orders_batch.
    destruct (Nat.eqb_spec (List.length orders) 0) as [E0|E0]; cbn [snd];
      [intros H; contradiction H; reflexivity|].
    destruct (Nat.ltb_spec 100 (List.length orders)) as [L|L]; cbn [snd];
      [intros H; contradiction H; reflexivity|].
    destruct (validate_orders orders 0) as [[]|e] eqn:E; cbn [snd];
      [|intros H; contradiction H; reflexivity].
    intros _. split; [lia|]. exact (validate_orders_ok _ _ E).
  - intros good bad rest first others -> Hlen Hgood Hbad.
    unfold create_orders_batch.
    destruct (Nat.eqb_spec (List.length (good ++ bad :: rest)) 0) as [E0|E0].
    { rewrite length_app in E0. cbn in E0. lia. }
    destruct (Nat.ltb_spec 100 (List.length (good ++ bad :: rest))) as [L|L];
      [lia|].
    rewrite (validate_orders_first_invalid good bad rest first others
               Hgood Hbad 0).
    reflexivity.
Qed.

Lemma create_orders_batch_validates_every_order_witness :
  create_orders_batch (always (Httpx.Response 200 None)) (@Return pyval)
    (mkSDK "key" default_base_url default_timeout default_max_retries false)
    [test_order; [("items", VList [])]; test_order] initial_world
  = (Raise (new_error ValidationError
              (VStr ("Order " ++ str_of_nat 2 ++ " validation failed: "
                     ++ String.concat "; "
                          ["'orderNumber' is required";
                           "'recipientName' is required";
                           "'recipientStreet1' is required";
                           "'recipientCity' is required";
                           "'recipientState' is required";
                           "'recipientPostalCode' is required";
                           "'recipientCountry' is required";
                           "'items' is required";
                           "At least one item is required"]))
              VNone VNone), initial_world).
Proof.
  apply (proj2 (create_orders_batch_validates_every_order
                  (always (Httpx.Response 200 None)) pyval (@Return pyval)
                  (mkSDK "key" default_base_url default_timeout
                         default_max_retries false)
                  [test_order; [("items", VList [])]; test_order]
                  initial_world)
               [test_order] [("items", VList [])] [test_order]).
  - reflexivity.
  - cbn. lia.
  - repeat constructor.
  - reflexivity.
Defined.

Module AddressFacadeFacts.

Section Model.

Variable validate : annotation -> pyval -> option pyval.
Variable populate_by_name : bool.

(** A field that cannot be filled makes the constructor fail, with the
    validation error of [pydantic]. *)
Lemma model_init_raises fields data :
  Exists (fun f => field_value validate populate_by_name f data
                   = Raise (builtin PydanticValidationError)) fields ->
  model_init validate populate_by_name fields data
  = Raise (builtin PydanticValidationError).
Proof.
  induction fields as [|f0 rest IH]; intros H; [inversion H|].
  cbn [model_init].
  destruct (field_value validate populate_by_name f0 data) as [x0|e] eqn:E0.
  - cbn [bind]. rewrite IH; [reflexivity|].
    inversion H as [? ? H0|? ? H0]; subst;
      [rewrite E0 in H0; discriminate|exact H0].
  - cbn [bind].
    unfold field_value in E0.
    destruct (field_input populate_by_name f0 data) as [v|].
    + destruct (validate (field_annotation f0) v); [discriminate|].
      injection E0 as <-. reflexivity.
    + destruct (field_default f0); [discriminate|].
      injection E0 as <-. reflexivity.
Qed.

End Model.

End AddressFacadeFacts.
Import AddressFacadeFacts.

(** X18.  [validate_address] and [save_address] build an [Address] first.
    When a field of the model cannot be filled (a required field is
    missing, or a value is rejected) both raise the SDK's
    [ValidationError] with the text of the library's error and send
    nothing.  When every field can be filled, both send the same body,
    which has the sixteen wire names of the model as keys, each with the
    value stored for its field; only the endpoint differs. *)
Theorem address_facades_validate_before_sending :
  forall (server : list request -> Httpx.result) (T : Type)
         (APIResponse : pyval -> outcome T) (pydantic_text : dict -> string)
         (validate : annotation -> pyval -> option pyval)
         (self : atoshipSDK) (address_data : dict) (w : world),
    (Exists (fun f => field_value validate Address_populate_by_name f address_data
                      = Raise (builtin PydanticValidationError))
            Address_fields ->
     let error :=
       new_error ValidationError
         (VStr ("Validation error: " ++ pydantic_text address_data))
         VNone VNone in
     validate_address server APIResponse pydantic_text validate self
                      address_data w = (Raise error, w) /\
     save_address server APIResponse pydantic_text validate self
                  address_data w = (Raise error, w)) /\
    (Forall (fun f => exists stored,
               field_value validate Address_populate_by_name f address_data
               = Return stored)
            Address_fields ->
     exists validated_data,
       map fst validated_data = map field_alias Address_fields /\
       (forall f, In f Address_fields ->
          exists stored,
            field_value validate Address_populate_by_name f address_data
            = Return stored /\
            lookup (field_alias f) validated_data = Some stored) /\
       validate_address server APIResponse pydantic_text validate self
                        address_data w
       = send server APIResponse self "POST" "/api/addresses/validate"
              (Some (VDict validated_data)) None w /\
       save_address server APIResponse pydantic_text validate self
                    address_data w
       = send server APIResponse self "POST" "/api/addresses"
              (Some (VDict validated_data)) None w).
Proof.
  intros server T APIResponse pydantic_text validate self data w. split.
  - intros H error.
    pose proof (model_init_raises validate Address_populate_by_name _ _ H)
      as Hinit.
    unfold validate_address, save_address, _validate_and_convert,
      Address_roundtrip, Address.
    rewrite Hinit. cbn. split; reflexivity.
  - intros H.
    destruct (model_init_returns validate Address_populate_by_name
                Address_fields data) as [inst Hinit].
    { intros f Hin. rewrite Forall_forall in H. exact (H f Hin). }
    assert (Address_roundtrip validate data
            = Return (Address_dict true inst)) as Hround.
    { unfold Address_roundtrip, Address. rewrite Hinit. reflexivity. }
    exists (Address_dict true inst). split; [|split; [|split]].
    + unfold Address_dict. apply (model_dict_keys true).
    + intros f Hin. exact (Address_roundtrip_field validate data _ f Hround Hin).
    + unfold validate_address, _validate_and_convert. rewrite Hround.
      reflexivity.
    + unfold save_address, _validate_and_convert. rewrite Hround.
      reflexivity.
Qed.

Lemma address_facades_validate_before_sending_witness :
  let error :=
    new_error ValidationError (VStr ("Validation error: " ++ "type"))
              VNone VNone in
  let self :=
    mkSDK "key" default_base_url default_timeout default_max_retries false in
  validate_address (always (Httpx.Response 200 None)) (@Return pyval)
    (fun _ => "type") typed_validator self typed_address initial_world
  = (Raise error, initial_world) /\
  save_address (always (Httpx.Response 200 None)) (@Return pyval)
    (fun _ => "type") typed_validator self typed_address initial_world
  = (Raise error, initial_world).
Proof.
  apply (proj1 (address_facades_validate_before_sending
                  (always (Httpx.Response 200 None)) pyval (@Return pyval)
                  (fun _ => "type") typed_validator
                  (mkSDK "key" default_base_url default_timeout
                         default_max_retries false)
                  typed_address initial_world)).
  apply Exists_cons_tl. apply Exists_cons_hd. reflexivity.
Defined.

Module MaskIdempotence.

Local Open Scope nat_scope.

Lemma get_beyond s : forall i, String.length s <= i -> String.get i s = None.
Proof.
  induction s as [|c s IH]; intros i H; [destruct i; reflexivity|].
  destruct i as [|i]; cbn in *; [lia|]. apply IH. lia.
Qed.

(** Masking a masked string changes nothing: the two characters kept at
    each end are the same and so is the number of stars. *)
Lemma mask_string_idem s :
  4 < String.length s -> mask_string (mask_string s) = mask_string s.
Proof.
  intros Hlen.
  destruct (mask_string_shape s Hlen) as (L & A & B & C).
  assert (4 < String.length (mask_string s)) as Hlen' by lia.
  destruct (mask_string_shape (mask_string s) Hlen') as (L' & A' & B' & C').
  apply get_correct. intros i.
  destruct (Nat.lt_ge_cases i (String.length s)) as [Hi|Hi].
  - destruct (Nat.lt_ge_cases i 2) as [H2|H2]; [apply A'; exact H2|].
    destruct (Nat.lt_ge_cases i (String.length s - 2)) as [H3|H3].
    + rewrite B' by lia. symmetry. apply B. lia.
    + apply C'. lia.
  - rewrite !get_beyond by lia. reflexivity.
Qed.

(** Induction on a value through the entries of its dictionaries. *)
Lemma pyval_dict_ind (P : pyval -> Prop) :
  (forall v, is_dict v = false -> P v) ->
  (forall d, Forall (fun entry => P (snd entry)) d -> P (VDict d)) ->
  forall v, P v.
Proof.
  intros Hleaf Hdict.
  refine (fix F (v : pyval) : P v :=
            match v with
            | VDict d =>
                Hdict d
                  ((fix G (l : list (string * pyval))
                      : Forall (fun entry => P (snd entry)) l :=
                      match l with
                      | [] => Forall_nil _
                      | entry :: rest =>
                          Forall_cons entry
                            (match entry as e return P (snd e) with
                             | (_, value) => F value
                             end)
                            (G rest)
                      end) d)
            | other => Hleaf other eq_refl
            end).
Qed.

Lemma mask_value_idem fields :
  forall value,
    mask_value fields (mask_value fields value) = mask_value fields value.
Proof.
  induction value as [v Hv|d IH] using pyval_dict_ind.
  - destruct v; try reflexivity. discriminate.
  - cbn [mask_value]. f_equal. rewrite map_map.
    induction IH as [|[key v] rest Hv _ IHd]; [reflexivity|].
    cbn [map]. f_equal; [|exact IHd]. f_equal. cbn [snd] in Hv.
    unfold mask_entry.
    destruct (is_sensitive fields key).
    + destruct v as [| | | |s| | |]; try reflexivity.
      destruct (Nat.ltb_spec 4 (String.length s)) as [Hlen|Hlen];
        [|reflexivity].
      destruct (mask_string_shape s Hlen) as (L & _).
      rewrite L.
      destruct (Nat.ltb_spec 4 (String.length s)) as [_|Hn]; [|lia].
      rewrite (mask_string_idem s Hlen). reflexivity.
    + destruct v as [| | | | | | |inner]; try reflexivity.
      exact Hv.
Qed.

End MaskIdempotence.
Import MaskIdempotence.

(** X19.  [mask_sensitive_data] is idempotent and keeps the keys: masking
    an already masked dictionary, with the same list of sensitive
    fields, returns it unchanged. *)
Theorem mask_sensitive_data_is_idempotent :
  forall (data : dict) (sensitive_fields : option (list string)),
    let masked_data := mask_sensitive_data data sensitive_fields in
    mask_sensitive_data masked_data sensitive_fields = masked_data /\
    map fst masked_data = map fst data.
Proof.
  intros data sensitive_fields masked_data. unfold masked_data. split.
  - pose proof (mask_value_idem (fields_of sensitive_fields) (VDict data))
      as H.
    rewrite !mask_value_dict in H.
    destruct sensitive_fields as [fields|]; cbn [fields_of] in H.
    + injection H as H. exact H.
    + injection H as H. exact H.
  - unfold mask_sensitive_data. rewrite map_map.
    apply map_ext. intros [key v]. reflexivity.
Qed.

Module QueryFacts.

Section Repr.

Variable repr : pyval -> string.

Lemma query_param_keys key value :
  map fst (query_param repr key value) =
  if is_none value then [] else [key].
Proof. destruct value as [|[]| | | | | |]; reflexivity. Qed.

End Repr.

End QueryFacts.
Import QueryFacts.

(** X20.  [build_query_params] drops the parameters whose value is [None]
    and only those (so [False], [0] and the empty string stay), keeping
    the order; it returns a dictionary of strings as it is; a boolean
    parameter is written "true" or "false", wherever it stands among the
    parameters; and a list of booleans is written with Python's "True"
    and "False", joined by commas. *)
Theorem build_query_params_drops_only_None :
  forall (repr : pyval -> string) (params : dict),
    map fst (build_query_params repr params) =
    map fst (filter (fun entry => negb (is_none (snd entry))) params) /\
    (Forall (fun entry => exists s, snd entry = VStr s) params ->
     map (fun entry => (fst entry, VStr (snd entry)))
         (build_query_params repr params) = params) /\
    (forall before after key b,
       params = (before ++ (key, VBool b) :: after)%list ->
       build_query_params repr params =
       (build_query_params repr before
        ++ (key, if b then "true" else "false")
           :: build_query_params repr after)%list) /\
    (forall before after key (bs : list bool),
       params = (before ++ (key, VList (map VBool bs)) :: after)%list ->
       build_query_params repr params =
       (build_query_params repr before
        ++ (key, String.concat ","
                   (map (fun b : bool => if b then "True" else "False") bs))
           :: build_query_params repr after)%list).
Proof.
  intros repr params. split; [|split; [|split]].
  - unfold build_query_params.
    induction params as [|[key value] rest IH]; [reflexivity|].
    cbn [flat_map filter fst snd]. rewrite map_app, query_param_keys, IH.
    destruct (is_none value); reflexivity.
  - unfold build_query_params.
    induction 1 as [|[key value] rest [s Hs] _ IH]; [reflexivity|].
    cbn [snd] in Hs. subst value.
    cbn [flat_map fst snd query_param py_str app map]. rewrite IH.
    reflexivity.
  - intros before after key b ->. unfold build_query_params.
    rewrite flat_map_app. reflexivity.
  - intros before after key bs ->. unfold build_query_params.
    rewrite flat_map_app. cbn [flat_map fst snd query_param app].
    rewrite map_map. reflexivity.
Qed.

Lemma build_query_params_drops_only_None_witness :
  map (fun entry => (fst entry, VStr (snd entry)))
      (build_query_params (fun _ => "")
         [("status", VStr "PENDING"); ("search", VStr "")])
  = [("status", VStr "PENDING"); ("search", VStr "")] /\
  build_query_params (fun _ => "")
    [("page", VInt 2); ("express", VBool false);
     ("flags", VList [VBool true; VBool false]); ("carrier", VNone)]
  = [("page", "2"); ("express", "false"); ("flags", "True,False")].
Proof.
  split.
  - apply (proj1 (proj2 (build_query_params_drops_only_None
                           (fun _ => "")
                           [("status", VStr "PENDING"); ("search", VStr "")]))).
    repeat constructor; eexists; reflexivity.
  - rewrite (proj1 (proj2 (proj2 (build_query_params_drops_only_None
                                    (fun _ => "")
                                    [("page", VInt 2); ("express", VBool false);
                                     ("flags", VList [VBool true; VBool false]);
                                     ("carrier", VNone)])))
               [("page", VInt 2)]
               [("flags", VList [VBool true; VBool false]); ("carrier", VNone)]
               "express" false eq_refl).
    reflexivity.
Defined.

(** X21.  [track_package] looks a tracking number up under its
    normalised form: a number and its stripped upper-case form give the
    same call, and an empty carrier is the same as no carrier. *)
Theorem track_package_normalises_the_tracking_number :
  forall (server : list request -> Httpx.result) (T : Type)
         (APIResponse : pyval -> outcome T)
         (self : atoshipSDK) (tracking_number : string)
         (carrier : option string) (w : world),
    track_package server APIResponse self
                  (format_tracking_number tracking_number) carrier w
    = track_package server APIResponse self tracking_number carrier w /\
    track_package server APIResponse self tracking_number (Some "") w
    = track_package server APIResponse self tracking_number None w.
Proof.
  intros server T APIResponse self tn carrier w. split.
  - unfold track_package.
    change (format_tracking_number (format_tracking_number tn))
      with (strip_upper (strip_upper tn)).
    rewrite strip_upper_idem. reflexivity.
  - reflexivity.
Qed.

(** X22.  [track_multiple] sends a request only when it is given at most
    50 tracking numbers; with at most 50, the empty list included, it
    goes on to the request for the batch endpoint, whose body holds the
    numbers in their normalised form; so normalising them beforehand
    changes nothing. *)
Theorem track_multiple_limit_and_normal_form :
  forall (server : list request -> Httpx.result) (T : Type)
         (APIResponse : pyval -> outcome T)
         (self : atoshipSDK) (tracking_numbers : list string) (w : world),
    (sent (snd (track_multiple server APIResponse self tracking_numbers w))
       <> sent w ->
     (List.length tracking_numbers <= 50)%nat) /\
    ((List.length tracking_numbers <= 50)%nat ->
     track_multiple server APIResponse self tracking_numbers w
     = send server APIResponse self "POST" "/api/tracking/batch"
         (Some (VDict [("trackingNumbers",
                        VList (map (fun tn => VStr (format_tracking_number tn))
                                   tracking_numbers))]))
         None w) /\
    track_multiple server APIResponse self
                   (map format_tracking_number tracking_numbers) w
    = track_multiple server APIResponse self tracking_numbers w.
Proof.
  intros server T APIResponse self tns w. split; [|split].
  - unfold track_multiple.
    destruct (Nat.ltb_spec 50 (List.length tns)) as [L|L]; cbn [snd].
    + intros H. contradiction H. reflexivity.
    + intros _. exact L.
  - intros L. unfold track_multiple.
    destruct (Nat.ltb_spec 50 (List.length tns)) as [L'|_]; [lia|].
    reflexivity.
  - unfold track_multiple. rewrite length_map, map_map.
    replace (map (fun tn => VStr (format_tracking_number
                                    (format_tracking_number tn))) tns)
      with (map (fun tn => VStr (format_tracking_number tn)) tns);
      [reflexivity|].
    apply map_ext. intros tn.
    change (format_tracking_number (format_tracking_number tn))
      with (strip_upper (strip_upper tn)).
    rewrite strip_upper_idem. reflexivity.
Qed.

Lemma track_multiple_limit_and_normal_form_witness :
  let self :=
    mkSDK "key" default_base_url default_timeout default_max_retries false in
  track_multiple (always (Httpx.Response 200 None)) (@Return pyval) self
    [] initial_world
  = send (always (Httpx.Response 200 None)) (@Return pyval) self
      "POST" "/api/tracking/batch"
      (Some (VDict [("trackingNumbers", VList [])])) None initial_world.
Proof.
  apply (proj1 (proj2 (track_multiple_limit_and_normal_form
                         (always (Httpx.Response 200 None)) pyval
                         (@Return pyval)
                         (mkSDK "key" default_base_url default_timeout
                                default_max_retries false)
                         [] initial_world))).
  cbn. lia.
Defined.

Module ShapeFacts.

Import PatternFacts.

#[local] Open Scope nat_scope.

Lemma eps_inv s : in_lang Eps s -> s = "".
Proof. intros H. inversion H. reflexivity. Qed.

Lemma all_chars_append p a b :
  all_chars p (a ++ b) = all_chars p a && all_chars p b.
Proof.
  induction a as [|c a IH]; cbn; [reflexivity|].
  rewrite IH, andb_assoc. reflexivity.
Qed.

(** [[p]{n}] *)
Lemma in_lang_times_class p n :
  forall s,
    in_lang (times n (Class p)) s <->
    String.length s = n /\ all_chars p s = true.
Proof.
  induction n as [|n IH]; intros s; cbn [times].
  - split.
    + intros H. apply eps_inv in H. subst. split; reflexivity.
    + intros [H _]. destruct s; [apply in_eps|discriminate].
  - split.
    + intros H. apply cat_inv in H. destruct H as (s1 & s2 & -> & H1 & H2).
      apply class_inv in H1. destruct H1 as (c & -> & Hp).
      apply IH in H2. destruct H2 as [L A].
      cbn. rewrite L, Hp, A. split; reflexivity.
    + intros [L A]. destruct s as [|c s]; [discriminate|].
      cbn in L, A. apply andb_true_iff in A. destruct A as [Hp A].
      change (String c s) with (String c "" ++ s)%string.
      apply in_cat; [apply in_class, Hp|apply IH; split; [lia|exact A]].
Qed.

(** [[p]{0,e}] *)
Lemma in_lang_upto_class p e :
  forall s,
    in_lang (upto e (Class p)) s <->
    String.length s <= e /\ all_chars p s = true.
Proof.
  induction e as [|e IH]; intros s; cbn [upto].
  - split.
    + intros H. apply eps_inv in H. subst. split; [cbn; lia|reflexivity].
    + intros [H _]. destruct s; [apply in_eps|cbn in H; lia].
  - unfold opt. split.
    + intros H. apply alt_inv in H. destruct H as [H|H].
      * apply cat_inv in H. destruct H as (s1 & s2 & -> & H1 & H2).
        apply class_inv in H1. destruct H1 as (c & -> & Hp).
        apply IH in H2. destruct H2 as [L A].
        cbn. rewrite Hp, A. split; [lia|reflexivity].
      * apply eps_inv in H. subst. split; [cbn; lia|reflexivity].
    + intros [L A]. destruct s as [|c s].
      * apply in_alt_r, in_eps.
      * cbn in L, A. apply andb_true_iff in A. destruct A as [Hp A].
        apply in_alt_l.
        change (String c s) with (String c "" ++ s)%string.
        apply in_cat; [apply in_class, Hp|apply IH; split; [lia|exact A]].
Qed.

Lemma split_at n :
  forall s, n <= String.length s ->
  exists a b, s = (a ++ b)%string /\ String.length a = n.
Proof.
  induction n as [|n IH]; intros s H.
  - exists "", s. split; reflexivity.
  - destruct s as [|c s]; cbn in H; [lia|].
    destruct (IH s) as (a & b & -> & L); [lia|].
    exists (String c a), b. cbn. rewrite L. split; reflexivity.
Qed.

(** [[p]{m,m+extra}] *)
Lemma in_lang_range_class p m extra s :
  in_lang (Text.range m extra (Class p)) s <->
  (m <= String.length s <= m + extra) /\ all_chars p s = true.
Proof.
  unfold Text.range. split.
  - intros H. apply cat_inv in H. destruct H as (s1 & s2 & -> & H1 & H2).
    apply in_lang_times_class in H1. apply in_lang_upto_class in H2.
    destruct H1 as [L1 A1], H2 as [L2 A2].
    rewrite length_append, all_chars_append, A1, A2.
    split; [lia|reflexivity].
  - intros [L A].
    destruct (split_at m s) as (a & b & -> & La); [lia|].
    rewrite length_append in L. rewrite all_chars_append in A.
    apply andb_true_iff in A. destruct A as [Aa Ab].
    apply in_cat.
    + apply in_lang_times_class. split; assumption.
    + apply in_lang_upto_class. split; [lia|exact Ab].
Qed.

(** A stripped string does not end with whitespace. *)
Lemma rstrip_last s :
  forall s' c, rstrip s = (s' ++ String c "")%string -> is_space c = false.
Proof.
  induction s as [|a rest IH]; intros s' c; cbn [rstrip].
  - destruct s'; discriminate.
  - destruct (rstrip rest) as [|b kept] eqn:E.
    + destruct (is_space a) eqn:Sa.
      * destruct s'; discriminate.
      * destruct s' as [|a' s'']; cbn.
        -- intros [= ->]. exact Sa.
        -- intros [= _ H]. destruct s''; discriminate.
    + destruct s' as [|a' s'']; cbn.
      * intros [=].
      * intros [= _ H]. exact (IH _ _ H).
Qed.

Lemma upper_last s :
  forall s' c, upper s = (s' ++ String c "")%string ->
  exists d, c = upper_char d /\ exists t, s = (t ++ String d "")%string.
Proof.
  unfold upper.
  induction s as [|a rest IH]; intros s' c; cbn.
  - destruct s'; discriminate.
  - destruct s' as [|a' s'']; cbn.
    + intros [= <- H]. destruct rest; [|discriminate].
      exists a. split; [reflexivity|]. exists "". reflexivity.
    + intros [= _ H]. destruct (IH _ _ H) as (d & Hd & t & ->).
      exists d. split; [exact Hd|]. exists (String a t). reflexivity.
Qed.

(** On a stripped, upper-cased string [re.match] with an anchored
    pattern is a full match: there is no final line feed to skip. *)
Lemma re_match_stripped r pc :
  re_match r (upper (strip pc)) = true <-> in_lang r (upper (strip pc)).
Proof.
  rewrite re_match_spec. split; [|intros H; left; exact H].
  intros [H|(s' & E & _)]; [exact H|exfalso].
  apply upper_last in E. destruct E as (d & Hd & t & E).
  unfold strip in E. apply rstrip_last in E.
  rewrite <- is_space_upper_char, <- Hd in E. discriminate.
Qed.

(** A US ZIP code: five digits, or five digits, a hyphen and four
    digits. *)
Definition us_zip (code : string) : Prop :=
  exists five,
    String.length five = 5 /\ all_chars is_digit five = true /\
    (code = five \/
     exists four,
       String.length four = 4 /\ all_chars is_digit four = true /\
       code = (five ++ "-" ++ four)%string).

Lemma us_pattern_shape code : in_lang us_pattern code <-> us_zip code.
Proof.
  unfold us_pattern, us_zip, opt, digit. split.
  - intros H. apply cat_inv in H. destruct H as (five & tail & -> & H5 & Ht).
    apply in_lang_times_class in H5. destruct H5 as [L5 A5].
    exists five. split; [exact L5|]. split; [exact A5|].
    apply alt_inv in Ht. destruct Ht as [Ht|Ht].
    + right. apply cat_inv in Ht. destruct Ht as (h & four & -> & Hh & H4).
      apply EmailFacts.in_lang_lit in Hh. subst h.
      apply in_lang_times_class in H4. destruct H4 as [L4 A4].
      exists four. split; [exact L4|]. split; [exact A4|reflexivity].
    + left. apply eps_inv in Ht. subst. apply append_empty_r.
  - intros (five & L5 & A5 & [->|(four & L4 & A4 & ->)]).
    + rewrite <- (append_empty_r five).
      apply in_cat; [apply in_lang_times_class; split; assumption|].
      apply in_alt_r, in_eps.
    + apply in_cat; [apply in_lang_times_class; split; assumption|].
      apply in_alt_l. apply in_cat.
      * apply EmailFacts.in_lang_lit. reflexivity.
      * apply in_lang_times_class; split; assumption.
Qed.

End ShapeFacts.
Import ShapeFacts.

(** X23.  What [validate_postal_code] accepts, on the stripped upper-case
    form of the postal code: for the country US (in any case), exactly
    five digits, optionally followed by a hyphen and four digits; for a
    country other than US, CA and GB, exactly the strings of 3 to 10
    characters that are capital letters, digits, whitespace or hyphens. *)
Theorem validate_postal_code_shapes :
  forall postal_code country : string,
    let code := upper (strip postal_code) in
    (upper country = "US" ->
     (validate_postal_code (VStr postal_code) (VStr country) = Return true
      <-> us_zip code)) /\
    (upper country <> "US" -> upper country <> "CA" ->
     upper country <> "GB" ->
     (validate_postal_code (VStr postal_code) (VStr country) = Return true
      <-> (3 <= String.length code <= 10)%nat /\
          all_chars (fun c => is_upper c || is_digit c || is_space c
                              || Ascii.eqb c "-"%char) code = true)).
Proof.
  intros pc country code. unfold validate_postal_code. fold code. split.
  - intros ->. cbn [String.eqb Ascii.eqb Bool.eqb].
    rewrite <- us_pattern_shape. unfold code.
    rewrite <- re_match_stripped. split; congruence.
  - intros Hus Hca Hgb.
    destruct (String.eqb_spec (upper country) "US") as [E|_]; [contradiction|].
    destruct (String.eqb_spec (upper country) "CA") as [E|_]; [contradiction|].
    destruct (String.eqb_spec (upper country) "GB") as [E|_]; [contradiction|].
    unfold other_pattern.
    rewrite <- (in_lang_range_class _ 3 7 code). unfold code.
    rewrite <- re_match_stripped. split; congruence.
Qed.

Lemma validate_postal_code_shapes_witness :
  validate_postal_code (VStr " 94105-1234 ") (VStr "us") = Return true.
Proof.
  apply (proj1 (validate_postal_code_shapes " 94105-1234 " "us") eq_refl).
  exists "94105". split; [reflexivity|]. split; [reflexivity|].
  right. exists "1234". repeat split.
Defined.

Module UrlFacts.

Import PatternFacts EmailFacts Webhook.

Lemma in_lang_literal text : forall s, in_lang (literal text) s <-> s = text.
Proof.
  induction text as [|c text IH]; intros s; cbn [literal].
  - split; [apply eps_inv|intros ->; apply in_eps].
  - split.
    + intros H. apply cat_inv in H. destruct H as (s1 & s2 & -> & H1 & H2).
      apply in_lang_lit in H1. apply IH in H2. subst. reflexivity.
    + intros ->. change (String c text) with (String c "" ++ text)%string.
      apply in_cat; [apply in_lang_lit; reflexivity|apply IH; reflexivity].
Qed.

Lemma in_lang_opt r s : in_lang (opt r) s <-> in_lang r s \/ s = "".
Proof.
  unfold opt. split.
  - intros H. apply alt_inv in H. destruct H as [H|H];
      [left; exact H|right; exact (eps_inv _ H)].
  - intros [H| ->]; [apply in_alt_l; exact H|apply in_alt_r, in_eps].
Qed.

(** An optional group of one or more characters of the class [p]. *)
Lemma in_lang_opt_plus_class p s :
  in_lang (opt (plus (Class p))) s <-> all_chars p s = true.
Proof.
  rewrite in_lang_opt, in_lang_plus_class. split.
  - intros [[_ H]| ->]; [exact H|reflexivity].
  - intros H. destruct s as [|c s]; [right; reflexivity|].
    left. split; [discriminate|exact H].
Qed.

(** An optional group: the character [c] followed by characters of the
    class [p]. *)
Lemma in_lang_opt_marked c p s :
  in_lang (opt (Cat (lit c) (Star (Class p)))) s <->
  s = "" \/ exists t, s = String c t /\ all_chars p t = true.
Proof.
  rewrite in_lang_opt. split.
  - intros [H| ->]; [right|left; reflexivity].
    apply cat_inv in H. destruct H as (s1 & s2 & -> & H1 & H2).
    apply in_lang_lit in H1. apply in_lang_star_class in H2. subst s1.
    exists s2. split; [reflexivity|exact H2].
  - intros [->|(t & -> & H)]; [right; reflexivity|left].
    change (String c t) with (String c "" ++ t)%string.
    apply in_cat; [apply in_lang_lit; reflexivity|].
    apply in_lang_star_class. exact H.
Qed.

(** What may follow the host and the port: nothing, or a path that
    starts with a slash, then an optional query, then an optional
    fragment. *)
Definition tail_shape (rest : string) : Prop :=
  rest = "" \/
  exists path query fragment,
    rest = ("/" ++ path ++ query ++ fragment)%string /\
    all_chars path_char path = true /\
    (query = "" \/
     exists q, query = String "?"%char q /\ all_chars query_char q = true) /\
    (fragment = "" \/
     exists f, fragment = String "#"%char f /\ all_chars is_word f = true).

(** A URL the validator accepts: scheme, host, port, tail. *)
Definition url_shape (url : string) : Prop :=
  exists scheme host port rest,
    url = (scheme ++ "://" ++ host ++ port ++ rest)%string /\
    (scheme = "http" \/ scheme = "https") /\
    host <> "" /\ all_chars host_char host = true /\
    all_chars port_char port = true /\
    tail_shape rest.

Lemma url_tail_shape rest :
  in_lang (opt url_tail) rest <-> tail_shape rest.
Proof.
  rewrite in_lang_opt. unfold url_tail, tail_shape. split.
  - intros [H| ->]; [right|left; reflexivity].
    apply cat_inv in H. destruct H as (slash & r1 & -> & Hs & H).
    apply in_lang_lit in Hs. subst slash.
    apply cat_inv in H. destruct H as (path & r2 & -> & Hp & H).
    apply in_lang_star_class in Hp.
    apply cat_inv in H. destruct H as (query & fragment & -> & Hq & Hf).
    apply in_lang_opt_marked in Hq. apply in_lang_opt_marked in Hf.
    exists path, query, fragment. auto.
  - intros [->|(path & query & fragment & -> & Hp & Hq & Hf)];
      [right; reflexivity|left].
    change ("/" ++ path ++ query ++ fragment)%string
      with (String "/"%char "" ++ path ++ query ++ fragment)%string.
    apply in_cat; [apply in_lang_lit; reflexivity|].
    apply in_cat; [apply in_lang_star_class; exact Hp|].
    apply in_cat; apply in_lang_opt_marked; assumption.
Qed.

Lemma url_pattern_shape url : in_lang url_pattern url <-> url_shape url.
Proof.
  unfold url_pattern, url_shape. split.
  - intros H.
    apply cat_inv in H. destruct H as (a & r1 & -> & Ha & H).
    apply in_lang_literal in Ha. subst a.
    apply cat_inv in H. destruct H as (o & r2 & -> & Ho & H).
    apply in_lang_opt in Ho.
    apply cat_inv in H. destruct H as (sep & r3 & -> & Hsep & H).
    apply in_lang_literal in Hsep. subst sep.
    apply cat_inv in H. destruct H as (host & r4 & -> & Hhost & H).
    apply in_lang_plus_class in Hhost. destruct Hhost as [Hne Hhost].
    apply cat_inv in H. destruct H as (port & rest & -> & Hport & Hrest).
    apply in_lang_opt_plus_class in Hport.
    apply url_tail_shape in Hrest.
    destruct Ho as [Ho| ->].
    + apply in_lang_lit in Ho. subst o.
      exists "https", host, port, rest. auto 10.
    + exists "http", host, port, rest. auto 10.
  - intros (scheme & host & port & rest & -> & Hscheme & Hne & Hhost & Hport
            & Hrest).
    assert (in_lang (Cat (literal "://")
                      (Cat (plus (Class host_char))
                        (Cat (opt (plus (Class port_char))) (opt url_tail))))
                    ("://" ++ host ++ port ++ rest)) as Hafter.
    { apply in_cat; [apply in_lang_literal; reflexivity|].
      apply in_cat; [apply in_lang_plus_class; split; assumption|].
      apply in_cat; [apply in_lang_opt_plus_class; exact Hport|].
      apply url_tail_shape. exact Hrest. }
    destruct Hscheme as [->| ->].
    + change ("http" ++ "://" ++ host ++ port ++ rest)%string
        with ("http" ++ "" ++ "://" ++ host ++ port ++ rest)%string.
      apply in_cat; [apply in_lang_literal; reflexivity|].
      apply in_cat; [apply in_lang_opt; right; reflexivity|exact Hafter].
    + change ("https" ++ "://" ++ host ++ port ++ rest)%string
        with ("http" ++ "s" ++ "://" ++ host ++ port ++ rest)%string.
      apply in_cat; [apply in_lang_literal; reflexivity|].
      apply in_cat; [|exact Hafter].
      apply in_lang_opt. left. apply in_lang_lit. reflexivity.
Qed.

End UrlFacts.
Import UrlFacts.

(** X24.  [Webhook.validate_url] returns the value unchanged or raises
    [ValueError("Invalid URL format")]; it returns exactly on a URL made
    of the scheme http or https, "://", a non-empty host of word
    characters, dots and hyphens, optional colons and digits, and
    optionally a slash-led path of word characters, slashes and dots
    with an optional query and an optional fragment, possibly followed
    by one line feed, which is kept. *)
Theorem Webhook_validate_url_accepts_exactly_the_shape :
  forall v : string,
    (Webhook.validate_url v = inl v \/
     Webhook.validate_url v = inr "Invalid URL format") /\
    (Webhook.validate_url v = inl v <->
     url_shape v \/
     exists url, v = (url ++ String "010"%char "")%string /\ url_shape url).
Proof.
  intros v. unfold Webhook.validate_url. split.
  - destruct (re_match Webhook.url_pattern v); [left|right]; reflexivity.
  - transitivity (re_match Webhook.url_pattern v = true).
    + destruct (re_match Webhook.url_pattern v); cbn [negb];
        split; try discriminate; reflexivity.
    + rewrite PatternFacts.re_match_spec, url_pattern_shape.
      split; intros [H|(url & E & H)]; [left; exact H|right|left; exact H|right];
        exists url; (split; [exact E|]); apply url_pattern_shape; exact H.
Qed.

Lemma Webhook_validate_url_accepts_exactly_the_shape_witness :
  Webhook.validate_url "https://hooks.example.com:8443/atoship/events?v=1#top"
  = inl "https://hooks.example.com:8443/atoship/events?v=1#top".
Proof.
  apply (proj2 (proj2 (Webhook_validate_url_accepts_exactly_the_shape
                         "https://hooks.example.com:8443/atoship/events?v=1#top"))).
  left. exists "https", "hooks.example.com", ":8443", "/atoship/events?v=1#top".
  split; [reflexivity|]. split; [right; reflexivity|].
  split; [discriminate|]. split; [reflexivity|]. split; [reflexivity|].
  right. exists "atoship/events", "?v=1", "#top".
  split; [reflexivity|]. split; [reflexivity|].
  split; right; eexists; (split; [reflexivity|reflexivity]).
Defined.
